(** * right-to-comment: a shallow embedding of the Go front-end

    The program is a small web front-end (package [main], file [main.go])
    together with a storage package ([database], function [InitDB]).  The
    development follows the source top-down:

    - the parts of the Go standard library that [formatDuration] runs
      through ([strings.ToLower], [strings.ReplaceAll], [strings.Join],
      [time.ParseDuration], [Duration.Hours/Minutes/Seconds], the
      [float64] to [int] conversion and [fmt.Sprintf]);
    - [formatDuration], [searchYouTube], [handleSearch], [embedVideo],
      [InitDB] and [main];
    - the properties of these functions.

    Go strings are byte sequences: they are [string] here (a list of 8-bit
    [ascii]).  Go's [int], [int64] and [uint64] are [Z] with the wrap-around
    written out; [float64] is the IEEE 754 binary64 format of
    [SpecFloat] (precision 53, [emax] 1024, round to nearest even). *)

From Stdlib Require Import ZArith Lia String Ascii List Bool SpecFloat.
From stdpp Require Import base option gmap strings list.

Local Open Scope string_scope.
Local Open Scope list_scope.
Local Open Scope Z_scope.

(** ** Bytes *)

Definition byte_val (c : ascii) : Z := Z.of_N (N_of_ascii c).

(** ['0' <= c && c <= '9'] *)
Definition isDigit (c : ascii) : bool :=
  (48 <=? byte_val c) && (byte_val c <=? 57).

(** ['A' <= c && c <= 'Z'] *)
Definition isUpperASCII (c : ascii) : bool :=
  (65 <=? byte_val c) && (byte_val c <=? 90).

(** [c += 'a' - 'A'] *)
Definition lowerByte (c : ascii) : ascii :=
  if isUpperASCII c then ascii_of_N (Z.to_N (byte_val c + 32)) else c.

(** [utf8.RuneSelf = 0x80]: bytes below it are single-byte runes. *)
Definition RuneSelf : Z := 128.

Fixpoint string_map (f : ascii -> ascii) (s : string) : string :=
  match s with
  | EmptyString => EmptyString
  | String c r => String (f c) (string_map f r)
  end.

Fixpoint string_forallb (p : ascii -> bool) (s : string) : bool :=
  match s with
  | EmptyString => true
  | String c r => p c && string_forallb p r
  end.

Fixpoint string_existsb (p : ascii -> bool) (s : string) : bool :=
  match s with
  | EmptyString => false
  | String c r => p c || string_existsb p r
  end.

Fixpoint string_drop (n : nat) (s : string) : string :=
  match n, s with
  | O, _ => s
  | S _, EmptyString => EmptyString
  | S n', String _ r => string_drop n' r
  end.

(** ** Machine integers *)

Definition two63 : Z := 9223372036854775808.
Definition two64 : Z := 18446744073709551616.

(** Wrap-around of [uint64] arithmetic. *)
Definition u64 (z : Z) : Z := z mod two64.

(** Wrap-around of [int64] (and of [int] on 64-bit targets). *)
Definition i64 (z : Z) : Z := (z + two63) mod two64 - two63.

(** ** float64 *)

Module float64.

Definition t := spec_float.
Definition prec : Z := 53.
Definition emax : Z := 1024.

(** [float64(n)] for an integer [n]: the nearest binary64 value, ties to
    even. *)
Definition of_Z (z : Z) : t := binary_normalize prec emax z 0 false.

Definition add : t -> t -> t := SFadd prec emax.
Definition mul : t -> t -> t := SFmul prec emax.
Definition div : t -> t -> t := SFdiv prec emax.

(** The integer part of a finite value (rounding toward zero); [None]
    for NaN and the infinities. *)
Definition trunc (f : t) : option Z :=
  match f with
  | S754_zero _ => Some 0
  | S754_finite s m e => Some (cond_Zopp s (Z.shiftl (Zpos m) e))
  | S754_infinity _ | S754_nan => None
  end.

(** [int64(f)] and [int(f)].  The language leaves the result open when
    the integer part does not fit; the value here is the one amd64
    produces (the "integer indefinite" [-2^63]). *)
Definition to_int64 (f : t) : Z :=
  match trunc f with
  | Some z => if (- two63 <=? z) && (z <? two63) then z else - two63
  | None => - two63
  end.

(** [uint64(f)]; outside [0, 2^64) the result is again the target's. *)
Definition to_uint64 (f : t) : Z :=
  match trunc f with
  | Some z => if (0 <=? z) && (z <? two64) then z else two63
  | None => two63
  end.

End float64.

(** ** Package fmt: the verbs the program uses *)

Module fmt.

Inductive arg : Type :=
| Int (z : Z)
| Str (s : string).

Definition digitChar (d : Z) : ascii := ascii_of_N (Z.to_N (48 + d)).

(** Decimal digits of a non-negative number, most significant first;
    [fuel] bounds the number of digits. *)
Fixpoint digits (fuel : nat) (n : Z) (acc : string) : string :=
  match fuel with
  | O => acc
  | S fuel' =>
      let acc' := String (digitChar (n mod 10)) acc in
      if n <? 10 then acc' else digits fuel' (n / 10) acc'
  end.

Definition decimal (n : Z) : string :=
  digits (S (Z.to_nat (Z.log2 n))) n "".

Fixpoint repeat (c : ascii) (n : nat) : string :=
  match n with
  | O => ""
  | S n' => String c (repeat c n')
  end.

Definition padLeft (c : ascii) (width : nat) (s : string) : string :=
  repeat c (width - String.length s) +:+ s.

(** [%d] with an optional width and [0] flag ([fmtInteger]): with the
    [0] flag the width counts the sign, and the zeros go between the sign
    and the digits. *)
Definition fmtInteger (zero : bool) (width : nat) (z : Z) : string :=
  let neg := z <? 0 in
  let ds := decimal (Z.abs z) in
  if zero then
    let ds' := padLeft "0" (if neg then width - 1 else width)%nat ds in
    if neg then String "-" ds' else ds'
  else
    padLeft " " width (if neg then String "-" ds else ds).

(** [%s] with an optional width. *)
Definition fmtString (zero : bool) (width : nat) (s : string) : string :=
  padLeft (if zero then "0" else " ")%char width s.

Definition typeName (a : arg) : string :=
  match a with Int _ => "int" | Str _ => "string" end.

Definition plain (a : arg) : string :=
  match a with Int z => fmtInteger false 0 z | Str s => s end.

(** [%!v(type=value)]: a verb that does not fit its operand. *)
Definition badVerb (verb : ascii) (a : arg) : string :=
  "%!" +:+ String verb ("(" +:+ typeName a +:+ "=" +:+ plain a +:+ ")").

Definition printVerb (zero : bool) (width : nat) (verb : ascii) (a : arg) : string :=
  match a with
  | Int z => if Ascii.eqb verb "d" then fmtInteger zero width z else badVerb verb a
  | Str s => if Ascii.eqb verb "s" then fmtString zero width s else badVerb verb a
  end.

Fixpoint extra (args : list arg) : string :=
  match args with
  | [] => ""
  | [a] => typeName a +:+ "=" +:+ plain a
  | a :: rest => typeName a +:+ "=" +:+ plain a +:+ ", " +:+ extra rest
  end.

(** The scanner of [doPrintf].  [st] is where the scanner is inside a
    directive: outside one, after [%] (flags), or inside the width. *)
Inductive scan : Type :=
| Text
| Flags (zero : bool)
| Width (zero : bool) (width : nat).

Definition verbStep (zero : bool) (width : nat) (c : ascii) (args : list arg)
  : string * list arg :=
  if Ascii.eqb c "%" then ("%", args)
  else match args with
       | [] => ("%!" +:+ String c "(MISSING)", [])
       | a :: rest => (printVerb zero width c a, rest)
       end.

Fixpoint doPrintf (st : scan) (format : string) (args : list arg) : string :=
  match format with
  | EmptyString =>
      match st with
      | Text => match args with
                | [] => ""
                | _ => "%!(EXTRA " +:+ extra args +:+ ")"
                end
      | _ => "%!(NOVERB)"
      end
  | String c rest =>
      match st with
      | Text =>
          if Ascii.eqb c "%" then doPrintf (Flags false) rest args
          else String c (doPrintf Text rest args)
      | Flags zero =>
          if Ascii.eqb c "0" then doPrintf (Flags true) rest args
          else if isDigit c then
            doPrintf (Width zero (Z.to_nat (byte_val c - 48))) rest args
          else
            let '(out, args') := verbStep zero 0 c args in
            out +:+ doPrintf Text rest args'
      | Width zero width =>
          if isDigit c then
            doPrintf (Width zero (10 * width + Z.to_nat (byte_val c - 48))) rest args
          else
            let '(out, args') := verbStep zero width c args in
            out +:+ doPrintf Text rest args'
      end
  end.

Definition Sprintf (format : string) (args : list arg) : string :=
  doPrintf Text format args.

End fmt.

(** ** Package strings *)

Module strings.

(** [strings.Join(elems, sep)] *)
Fixpoint Join (elems : list string) (sep : string) : string :=
  match elems with
  | [] => ""
  | [e] => e
  | e :: rest => e +:+ sep +:+ Join rest sep
  end.

(** The replacement loop of [strings.Replace] for a non-empty [old]:
    occurrences are found left to right and do not overlap.  [skip]
    counts the bytes of a found occurrence that are still to be passed
    over. *)
Fixpoint replaceFrom (old new : string) (skip : nat) (s : string) : string :=
  match s with
  | EmptyString => ""
  | String c r =>
      match skip with
      | S k => replaceFrom old new k r
      | O =>
          if String.prefix old s
          then new +:+ replaceFrom old new (String.length old - 1) r
          else String c (replaceFrom old new 0 r)
      end
  end.

(** With an empty [old], Go puts [new] before every UTF-8 sequence and at
    the end; the program never asks for that, and the model does it byte
    by byte. *)
Fixpoint intersperse (new s : string) : string :=
  match s with
  | EmptyString => new
  | String c r => new +:+ String c (intersperse new r)
  end.

(** [strings.ReplaceAll(s, old, new)] *)
Definition ReplaceAll (s old new : string) : string :=
  if String.eqb old new then s
  else match old with
       | EmptyString => intersperse new s
       | _ => replaceFrom old new 0 s
       end.

(** [strings.TrimPrefix(s, prefix)] *)
Definition TrimPrefix (s prefix : string) : string :=
  if String.prefix prefix s then string_drop (String.length prefix) s else s.

(** [strings.Contains(s, substr)] *)
Fixpoint Contains (s substr : string) : bool :=
  String.prefix substr s ||
  match s with
  | EmptyString => false
  | String _ r => Contains r substr
  end.

Section ToLower.

(** [strings.Map(unicode.ToLower, s)], the path [ToLower] takes for a
    string with a byte outside ASCII.  It depends on the Unicode case
    tables, which are data of the Go distribution: they are a parameter
    of the development. *)
Variable mapUnicodeToLower : string -> string.

(** [strings.ToLower(s)] *)
Definition ToLower (s : string) : string :=
  let isASCII := string_forallb (fun c => byte_val c <? RuneSelf) s in
  let hasUpper := string_existsb isUpperASCII s in
  if isASCII then
    if negb hasUpper then s else string_map lowerByte s
  else mapUnicodeToLower s.

End ToLower.

End strings.

(** ** Package time *)

Module time.

(** [type Duration int64], a count of nanoseconds. *)
Definition Duration := Z.

Definition Nanosecond : Duration := 1.
Definition Microsecond : Duration := 1000 * Nanosecond.
Definition Millisecond : Duration := 1000 * Microsecond.
Definition Second : Duration := 1000 * Millisecond.
Definition Minute : Duration := 60 * Second.
Definition Hour : Duration := 60 * Minute.

Definition unitMap : gmap string Z :=
  {[ "ns" := Nanosecond;
     "us" := Microsecond;
     "µs" := Microsecond;
     "μs" := Microsecond;
     "ms" := Millisecond;
     "s" := Second;
     "m" := Minute;
     "h" := Hour ]}.

Inductive error : Type :=
| invalidDuration (orig : string)
| missingUnit (orig : string)
| unknownUnit (u orig : string).

(** [leadingInt]: the leading [[0-9]*] of [s] as a [uint64]; [None] is
    [errLeadingInt] (overflow). *)
Fixpoint leadingIntFrom (x : Z) (s : string) : option (Z * string) :=
  match s with
  | EmptyString => Some (x, s)
  | String c r =>
      if negb (isDigit c) then Some (x, s)
      else if x >? two63 / 10 then None
      else
        let x := u64 (u64 (x * 10 + byte_val c) - 48) in
        if x >? two63 then None else leadingIntFrom x r
  end.

Definition leadingInt (s : string) : option (Z * string) := leadingIntFrom 0 s.

(** [leadingFraction]: the leading [[0-9]*] of [s] as a numerator and a
    power of ten; on overflow it stops accumulating and keeps consuming. *)
Fixpoint leadingFractionFrom (x : Z) (scale : float64.t) (overflow : bool)
    (s : string) : Z * float64.t * string :=
  match s with
  | EmptyString => (x, scale, s)
  | String c r =>
      if negb (isDigit c) then (x, scale, s)
      else if overflow then leadingFractionFrom x scale overflow r
      else if x >? (two63 - 1) / 10 then leadingFractionFrom x scale true r
      else
        let y := u64 (u64 (x * 10 + byte_val c) - 48) in
        if y >? two63 then leadingFractionFrom x scale true r
        else leadingFractionFrom y (float64.mul scale (float64.of_Z 10)) false r
  end.

Definition leadingFraction (s : string) : Z * float64.t * string :=
  leadingFractionFrom 0 (float64.of_Z 1) false s.

(** The unit: the bytes up to the next ['.'] or digit. *)
Fixpoint unitSpan (s : string) : string * string :=
  match s with
  | EmptyString => ("", s)
  | String c r =>
      if Ascii.eqb c "." || isDigit c then ("", s)
      else let '(u, rest) := unitSpan r in (String c u, rest)
  end.

(** Early returns: [let? x := r in k] leaves with the error of [r]. *)
Definition check (ok : bool) (e : error) : error + unit :=
  if ok then inr tt else inl e.

Notation "'let?' x ':=' r 'in' k" :=
  (match r with inl e => inl e | inr x => k end)
    (at level 10, x pattern, r at level 100, k at level 200).

(** One round of the loop [for s != ""] of [ParseDuration]: a number, an
    optional fraction and a unit are consumed from [s] and added to [d].
    The result is the new [d] with the rest of the string. *)
Definition parseStep (orig : string) (d : Z) (s : string) : error + Z * string :=
  (* The next character must be a digit or '.' *)
  let? _ := check match s with
                  | String c _ => Ascii.eqb c "." || isDigit c
                  | EmptyString => false
                  end (invalidDuration orig) in
  (* Consume the leading digits *)
  let pl := String.length s in
  let? (v, s) := match leadingInt s with
                 | Some r => inr r
                 | None => inl (invalidDuration orig)
                 end in
  let pre := negb (pl =? String.length s)%nat in
  (* Consume an optional '.' with its digits *)
  let '(f, scale, s, post) :=
    match s with
    | String c s' =>
        if Ascii.eqb c "." then
          let pl := String.length s' in
          let '(f, scale, s) := leadingFraction s' in
          (f, scale, s, negb (pl =? String.length s)%nat)
        else (0, float64.of_Z 1, s, false)
    | EmptyString => (0, float64.of_Z 1, s, false)
    end in
  let? _ := check (pre || post) (invalidDuration orig) in
  (* Consume unit. *)
  let '(u, s) := unitSpan s in
  let? _ := check (negb (String.eqb u "")) (missingUnit orig) in
  let? unit := match unitMap !! u with
               | Some unit => inr unit
               | None => inl (unknownUnit u orig)
               end in
  let? _ := check (negb (v >? two63 / unit)) (invalidDuration orig) in
  let v := u64 (v * unit) in
  let? v := (if f >? 0 then
               (* float64 is needed to be nanosecond accurate for
                  fractions of hours. *)
               let v := u64 (v + float64.to_uint64
                                   (float64.mul (float64.of_Z f)
                                      (float64.div (float64.of_Z unit) scale))) in
               let? _ := check (negb (v >? two63)) (invalidDuration orig) in
               inr v
             else inr v) in
  let d := u64 (d + v) in
  let? _ := check (negb (d >? two63)) (invalidDuration orig) in
  inr (d, s).

(** The loop itself.  Every round consumes at least one byte, so
    [String.length s] rounds are enough ([parseLoop_fuel] below); [None]
    is a loop that was cut short. *)
Fixpoint parseLoop (fuel : nat) (orig : string) (d : Z) (s : string)
  : option (error + Z) :=
  match s with
  | EmptyString => Some (inr d)
  | _ =>
      match fuel with
      | O => None
      | S fuel' =>
          match parseStep orig d s with
          | inl e => Some (inl e)
          | inr (d, s) => parseLoop fuel' orig d s
          end
      end
  end.

(** [time.ParseDuration(s)]: the pair of the duration and the error, the
    duration being 0 whenever there is an error. *)
Definition ParseDuration (s : string) : Duration * option error :=
  let orig := s in
  (* Consume [-+]? *)
  let '(neg, s) :=
    match s with
    | String c r =>
        if Ascii.eqb c "-" || Ascii.eqb c "+" then (Ascii.eqb c "-", r) else (false, s)
    | EmptyString => (false, s)
    end in
  (* Special case: if all that is left is "0", this is zero. *)
  if String.eqb s "0" then (0, None)
  else if String.eqb s "" then (0, Some (invalidDuration orig))
  else
    match parseLoop (String.length s) orig 0 s with
    | None => (0, Some (invalidDuration orig))
    | Some (inl e) => (0, Some e)
    | Some (inr d) =>
        if neg then (i64 (- i64 d), None)
        else if d >? two63 - 1 then (0, Some (invalidDuration orig))
        else (i64 d, None)
    end.

(** [func (d Duration) Hours() float64] *)
Definition Hours (d : Duration) : float64.t :=
  let hour := Z.quot d Hour in
  let nsec := Z.rem d Hour in
  float64.add (float64.of_Z hour)
    (float64.div (float64.of_Z nsec) (float64.of_Z (60 * 60 * 1000000000))).

(** [func (d Duration) Minutes() float64] *)
Definition Minutes (d : Duration) : float64.t :=
  let min := Z.quot d Minute in
  let nsec := Z.rem d Minute in
  float64.add (float64.of_Z min)
    (float64.div (float64.of_Z nsec) (float64.of_Z (60 * 1000000000))).

(** [func (d Duration) Seconds() float64] *)
Definition Seconds (d : Duration) : float64.t :=
  let sec := Z.quot d Second in
  let nsec := Z.rem d Second in
  float64.add (float64.of_Z sec)
    (float64.div (float64.of_Z nsec) (float64.of_Z 1000000000)).

End time.

(** ** The outside world

    Everything the program does to the outside is an [event]; a computation
    of type [IO A] is its result together with the events it caused, in
    order. *)

(** google.golang.org/api/youtube/v3: the fields the program reads and the
    parameters it sets.  What is a pointer in the Go client is an [option]
    here, [None] being [nil]: the items of a response ([[]*SearchResult],
    [[]*Video]) and the sub-structures [Id], [Snippet] and [ContentDetails],
    which the remote side leaves out when it does not send the part. *)
Module youtube.

Definition error := string.

Record Service := { apiKey : string }.

Record ResourceId := { VideoId : string }.
Record SearchResult := { SearchResult_Id : option ResourceId }.
Record SearchListResponse :=
  { SearchListResponse_Items : list (option SearchResult) }.

Record VideoSnippet := { Title : string; ChannelTitle : string }.
Record VideoContentDetails := { Duration : string }.
Record Video :=
  { Id : string;
    Snippet : option VideoSnippet;
    ContentDetails : option VideoContentDetails }.
Record VideoListResponse := { Items : list (option Video) }.

(** [service.Search.List(part).Q(q).MaxResults(n).Type(t)] *)
Record SearchListCall :=
  { search_part : list string; Q : string; MaxResults : Z; Type_ : string }.

(** [service.Videos.List(part).Id(id)] *)
Record VideosListCall := { videos_part : list string; Id_ : string }.

(** What the remote side answers. *)
Record API :=
  { NewService : string -> error + Service;
    SearchListDo : Service -> SearchListCall -> error + SearchListResponse;
    VideosListDo : Service -> VideosListCall -> error + VideoListResponse }.

End youtube.

(** github.com/gin-gonic/gin: the request data the handlers read and what
    they render. *)
Module gin.

(** The values the program puts into a [gin.H]. *)
Inductive value : Type :=
| VString (s : string)
| VVideos (videos : list (gmap string string)).

Abbreviation H := (gmap string value).

Record Context :=
  { PostFormValues : gmap string (list string);
    Params : list (string * string) }.

(** [c.PostForm(key)]: the first value of the field, or [""]. *)
Definition PostForm (c : Context) (key : string) : string :=
  match PostFormValues c !! key with
  | Some (v :: _) => v
  | _ => ""
  end.

(** [c.Param(key)]: the value of the first path parameter of that name,
    or [""]. *)
Definition Param (c : Context) (key : string) : string :=
  match List.find (fun p => String.eqb (fst p) key) (Params c) with
  | Some (_, v) => v
  | None => ""
  end.

End gin.

Definition StatusOK : Z := 200.
Definition StatusNotFound : Z := 404.

Inductive event : Type :=
(* the YouTube client *)
| NewService (apiKey : string)
| SearchDo (call : youtube.SearchListCall)
| VideosDo (call : youtube.VideosListCall)
(* standard output and the log *)
| Println (operands : list string)
| LogFatal (message : string)
(* the response of a handler *)
| RenderString (code : Z) (body : string)
| RenderHTML (code : Z) (name : string) (obj : gin.H)
(* the process environment *)
| DotenvLoad
| Getenv (key : string)
(* storage *)
| SqlOpen (driverName dataSourceName : string)
| SqlExec (query : string)
(* the router *)
| LoadHTMLGlob (pattern : string)
| Route (method path : string)
| Run (addr : string).

Definition IO (A : Type) : Type := (A * list event)%type.

#[global] Instance IO_ret : MRet IO := fun _ a => (a, []).
#[global] Instance IO_bind : MBind IO :=
  fun _ _ k m => let '(a, l1) := m in let '(b, l2) := k a in (b, l1 ++ l2).

Definition emit (e : event) : IO unit := (tt, [e]).

(** The result and the events of a computation. *)
Definition result {A} (m : IO A) : A := fst m.
Definition events {A} (m : IO A) : list event := snd m.

(** ** Panics

    A call returns or panics.  The one panic the program raises by itself is
    the run-time error of reading through a nil pointer. *)
Inductive outcome (A : Type) : Type :=
| Returned (a : A)
| Panicked (v : string).

Arguments Returned {A} a.
Arguments Panicked {A} v.

#[global] Instance outcome_ret : MRet outcome := fun _ a => Returned a.
#[global] Instance outcome_bind : MBind outcome :=
  fun _ _ k m => match m with Returned a => k a | Panicked v => Panicked v end.

Definition nilDereference : string :=
  "runtime error: invalid memory address or nil pointer dereference".

(** Reading through the pointer [p]. *)
Definition deref {A} (p : option A) : outcome A :=
  match p with
  | Some a => Returned a
  | None => Panicked nilDereference
  end.

(** The process environment as [main] finds it. *)
Module os.

Definition error := string.

Record OS :=
  { (* the file [.env], read and parsed, or why that failed *)
    dotenvFile : error + gmap string string;
    (* the environment variables of the process *)
    environ : gmap string string;
    (* does [LoadHTMLGlob] load the pattern: files match it, and they parse *)
    globMatches : string -> bool;
    (* can the address be listened on? *)
    listen : string -> option error }.

(** [os.Getenv(key)]: the value, [""] when the variable is not set. *)
Definition Getenv (env : gmap string string) (key : string) : string :=
  default "" (env !! key).

(** [godotenv.Load()]: the variables of [.env] are set, those that are
    already set keep their value. *)
Definition godotenv_Load (w : OS) : gmap string string * option error :=
  match dotenvFile w with
  | inl err => (environ w, Some err)
  | inr vars => (environ w ∪ vars, None)
  end.

End os.

(** ** Package database (InitDB) *)

Module database.

Definition error := string.

Record DB := { driverName : string; dataSourceName : string }.

(** database/sql with the sqlite driver. *)
Record SQL :=
  { Open : string -> string -> error + DB;
    ExecContext : DB -> string -> option error }.

Definition createComments : string :=
"CREATE TABLE IF NOT EXISTS comments (
            id INTEGER PRIMARY KEY AUTOINCREMENT,
            video_id TEXT NOT NULL,
            comment TEXT,
            created_at TIMESTAMP DEFAULT CURRENT_TIMESTAMP
        )".

(** [InitDB(dbPath)]: the new value of the package variable [db] and the
    error returned. *)
Definition InitDB (sql : SQL) (dbPath : string) : IO (option DB * option error) :=
  _ ← emit (SqlOpen "sqlite" dbPath);
  match Open sql "sqlite" dbPath with
  | inl err => mret (None, Some err)
  | inr db =>
      _ ← emit (SqlExec createComments);
      match ExecContext sql db createComments with
      | Some err => mret (Some db, Some err)
      | None => mret (Some db, None)
      end
  end.

End database.

(** * The program *)

(** The locals [hours], [minutes] and [seconds] of [formatDuration], as
    functions of the parsed duration [d]. *)
Definition hoursOf (d : time.Duration) : Z := float64.to_int64 (time.Hours d).
Definition minutesOf (d : time.Duration) : Z :=
  Z.rem (float64.to_int64 (time.Minutes d)) 60.
Definition secondsOf (d : time.Duration) : Z :=
  Z.rem (float64.to_int64 (time.Seconds d)) 60.

Section Program.

Variable mapUnicodeToLower : string -> string.

(** ** formatDuration (main.go) *)

(** The argument of [time.ParseDuration] in [formatDuration]:
    [strings.ReplaceAll(strings.ToLower(duration), "pt", "")]. *)
Definition durationText (duration : string) : string :=
  strings.ReplaceAll (strings.ToLower mapUnicodeToLower duration) "pt" "".

(** Format ISO 8601 duration to H:MM:SS or MM:SS *)
Definition formatDuration (duration : string) : string :=
  let '(d, _) := time.ParseDuration (durationText duration) in
  let hours := float64.to_int64 (time.Hours d) in
  let minutes := Z.rem (float64.to_int64 (time.Minutes d)) 60 in
  let seconds := Z.rem (float64.to_int64 (time.Seconds d)) 60 in
  if hours >? 0 then
    fmt.Sprintf "%d:%02d:%02d" [fmt.Int hours; fmt.Int minutes; fmt.Int seconds]
  else
    fmt.Sprintf "%d:%02d" [fmt.Int minutes; fmt.Int seconds].

(** The duration [formatDuration] works with, and the error it drops. *)
Definition parsedDuration (duration : string) : time.Duration :=
  fst (time.ParseDuration (durationText duration)).

Definition parseError (duration : string) : option time.error :=
  snd (time.ParseDuration (durationText duration)).

(** ** searchYouTube (main.go) *)

Variable api : youtube.API.

(** The map literal built for one item of the details response.  The item,
    its snippet and its content details are read through pointers. *)
Definition videoOf (item : option youtube.Video) : outcome (gmap string string) :=
  item ← deref item;
  snippet ← deref (youtube.Snippet item);
  contentDetails ← deref (youtube.ContentDetails item);
  mret ({[ "id" := youtube.Id item;
           "title" := youtube.Title snippet;
           "channel" := youtube.ChannelTitle snippet;
           "duration" := formatDuration (youtube.Duration contentDetails) ]}
          : gmap string string).

(** Search YouTube using the API key and return video details *)
Definition searchYouTube (apiKey query : string)
  : IO (outcome (list (gmap string string))) :=
  _ ← emit (NewService apiKey);
  match youtube.NewService api apiKey with
  | inl err =>
      _ ← emit (Println ["Error initializing YouTube service:"; err]);
      mret (Returned [])
  | inr service =>
      (* Search for the top 10 videos based on the query *)
      let searchCall :=
        {| youtube.search_part := ["id"; "snippet"]; youtube.Q := query;
           youtube.MaxResults := 10; youtube.Type_ := "video" |} in
      _ ← emit (SearchDo searchCall);
      match youtube.SearchListDo api service searchCall with
      | inl err =>
          _ ← emit (Println ["Error searching YouTube:"; err]);
          mret (Returned [])
      | inr searchResponse =>
          (* Collect video IDs for content details request *)
          let videoIDs :=
            foldl (fun videoIDs item =>
                     videoIDs ← videoIDs;
                     item ← deref item;
                     id ← deref (youtube.SearchResult_Id item);
                     mret (videoIDs ++ [youtube.VideoId id]))
              (Returned []) (youtube.SearchListResponse_Items searchResponse) in
          match videoIDs with
          | Panicked v => mret (Panicked v)
          | Returned videoIDs =>
              (* Fetch additional details (like duration) using the video IDs *)
              let detailsCall :=
                {| youtube.videos_part := ["snippet"; "contentDetails"];
                   youtube.Id_ := strings.Join videoIDs "," |} in
              _ ← emit (VideosDo detailsCall);
              match youtube.VideosListDo api service detailsCall with
              | inl err =>
                  _ ← emit (Println ["Error fetching video details:"; err]);
                  mret (Returned [])
              | inr detailsResponse =>
                  let videos :=
                    foldl (fun videos item =>
                             videos ← videos;
                             video ← videoOf item;
                             mret (videos ++ [video]))
                      (Returned []) (youtube.Items detailsResponse) in
                  mret videos
              end
          end
      end
  end.

(** ** The handlers (main.go)

    A handler is a [gin.HandlerFunc]: it renders, and it returns or
    panics. *)

(** Show the home page with the search form *)
Definition showHomePage (c : gin.Context) : IO (outcome unit) :=
  _ ← emit (RenderHTML StatusOK "index.html" ∅);
  mret (Returned tt).

(** Handle search and return top 10 video results *)
Definition handleSearch (apiKey : string) (c : gin.Context) : IO (outcome unit) :=
  let query := gin.PostForm c "query" in
  videos ← searchYouTube apiKey query;
  match videos with
  | Panicked v => mret (Panicked v)
  | Returned videos =>
      if (length videos =? 0)%nat then
        _ ← emit (RenderString StatusNotFound "No videos found.");
        mret (Returned tt)
      else
        _ ← emit (RenderHTML StatusOK "results.html" {[ "Videos" := gin.VVideos videos ]});
        mret (Returned tt)
  end.

(** Embed the selected video *)
Definition embedVideo (c : gin.Context) : IO (outcome unit) :=
  let videoID := gin.Param c "id" in
  let embedURL := fmt.Sprintf "https://www.youtube.com/embed/%s" [fmt.Str videoID] in
  _ ← emit (RenderHTML StatusOK "embed.html" {[ "EmbedURL" := gin.VString embedURL ]});
  mret (Returned tt).

(** ** main (main.go) *)

(** How [main] ends: the process exits, panics, or stays in the serving
    loop of [router.Run] with the routes it registered. *)
Inductive status : Type :=
| Exit (code : Z)
| Panic
| Serving (routes : list (string * string * (gin.Context -> IO (outcome unit)))).

Definition main (w : os.OS) : IO status :=
  (* Load environment variables from .env *)
  _ ← emit DotenvLoad;
  let '(env, err) := os.godotenv_Load w in
  match err with
  | Some _ =>
      _ ← emit (LogFatal "Error loading .env file");
      mret (Exit 1)
  | None =>
      (* Get API key from environment variables *)
      _ ← emit (Getenv "YOUTUBE_API_KEY");
      let apiKey := os.Getenv env "YOUTUBE_API_KEY" in
      if String.eqb apiKey "" then
        _ ← emit (LogFatal "YouTube API key not found in environment");
        mret (Exit 1)
      else
        _ ← emit (LoadHTMLGlob "templates/*");
        if negb (os.globMatches w "templates/*") then mret Panic
        else
          let routes :=
            [("GET", "/", showHomePage);
             ("POST", "/search", handleSearch apiKey);
             ("GET", "/embed/:id", embedVideo)] in
          _ ← emit (Route "GET" "/");
          _ ← emit (Route "POST" "/search");
          _ ← emit (Route "GET" "/embed/:id");
          _ ← emit (Run ":8080");
          match os.listen w ":8080" with
          | Some _ => mret (Exit 0)
          | None => mret (Serving routes)
          end
  end.

End Program.

(** * Vocabulary of the specification *)

(** ** Clock strings *)

(** A number written with exactly two decimal digits. *)
Definition twoDigits (n : Z) : string :=
  String (fmt.digitChar (n / 10)) (String (fmt.digitChar (n mod 10)) "").

(** The fields of [s] between the separators [sep]. *)
Fixpoint splitOn (sep : ascii) (s : string) : list string :=
  match s with
  | EmptyString => [""]
  | String c r =>
      if Ascii.eqb c sep then "" :: splitOn sep r
      else match splitOn sep r with
           | f :: fs => String c f :: fs
           | [] => [String c ""]
           end
  end.

Definition isNumber (s : string) : bool :=
  negb (String.eqb s "") && string_forallb isDigit s.

(** A number without padding: no leading zero, except for ["0"] itself. *)
Definition isUnpadded (s : string) : bool :=
  isNumber s && (String.eqb s "0" || negb (String.prefix "0" s)).

Definition isTwoDigits (s : string) : bool :=
  (String.length s =? 2)%nat && string_forallb isDigit s.

(** [MM:SS]: minutes unpadded, seconds with two digits. *)
Definition isClockMS (out : string) : bool :=
  match splitOn ":" out with
  | [m; s] => isUnpadded m && isTwoDigits s
  | _ => false
  end.

(** [H:MM:SS]: hours unpadded, minutes and seconds with two digits. *)
Definition isClockHMS (out : string) : bool :=
  match splitOn ":" out with
  | [h; m; s] => isUnpadded h && isTwoDigits m && isTwoDigits s
  | _ => false
  end.

(** The number a string of decimal digits stands for, read after [acc]. *)
Fixpoint decimalValue (acc : Z) (s : string) : Z :=
  match s with
  | EmptyString => acc
  | String c r => decimalValue (acc * 10 + (byte_val c - 48)) r
  end.

(** ** Durations as the API writes them *)

Inductive clockUnit : Type := UnitH | UnitM | UnitS.

Definition unitLetter (upper : bool) (u : clockUnit) : ascii :=
  match u with
  | UnitH => if upper then "H" else "h"
  | UnitM => if upper then "M" else "m"
  | UnitS => if upper then "S" else "s"
  end%char.

Definition unitDuration (u : clockUnit) : time.Duration :=
  match u with
  | UnitH => time.Hour
  | UnitM => time.Minute
  | UnitS => time.Second
  end.

(** A sequence of counts with their units, as in [1H2M3S]. *)
Fixpoint components (upper : bool) (l : list (Z * clockUnit)) : string :=
  match l with
  | [] => ""
  | (n, u) :: rest => fmt.decimal n +:+ String (unitLetter upper u) (components upper rest)
  end.

(** [PT1H2M3S], [PT2M5S], [PT45S], ... *)
Definition apiDuration (l : list (Z * clockUnit)) : string :=
  "PT" +:+ components true l.

Fixpoint totalDuration (l : list (Z * clockUnit)) : time.Duration :=
  match l with
  | [] => 0
  | (n, u) :: rest => n * unitDuration u + totalDuration rest
  end.

(** The clock reading of a duration: hours, minutes and seconds, the hours
    left out when there are none. *)
Definition clockReading (d : time.Duration) : string :=
  if d / time.Hour =? 0 then
    fmt.decimal ((d / time.Minute) mod 60) +:+ ":" +:+ twoDigits ((d / time.Second) mod 60)
  else
    fmt.decimal (d / time.Hour) +:+ ":" +:+ twoDigits ((d / time.Minute) mod 60)
    +:+ ":" +:+ twoDigits ((d / time.Second) mod 60).

(** ** Reading a clock string back *)

(** The seconds a clock string stands for: [M:SS] or [H:MM:SS]. *)
Definition clockSeconds (out : string) : option Z :=
  match splitOn ":" out with
  | [m; s] => Some (decimalValue 0 m * 60 + decimalValue 0 s)
  | [h; m; s] =>
      Some ((decimalValue 0 h * 60 + decimalValue 0 m) * 60 + decimalValue 0 s)
  | _ => None
  end.

(** The components of [h] hours, [m] minutes and [s] seconds with the zero
    ones left out, as in [PT1H] or [PT4M13S]. *)
Definition writtenComponents (h m s : Z) : list (Z * clockUnit) :=
  (if h =? 0 then [] else [(h, UnitH)])
  ++ (if m =? 0 then [] else [(m, UnitM)])
  ++ (if s =? 0 then [] else [(s, UnitS)]).

(** [h:mm:ss], or [m:ss] when there are no hours. *)
Definition clockText (h m s : Z) : string :=
  if h =? 0 then fmt.decimal m +:+ ":" +:+ twoDigits s
  else fmt.decimal h +:+ ":" +:+ twoDigits m +:+ ":" +:+ twoDigits s.

(** A byte of ASCII other than [p] and [P]. *)
Definition isPlainByte (c : ascii) : bool :=
  (byte_val c <? RuneSelf) && negb (Ascii.eqb c "p") && negb (Ascii.eqb c "P").

(** An identifier without a comma. *)
Definition isCommaFree (id : string) : bool :=
  string_forallb (fun c => negb (Ascii.eqb c ",")) id.

(** ** Removing "pt" *)

(** Every occurrence of ["pt"] deleted, from left to right. *)
Fixpoint deletePT (s : string) : string :=
  match s with
  | String a r =>
      match r with
      | String b r' =>
          if Ascii.eqb a "p" && Ascii.eqb b "t" then deletePT r'
          else String a (deletePT r)
      | EmptyString => String a ""
      end
  | EmptyString => ""
  end.

(** The reading of the parsing step as the removal of one prefix: what is
    left of the lower-cased string once a leading ["pt"] is taken off. *)
Definition prefixStripped (mapUnicodeToLower : string -> string) (duration : string)
  : string :=
  strings.TrimPrefix (strings.ToLower mapUnicodeToLower duration) "pt".

(** ** Magnitudes of float64 values *)

(** [f] is a zero, or positive and at most [2 ^ K]. *)
Definition le_pow2 (K : Z) (f : float64.t) : Prop :=
  match f with
  | S754_zero _ => True
  | S754_finite false m e => e <= K /\ Zpos m <= 2 ^ (K - e)
  | _ => False
  end.

(** The float of value [m * 2 ^ e], for a mantissa [m] of at most 53 bits
    or [2 ^ 53] itself (which takes the next exponent). *)
Definition float_of (m e : Z) : float64.t :=
  match m with
  | 0 => S754_zero false
  | Zpos p =>
      if m =? 2 ^ 53 then S754_finite false 4503599627370496 (e + 1)
      else S754_finite false p e
  | Zneg _ => S754_nan
  end.

(** [f] is a zero, or positive and at most [1 - 2 ^ (- B)]. *)
Definition below_one (B : Z) (f : float64.t) : Prop :=
  match f with
  | S754_zero _ => True
  | S754_finite false m e => e <= - B /\ Zpos m <= 2 ^ (- e) - 2 ^ (- e - B)
  | _ => False
  end.

(** ** The adapter *)

(** The identifiers of the search results, in their order: the outcome of
    reading [item.Id.VideoId] for every item. *)
Fixpoint idsOf (items : list (option youtube.SearchResult)) : outcome (list string) :=
  match items with
  | [] => Returned []
  | item :: rest =>
      item ← deref item;
      id ← deref (youtube.SearchResult_Id item);
      ids ← idsOf rest;
      Returned (youtube.VideoId id :: ids)
  end.

Definition videoIDsOf (r : youtube.SearchListResponse) : outcome (list string) :=
  idsOf (youtube.SearchListResponse_Items r).

(** The records of the items of a details response, in their order. *)
Fixpoint recordsOf (mapUnicodeToLower : string -> string)
    (items : list (option youtube.Video)) : outcome (list (gmap string string)) :=
  match items with
  | [] => Returned []
  | item :: rest =>
      video ← videoOf mapUnicodeToLower item;
      videos ← recordsOf mapUnicodeToLower rest;
      Returned (video :: videos)
  end.

(** The search result that holds the identifier [id]. *)
Definition searchResultOf (id : string) : option youtube.SearchResult :=
  Some {| youtube.SearchResult_Id := Some {| youtube.VideoId := id |} |}.

(** A search result that is there, with its [Id]. *)
Definition hasId (item : option youtube.SearchResult) : bool :=
  match item with
  | Some r => match youtube.SearchResult_Id r with Some _ => true | None => false end
  | None => false
  end.

(** An item of the details response that is there, with the two parts the
    program reads. *)
Definition hasParts (item : option youtube.Video) : bool :=
  match item with
  | Some v =>
      match youtube.Snippet v, youtube.ContentDetails v with
      | Some _, Some _ => true
      | _, _ => false
      end
  | None => false
  end.

(** The calls [searchYouTube] builds. *)
Definition searchCallOf (query : string) : youtube.SearchListCall :=
  {| youtube.search_part := ["id"; "snippet"]; youtube.Q := query;
     youtube.MaxResults := 10; youtube.Type_ := "video" |}.

Definition detailsCallOf (videoIDs : list string) : youtube.VideosListCall :=
  {| youtube.videos_part := ["snippet"; "contentDetails"];
     youtube.Id_ := strings.Join videoIDs "," |}.

(** The two stages went through: the client was made, the search answered
    [sresp] and the details call for its identifiers answered [dresp]. *)
Definition adapterSucceeds (api : youtube.API) (apiKey query : string)
    (sresp : youtube.SearchListResponse) (dresp : youtube.VideoListResponse) : Prop :=
  exists service videoIDs,
    youtube.NewService api apiKey = inr service /\
    youtube.SearchListDo api service (searchCallOf query) = inr sresp /\
    videoIDsOf sresp = Returned videoIDs /\
    youtube.VideosListDo api service (detailsCallOf videoIDs) = inr dresp.

(** The search stage failed: the client was made and the search call
    returned an error. *)
Definition searchStageFails (api : youtube.API) (apiKey query : string) : Prop :=
  exists service err,
    youtube.NewService api apiKey = inr service /\
    youtube.SearchListDo api service (searchCallOf query) = inl err.

(** Some step failed: making the client, the search or the details call. *)
Definition adapterFails (api : youtube.API) (apiKey query : string) : Prop :=
  (exists err, youtube.NewService api apiKey = inl err) \/
  searchStageFails api apiKey query \/
  (exists service sresp videoIDs err,
      youtube.NewService api apiKey = inr service /\
      youtube.SearchListDo api service (searchCallOf query) = inr sresp /\
      videoIDsOf sresp = Returned videoIDs /\
      youtube.VideosListDo api service (detailsCallOf videoIDs) = inl err).

Definition isVideosDo (e : event) : bool :=
  match e with VideosDo _ => true | _ => false end.

Definition isRenderHTML (e : event) : bool :=
  match e with RenderHTML _ _ _ => true | _ => false end.

Definition isRun (e : event) : bool :=
  match e with Run _ => true | _ => false end.

Definition isGetenv (e : event) : bool :=
  match e with Getenv _ => true | _ => false end.

(** ** Kinds of events *)

Definition isApiCall (e : event) : bool :=
  match e with NewService _ | SearchDo _ | VideosDo _ => true | _ => false end.

Definition isRender (e : event) : bool :=
  match e with RenderString _ _ | RenderHTML _ _ _ => true | _ => false end.

Definition isPrintln (e : event) : bool :=
  match e with Println _ => true | _ => false end.

Definition isLogFatal (e : event) : bool :=
  match e with LogFatal _ => true | _ => false end.

Definition isRoute (e : event) : bool :=
  match e with Route _ _ => true | _ => false end.

(** The event [Hin] is in a list of events that is written out: the cases
    that remain are the events of its kind. *)
Ltac in_events Hin :=
  cbn [In] in Hin;
  repeat (destruct Hin as [Hin|Hin]; [try discriminate Hin|]);
  try contradiction;
  try (injection Hin as <-).

(** ** Startup *)

Definition isStorage (e : event) : bool :=
  match e with SqlOpen _ _ | SqlExec _ => true | _ => false end.

(** The credential is absent from the environment [main] reads, that is the
    environment of the process once [godotenv.Load] has run: [os.Getenv]
    gives the empty string. *)
Definition credentialAbsent (w : os.OS) : Prop :=
  os.Getenv (fst (os.godotenv_Load w)) "YOUTUBE_API_KEY" = "".

(** [InitDB] returns an error. *)
Definition storageInitFails (sql : database.SQL) (dbPath : string) : Prop :=
  snd (result (database.InitDB sql dbPath)) <> None.

(** * Sample data

    Concrete strings, responses and environments on which the statements
    below are instantiated. *)

(** An instance of the Unicode parameter of [strings.ToLower]: strings with
    a byte outside ASCII are left as they are.  The samples are ASCII
    strings, for which [ToLower] does not consult it. *)
Definition asciiLower : string -> string := fun s => s.

Definition sampleVideo (id title channel duration : string) : youtube.Video :=
  {| youtube.Id := id;
     youtube.Snippet :=
       Some {| youtube.Title := title; youtube.ChannelTitle := channel |};
     youtube.ContentDetails := Some {| youtube.Duration := duration |} |}.

Definition sampleSearch : youtube.SearchListResponse :=
  {| youtube.SearchListResponse_Items :=
       [searchResultOf "a1"; searchResultOf "b2"] |}.

(** The details come back in another order than the search results. *)
Definition sampleDetails : youtube.VideoListResponse :=
  {| youtube.Items :=
       [ Some (sampleVideo "b2" "Second" "Channel B" "PT1H2M3S");
         Some (sampleVideo "a1" "First" "Channel A" "PT2M5S") ] |}.

(** A remote side that answers both calls. *)
Definition sampleAPI : youtube.API :=
  {| youtube.NewService := fun key => inr {| youtube.apiKey := key |};
     youtube.SearchListDo := fun _ _ => inr sampleSearch;
     youtube.VideosListDo := fun _ _ => inr sampleDetails |}.

(** A remote side whose search fails; its details call would answer. *)
Definition searchDownAPI : youtube.API :=
  {| youtube.NewService := fun key => inr {| youtube.apiKey := key |};
     youtube.SearchListDo := fun _ _ => inl "quota exceeded";
     youtube.VideosListDo := fun _ _ => inr sampleDetails |}.

(** A search request with the form field [query], and an embed request. *)
Definition sampleSearchRequest : gin.Context :=
  {| gin.PostFormValues := {[ "query" := ["cats"] ]}; gin.Params := [] |}.

Definition sampleEmbedRequest : gin.Context :=
  {| gin.PostFormValues := ∅; gin.Params := [("id", "abc123")] |}.

(** A process environment in which everything [main] needs is there: the
    file [.env] with the credential, the templates, a free port. *)
Definition readyOS : os.OS :=
  {| os.dotenvFile := inr {[ "YOUTUBE_API_KEY" := "secret" ]};
     os.environ := ∅;
     os.globMatches := fun _ => true;
     os.listen := fun _ => None |}.

(** The credential is in the environment of the process, and there is no
    file [.env]. *)
Definition noDotenvOS : os.OS :=
  {| os.dotenvFile := inl "open .env: no such file or directory";
     os.environ := {[ "YOUTUBE_API_KEY" := "secret" ]};
     os.globMatches := fun _ => true;
     os.listen := fun _ => None |}.

(** A file [.env] without the credential, and none in the environment. *)
Definition noCredentialOS : os.OS :=
  {| os.dotenvFile := inr {[ "PORT" := "8080" ]};
     os.environ := ∅;
     os.globMatches := fun _ => true;
     os.listen := fun _ => None |}.

(** A storage layer that cannot open any database. *)
Definition brokenSQL : database.SQL :=
  {| database.Open := fun _ _ => inl "unable to open database file";
     database.ExecContext := fun _ _ => Some "unable to open database file" |}.

(** A remote side for which no client can be made. *)
Definition initDownAPI : youtube.API :=
  {| youtube.NewService := fun _ => inl "credentials: could not find default credentials";
     youtube.SearchListDo := fun _ _ => inr sampleSearch;
     youtube.VideosListDo := fun _ _ => inr sampleDetails |}.

(** A remote side whose search answers and whose details call fails. *)
Definition detailsDownAPI : youtube.API :=
  {| youtube.NewService := fun key => inr {| youtube.apiKey := key |};
     youtube.SearchListDo := fun _ _ => inr sampleSearch;
     youtube.VideosListDo := fun _ _ => inl "backend error" |}.

(** A remote side whose search finds nothing. *)
Definition emptySearchAPI : youtube.API :=
  {| youtube.NewService := fun key => inr {| youtube.apiKey := key |};
     youtube.SearchListDo :=
       fun _ _ => inr {| youtube.SearchListResponse_Items := [] |};
     youtube.VideosListDo := fun _ _ => inr {| youtube.Items := [] |} |}.

(** A remote side that answers the details call with twelve items. *)
Definition twelveDetails : youtube.VideoListResponse :=
  {| youtube.Items :=
       map (fun id => Some (sampleVideo id "Title" "Channel" "PT4M13S"))
         ["v01"; "v02"; "v03"; "v04"; "v05"; "v06";
          "v07"; "v08"; "v09"; "v10"; "v11"; "v12"] |}.

Definition twelveAPI : youtube.API :=
  {| youtube.NewService := fun key => inr {| youtube.apiKey := key |};
     youtube.SearchListDo := fun _ _ => inr sampleSearch;
     youtube.VideosListDo := fun _ _ => inr twelveDetails |}.

(** A remote side whose details answer holds an item without the part
    [contentDetails]. *)
Definition partlessDetails : youtube.VideoListResponse :=
  {| youtube.Items :=
       [ Some (sampleVideo "b2" "Second" "Channel B" "PT1H2M3S");
         Some {| youtube.Id := "a1";
                 youtube.Snippet :=
                   Some {| youtube.Title := "First"; youtube.ChannelTitle := "Channel A" |};
                 youtube.ContentDetails := None |} ] |}.

Definition partlessAPI : youtube.API :=
  {| youtube.NewService := fun key => inr {| youtube.apiKey := key |};
     youtube.SearchListDo := fun _ _ => inr sampleSearch;
     youtube.VideosListDo := fun _ _ => inr partlessDetails |}.

(** A remote side whose search answer holds a result without its [id]. *)
Definition idlessAPI : youtube.API :=
  {| youtube.NewService := fun key => inr {| youtube.apiKey := key |};
     youtube.SearchListDo :=
       fun _ _ =>
         inr {| youtube.SearchListResponse_Items :=
                  [searchResultOf "a1"; Some {| youtube.SearchResult_Id := None |}] |};
     youtube.VideosListDo := fun _ _ => inr sampleDetails |}.

(** A search request without the form field [query]. *)
Definition noQueryRequest : gin.Context :=
  {| gin.PostFormValues := ∅; gin.Params := [] |}.

(** The credential is both in the environment of the process and in the
    file [.env], with different values. *)
Definition bothKeysOS : os.OS :=
  {| os.dotenvFile := inr {[ "YOUTUBE_API_KEY" := "from-file" ]};
     os.environ := {[ "YOUTUBE_API_KEY" := "from-env" ]};
     os.globMatches := fun _ => true;
     os.listen := fun _ => None |}.

(** The variable is set in the environment of the process, to the empty
    string; the file [.env] has a value for it. *)
Definition emptyKeyOS : os.OS :=
  {| os.dotenvFile := inr {[ "YOUTUBE_API_KEY" := "from-file" ]};
     os.environ := {[ "YOUTUBE_API_KEY" := "" ]};
     os.globMatches := fun _ => true;
     os.listen := fun _ => None |}.

(** No file matches [templates/*]. *)
Definition noTemplatesOS : os.OS :=
  {| os.dotenvFile := inr {[ "YOUTUBE_API_KEY" := "secret" ]};
     os.environ := ∅;
     os.globMatches := fun _ => false;
     os.listen := fun _ => None |}.


(** A storage layer that works, and one that opens the database and fails
    on every statement. *)
Definition workingSQL : database.SQL :=
  {| database.Open :=
       fun driver path =>
         inr {| database.driverName := driver; database.dataSourceName := path |};
     database.ExecContext := fun _ _ => None |}.

Definition readOnlySQL : database.SQL :=
  {| database.Open :=
       fun driver path =>
         inr {| database.driverName := driver; database.dataSourceName := path |};
     database.ExecContext := fun _ _ => Some "attempt to write a readonly database" |}.

(** * Facts about float64 *)

(** ** Magnitudes

    Rounding never takes a non-negative value above the next power of two.
    This is what keeps the conversions to [int] of [formatDuration] inside
    the range of [int]. *)

Lemma digits2_pos_size p : digits2_pos p = Pos.size p.
Proof. induction p; simpl; congruence. Qed.

Lemma Zdigits2_bound m : 0 <= m -> m < 2 ^ Zdigits2 m.
Proof.
  destruct m as [|p|p]; simpl; [lia| |lia]. intros _.
  rewrite digits2_pos_size. 
  pose proof (Pos.size_gt p) as H.
  apply Pos2Z.pos_lt_pos in H. rewrite Pos2Z.inj_pow in H. exact H.
Qed.

Lemma Zdigits2_le m n : 0 <= m < 2 ^ n -> 0 <= n -> Zdigits2 m <= n.
Proof.
  intros [Hm Hlt] Hn. destruct m as [|p|p]; simpl; [lia| |lia].
  rewrite digits2_pos_size.
  pose proof (Pos.size_le p) as Hs.
  destruct (Z_lt_le_dec n (Zpos (Pos.size p))) as [Hc|]; [|lia].
  exfalso.
  assert (2 ^ Zpos (Pos.size p) <= Zpos p~0).
  { apply Pos2Z.pos_le_pos in Hs. rewrite Pos2Z.inj_pow in Hs. exact Hs. }
  assert (2 ^ (n + 1) <= 2 ^ Zpos (Pos.size p)) by (apply Z.pow_le_mono_r; lia).
  rewrite Z.pow_add_r in * by lia. lia.
Qed.

Lemma shr_1_m mrs : 0 <= shr_m mrs -> shr_m (shr_1 mrs) = shr_m mrs / 2.
Proof.
  destruct mrs as [m r s]. cbn [shr_m shr_1]. intros Hm.
  destruct m as [|[p|p|]|p]; cbn [shr_m]; try lia; try reflexivity.
  - apply Z.div_unique with 1; lia.
  - apply Z.div_unique with 0; lia.
Qed.

Lemma iter_shr_1_m p : forall mrs, 0 <= shr_m mrs ->
  0 <= shr_m (SpecFloat.iter_pos shr_1 p mrs) /\
  shr_m (SpecFloat.iter_pos shr_1 p mrs) = shr_m mrs / 2 ^ Zpos p.
Proof.
  assert (Hhalf : forall mrs, 0 <= shr_m mrs -> 0 <= shr_m (shr_1 mrs)).
  { intros mrs H. rewrite shr_1_m by exact H. apply Z.div_pos; lia. }
  induction p as [p IH|p IH|]; intros mrs Hm; cbn [SpecFloat.iter_pos].
  - destruct (IH _ (Hhalf _ Hm)) as [Hn1 He1].
    destruct (IH _ Hn1) as [Hn2 He2].
    split; [exact Hn2|].
    rewrite He2, He1, shr_1_m by exact Hm.
    replace (Zpos p~1) with (1 + Zpos p + Zpos p) by lia.
    rewrite !Z.pow_add_r by lia.
    pose proof (Z.pow_pos_nonneg 2 (Zpos p)) as HP.
    rewrite !Z.div_div by lia. f_equal. change (2 ^ 1) with 2. lia.
  - destruct (IH _ Hm) as [Hn1 He1].
    destruct (IH _ Hn1) as [Hn2 He2].
    split; [exact Hn2|].
    rewrite He2, He1.
    replace (Zpos p~0) with (Zpos p + Zpos p) by lia.
    rewrite !Z.pow_add_r by lia.
    pose proof (Z.pow_pos_nonneg 2 (Zpos p)) as HP.
    rewrite !Z.div_div by lia. reflexivity.
  - split; [exact (Hhalf _ Hm)|]. rewrite shr_1_m by exact Hm. reflexivity.
Qed.

Lemma shr_spec mrs e n : 0 <= shr_m mrs ->
  shr_m (fst (shr mrs e n)) = shr_m mrs / 2 ^ Z.max 0 n /\
  snd (shr mrs e n) = e + Z.max 0 n.
Proof.
  intros Hm. destruct n as [|p|p]; cbn [shr fst snd].
  - rewrite Z.max_l by lia. rewrite Z.div_1_r. lia.
  - rewrite Z.max_r by lia. split; [apply iter_shr_1_m; exact Hm|reflexivity].
  - rewrite Z.max_l by lia. rewrite Z.div_1_r. lia.
Qed.

Lemma shr_fexp_spec m e l : 0 <= m ->
  let sh := Z.max 0 (fexp 53 1024 (Zdigits2 m + e) - e) in
  shr_m (fst (shr_fexp 53 1024 m e l)) = m / 2 ^ sh /\
  snd (shr_fexp 53 1024 m e l) = e + sh.
Proof.
  intros Hm sh. unfold shr_fexp.
  assert (Hr : shr_m (shr_record_of_loc m l) = m) by (destruct l as [|[]]; reflexivity).
  pose proof (shr_spec (shr_record_of_loc m l) e (fexp 53 1024 (Zdigits2 m + e) - e)) as H.
  rewrite Hr in H. apply H. exact Hm.
Qed.

Lemma round_nearest_even_bounds m l : m <= round_nearest_even m l <= m + 1.
Proof. destruct l as [|[]]; cbn [round_nearest_even]; try destruct (Z.even m); lia. Qed.

Lemma fexp_eq e : fexp 53 1024 e = Z.max (e - 53) (-1074).
Proof. reflexivity. Qed.

Lemma binary_round_aux_upper mx ex lx n :
  0 <= mx < 2 ^ n -> 0 <= n -> -1074 <= n + ex <= 971 ->
  le_pow2 (n + ex) (binary_round_aux 53 1024 false mx ex lx).
Proof.
  intros [Hm0 Hmn] Hn HK. unfold binary_round_aux.
  destruct (shr_fexp_spec mx ex lx Hm0) as [Hm1 He1].
  destruct (shr_fexp 53 1024 mx ex lx) as [mrs1 e1]. cbn [fst snd] in Hm1, He1.
  set (s1 := Z.max 0 (fexp 53 1024 (Zdigits2 mx + ex) - ex)) in *.
  pose proof (Zdigits2_le mx n (conj Hm0 Hmn) Hn) as Hd.
  assert (Hs1 : 0 <= s1 <= n) by (unfold s1; rewrite fexp_eq; lia).
  assert (Hp1 : 0 < 2 ^ s1) by (apply Z.pow_pos_nonneg; lia).
  assert (Hm1b : 0 <= shr_m mrs1 < 2 ^ (n - s1)).
  { rewrite Hm1. split; [apply Z.div_pos; lia|].
    apply Z.div_lt_upper_bound; [lia|]. rewrite <- Z.pow_add_r by lia.
    replace (s1 + (n - s1)) with n by lia. exact Hmn. }
  pose proof (round_nearest_even_bounds (shr_m mrs1) (loc_of_shr_record mrs1)) as Hr.
  set (m2 := round_nearest_even (shr_m mrs1) (loc_of_shr_record mrs1)) in *.
  assert (Hm2 : 0 <= m2 <= 2 ^ (n - s1)) by lia.
  destruct (shr_fexp_spec m2 e1 loc_Exact (proj1 Hm2)) as [Hm3 He3].
  destruct (shr_fexp 53 1024 m2 e1 loc_Exact) as [mrs3 e3]. cbn [fst snd] in Hm3, He3.
  set (s2 := Z.max 0 (fexp 53 1024 (Zdigits2 m2 + e1) - e1)) in *.
  assert (Hs2 : 0 <= s2) by (unfold s2; lia).
  assert (Hp2 : 0 < 2 ^ s2) by (apply Z.pow_pos_nonneg; lia).
  destruct (shr_m mrs3) as [|m3|m3] eqn:Em3.
  - exact I.
  - assert (Hge : 2 ^ s2 <= m2).
    { destruct (Z_lt_le_dec m2 (2 ^ s2)) as [Hlt|]; [|assumption].
      rewrite Z.div_small in Hm3 by lia. discriminate. }
    assert (Hs12 : s2 <= n - s1).
    { apply (Z.pow_le_mono_r_iff 2); lia. }
    assert (He3K : e3 <= n + ex) by lia.
    replace (e3 <=? 1024 - 53) with true by (symmetry; apply Z.leb_le; lia).
    cbn [le_pow2]. split; [exact He3K|].
    rewrite Hm3.
    apply Z.div_le_upper_bound; [lia|].
    rewrite <- Z.pow_add_r by lia.
    replace (s2 + (n + ex - e3)) with (n - s1) by lia. lia.
  - exfalso. pose proof (Z.div_pos m2 (2 ^ s2)). lia.
Qed.

Lemma iter_xO_pow m d : Zpos (Pos.iter xO m d) = Zpos m * 2 ^ Zpos d.
Proof.
  induction d as [|d IH] using Pos.peano_ind.
  - cbn. lia.
  - rewrite Pos.iter_succ, Pos2Z.inj_xO, IH, Pos2Z.inj_succ, Z.pow_succ_r by lia. lia.
Qed.

Lemma shl_align_spec m e e' :
  let '(mz, ez) := shl_align m e e' in
  ez <= e /\ Zpos mz = Zpos m * 2 ^ (e - ez).
Proof.
  unfold shl_align. destruct (e' - e) as [|d|d] eqn:E.
  - rewrite Z.sub_diag. cbn. lia.
  - rewrite Z.sub_diag. cbn. lia.
  - split; [lia|]. rewrite iter_xO_pow. f_equal. f_equal. lia.
Qed.

Lemma binary_round_upper m e n :
  Zpos m < 2 ^ n -> 0 <= n -> -1074 <= n + e <= 971 ->
  le_pow2 (n + e) (binary_round 53 1024 false m e).
Proof.
  intros Hm Hn HK. unfold binary_round.
  pose proof (shl_align_spec m e (fexp 53 1024 (Zpos (digits2_pos m) + e))) as H.
  destruct (shl_align m e (fexp 53 1024 (Zpos (digits2_pos m) + e))) as [mz ez].
  destruct H as [Hez Hmz].
  replace (n + e) with ((n + e - ez) + ez) by lia.
  apply binary_round_aux_upper; [|lia|lia].
  split; [lia|]. rewrite Hmz.
  replace (n + e - ez) with (n + (e - ez)) by lia.
  rewrite Z.pow_add_r by lia.
  apply Z.mul_lt_mono_pos_r; [apply Z.pow_pos_nonneg; lia|exact Hm].
Qed.

Lemma le_pow2_mono K K' f : K <= K' -> le_pow2 K f -> le_pow2 K' f.
Proof.
  intros HK. destruct f as [s|s| |[] m e]; cbn; try tauto.
  intros [He Hm]. split; [lia|].
  etransitivity; [exact Hm|]. apply Z.pow_le_mono_r; lia.
Qed.

Lemma of_Z_upper z n :
  0 <= z < 2 ^ n -> 0 <= n <= 971 ->
  le_pow2 n (binary_normalize 53 1024 z 0 false).
Proof.
  intros [Hz0 Hzn] Hn. destruct z as [|p|p]; cbn [binary_normalize]; [exact I| |lia].
  replace n with (n + 0) at 1 by lia. apply binary_round_upper; lia.
Qed.

Lemma SFadd_upper Kx Ky K x y :
  le_pow2 Kx x -> le_pow2 Ky y -> Kx + 2 <= K -> Ky + 2 <= K -> -1074 <= K <= 971 ->
  le_pow2 K (SFadd 53 1024 x y).
Proof.
  intros Hx Hy HKx HKy HK.
  destruct x as [sx|sx| |[] mx ex]; cbn [le_pow2] in Hx; try contradiction;
  destruct y as [sy|sy| |[] my ey]; cbn [le_pow2] in Hy; try contradiction.
  - destruct sx, sy; exact I.
  - cbn [SFadd]. apply (le_pow2_mono Ky); [lia|exact Hy].
  - cbn [SFadd]. apply (le_pow2_mono Kx); [lia|exact Hx].
  - destruct Hx as [Hex Hmx], Hy as [Hey Hmy].
    cbn [SFadd cond_Zopp].
    set (ez := Z.min ex ey).
    pose proof (shl_align_spec mx ex ez) as Hax.
    pose proof (shl_align_spec my ey ez) as Hay.
    destruct (shl_align mx ex ez) as [mx' ex'] eqn:Eax.
    destruct (shl_align my ey ez) as [my' ey'] eqn:Eay.
    assert (ex' = ez /\ ey' = ez) as [-> ->].
    { unfold shl_align in Eax, Eay. unfold ez in *.
      destruct (Z.min ex ey - ex) eqn:E1 in Eax; destruct (Z.min ex ey - ey) eqn:E2 in Eay;
        inversion Eax; inversion Eay; subst; lia. }
    cbn [fst]. destruct Hax as [_ Hax], Hay as [_ Hay].
    change (Zpos mx' + Zpos my') with (Zpos (mx' + my')).
    cbn [binary_normalize].
    replace K with ((K - ez) + ez) by lia.
    assert (Hez : ez <= ex /\ ez <= ey) by (unfold ez; lia).
    apply binary_round_upper; [|lia|lia].
    rewrite Pos2Z.inj_add, Hax, Hay.
    assert (Zpos mx * 2 ^ (ex - ez) <= 2 ^ (K - 2 - ez)).
    { replace (K - 2 - ez) with ((K - 2 - ex) + (ex - ez)) by lia.
      rewrite Z.pow_add_r by lia.
      apply Z.mul_le_mono_nonneg_r; [apply Z.pow_nonneg; lia|].
      etransitivity; [exact Hmx|]. apply Z.pow_le_mono_r; lia. }
    assert (Zpos my * 2 ^ (ey - ez) <= 2 ^ (K - 2 - ez)).
    { replace (K - 2 - ez) with ((K - 2 - ey) + (ey - ez)) by lia.
      rewrite Z.pow_add_r by lia.
      apply Z.mul_le_mono_nonneg_r; [apply Z.pow_nonneg; lia|].
      etransitivity; [exact Hmy|]. apply Z.pow_le_mono_r; lia. }
    replace (K - ez) with (2 + (K - 2 - ez)) by lia.
    rewrite Z.pow_add_r by lia.
    assert (0 < 2 ^ (K - 2 - ez)) by (apply Z.pow_pos_nonneg; lia).
    change (2 ^ 2) with 4. lia.
Qed.

Lemma Zdigits2_lower p : 2 ^ (Zdigits2 (Zpos p) - 1) <= Zpos p.
Proof.
  cbn [Zdigits2]. rewrite digits2_pos_size.
  pose proof (Pos.size_le p) as Hs.
  apply Pos2Z.pos_le_pos in Hs. rewrite Pos2Z.inj_pow in Hs.
  replace (Zpos (Pos.size p)) with (1 + (Zpos (Pos.size p) - 1)) in Hs by lia.
  rewrite Z.pow_add_r in Hs by lia. change (2 ^ 1) with 2 in Hs. lia.
Qed.

Lemma SFdiv_upper Kx Ly x my ey :
  le_pow2 Kx x -> ey <= Ly -> 2 ^ (Ly - ey) <= Zpos my ->
  -1074 <= Kx - Ly + 1 <= 971 ->
  le_pow2 (Kx - Ly + 1) (SFdiv 53 1024 x (S754_finite false my ey)).
Proof.
  intros Hx Hey Hmy HK.
  destruct x as [sx|sx| |[] mx ex]; cbn [le_pow2] in Hx; try contradiction.
  - exact I.
  - destruct Hx as [Hex Hmx]. cbn [SFdiv xorb]. unfold SFdiv_core_binary.
    set (d1 := Zdigits2 (Zpos mx)). set (d2 := Zdigits2 (Zpos my)).
    set (e' := Z.min (fexp 53 1024 (d1 + ex - (d2 + ey))) (ex - ey)).
    set (s := ex - ey - e').
    assert (Hs : 0 <= s) by (unfold s, e'; lia).
    set (m' := match s with Z.pos _ => Z.shiftl (Zpos mx) s | 0 => Zpos mx | Z.neg _ => 0 end).
    assert (Hm' : m' = Zpos mx * 2 ^ s).
    { unfold m'. destruct s as [|p|p]; [cbn; lia| |lia].
      apply Z.shiftl_mul_pow2. lia. }
    assert (Hq : fst (Z.div_eucl m' (Zpos my)) = m' / Zpos my) by reflexivity.
    destruct (Z.div_eucl m' (Zpos my)) as [q r]. cbn [fst] in Hq.
    pose proof (Zdigits2_lower mx) as Hd1. fold d1 in Hd1.
    pose proof (Zdigits2_bound (Zpos my) ltac:(lia)) as Hd2. fold d2 in Hd2.
    assert (Hd1K : d1 - 1 + ex <= Kx).
    { assert (2 ^ (d1 - 1) <= 2 ^ (Kx - ex)) by lia.
      assert (d1 - 1 <= Kx - ex); [|lia].
      apply (Z.pow_le_mono_r_iff 2); lia. }
    assert (Hd2L : Ly - ey < d2).
    { apply (Z.pow_lt_mono_r_iff 2); [lia| |lia].
      unfold d2. cbn. lia. }
    assert (He'K : e' <= Kx - Ly + 1).
    { unfold e'. rewrite fexp_eq. lia. }
    replace (Kx - Ly + 1) with ((Kx - Ly + 1 - e') + e') by lia.
    assert (Hpmy : 0 < 2 ^ (Ly - ey)) by (apply Z.pow_pos_nonneg; lia).
    apply binary_round_aux_upper; [|lia|lia].
    rewrite Hq. split.
    + apply Z.div_pos; [rewrite Hm'|lia].
      apply Z.mul_nonneg_nonneg; [lia|apply Z.pow_nonneg; lia].
    + apply Z.div_lt_upper_bound; [lia|].
      rewrite Hm'.
      apply Z.le_lt_trans with (2 ^ (Kx - ex) * 2 ^ s).
      { apply Z.mul_le_mono_nonneg_r; [apply Z.pow_nonneg; lia|exact Hmx]. }
      apply Z.lt_le_trans with (2 ^ (Ly - ey) * 2 ^ (Kx - Ly + 1 - e')).
      { rewrite <- !Z.pow_add_r by lia.
        apply Z.pow_lt_mono_r; [lia| |unfold s; lia]. unfold s. lia. }
      apply Z.mul_le_mono_nonneg_r; [apply Z.pow_nonneg; lia|exact Hmy].
Qed.

Lemma le_pow2_trunc K f : 0 <= K -> le_pow2 K f ->
  exists z, float64.trunc f = Some z /\ 0 <= z <= 2 ^ K.
Proof.
  intros HK H. unfold float64.trunc.
  destruct f as [s|s| |[] m e]; cbn [le_pow2] in H; try contradiction.
  - exists 0. split; [reflexivity|]. pose proof (Z.pow_pos_nonneg 2 K). lia.
  - destruct H as [He Hm]. eexists. split; [reflexivity|]. cbn [cond_Zopp].
    split; [apply Z.shiftl_nonneg; lia|].
    destruct (Z_le_gt_dec 0 e).
    + rewrite Z.shiftl_mul_pow2 by lia.
      replace K with ((K - e) + e) at 1 by lia. rewrite Z.pow_add_r by lia.
      apply Z.mul_le_mono_nonneg_r; [apply Z.pow_nonneg; lia|exact Hm].
    + rewrite Z.shiftl_div_pow2 by lia.
      apply Z.div_le_upper_bound; [apply Z.pow_pos_nonneg; lia|].
      rewrite <- Z.pow_add_r by lia. replace (- e + K) with (K - e) by lia. exact Hm.
Qed.

Lemma to_int64_le_pow2 K f : 0 <= K < 63 -> le_pow2 K f ->
  0 <= float64.to_int64 f <= 2 ^ K.
Proof.
  intros HK H. destruct (le_pow2_trunc K f ltac:(lia) H) as (z & Hz & Hb).
  unfold float64.to_int64. rewrite Hz.
  assert (2 ^ K < two63).
  { change two63 with (2 ^ 63). apply Z.pow_lt_mono_r; lia. }
  replace ((- two63 <=? z) && (z <? two63)) with true; [lia|].
  symmetry. apply andb_true_iff. split; [apply Z.leb_le|apply Z.ltb_lt]; lia.
Qed.

(** The value [float64(q) + float64(r)/float64(U)] that [Hours], [Minutes]
    and [Seconds] compute, for a non-negative duration. *)
Lemma unit_count_bounded U my ey Ly q r :
  float64.of_Z U = S754_finite false my ey ->
  ey <= Ly -> 2 ^ (Ly - ey) <= Zpos my -> 0 <= Ly <= 1000 ->
  0 <= q < 2 ^ 34 -> 0 <= r < 2 ^ 42 ->
  le_pow2 45 (float64.add (float64.of_Z q) (float64.div (float64.of_Z r) (float64.of_Z U))).
Proof.
  intros HU Hey Hmy HLy Hq Hr. rewrite HU.
  apply (SFadd_upper 34 (42 - Ly + 1)); try lia.
  - apply of_Z_upper; lia.
  - apply SFdiv_upper; try assumption; try lia. apply of_Z_upper; lia.
Qed.

(** ** Faithful rounding

    Rounding cuts the mantissa to 53 bits and returns the number below or
    the number above at that exponent.  This is enough to know the integer
    part of what [Hours], [Minutes] and [Seconds] compute. *)

Lemma shr_fexp_noshift m e l :
  fexp 53 1024 (Zdigits2 m + e) - e <= 0 ->
  shr_fexp 53 1024 m e l = (shr_record_of_loc m l, e).
Proof.
  intros H. unfold shr_fexp.
  destruct (fexp 53 1024 (Zdigits2 m + e) - e) as [|p|p]; [reflexivity|lia|reflexivity].
Qed.

(** Rounding is faithful: the mantissa is cut to 53 bits and the result is
    the number below or the number above at that exponent. *)
Lemma binary_round_aux_faithful mx ex lx :
  0 <= mx ->
  ex + Z.max 0 (fexp 53 1024 (Zdigits2 mx + ex) - ex) < 971 ->
  exists m2,
    mx / 2 ^ Z.max 0 (fexp 53 1024 (Zdigits2 mx + ex) - ex) <= m2
    <= mx / 2 ^ Z.max 0 (fexp 53 1024 (Zdigits2 mx + ex) - ex) + 1 /\
    (lx = loc_Exact -> fexp 53 1024 (Zdigits2 mx + ex) - ex <= 0 -> m2 = mx) /\
    m2 <= 2 ^ 53 /\
    binary_round_aux 53 1024 false mx ex lx
    = float_of m2 (ex + Z.max 0 (fexp 53 1024 (Zdigits2 mx + ex) - ex)).
Proof.
  intros Hm0 Hov. unfold binary_round_aux.
  destruct (shr_fexp_spec mx ex lx Hm0) as [Hm1 He1].
  pose proof (shr_fexp_noshift mx ex lx) as Hns.
  destruct (shr_fexp 53 1024 mx ex lx) as [mrs1 e1]. cbn [fst snd] in Hm1, He1.
  set (s1 := Z.max 0 (fexp 53 1024 (Zdigits2 mx + ex) - ex)) in *.
  pose proof (Zdigits2_bound mx Hm0) as Hdx.
  assert (Hdx0 : 0 <= Zdigits2 mx) by (destruct mx; cbn; lia).
  assert (Hs1 : 0 <= s1) by (unfold s1; lia).
  assert (Hp1 : 0 < 2 ^ s1) by (apply Z.pow_pos_nonneg; lia).
  assert (He1min : -1074 <= e1 /\ Zdigits2 mx + ex - 53 <= e1).
  { rewrite He1. unfold s1. rewrite fexp_eq. lia. }
  assert (Hm1b : 0 <= shr_m mrs1 < 2 ^ 53).
  { rewrite Hm1. split; [apply Z.div_pos; lia|].
    apply Z.div_lt_upper_bound; [lia|]. rewrite <- Z.pow_add_r by lia.
    eapply Z.lt_le_trans; [exact Hdx|]. apply Z.pow_le_mono_r; lia. }
  pose proof (round_nearest_even_bounds (shr_m mrs1) (loc_of_shr_record mrs1)) as Hr.
  set (m2 := round_nearest_even (shr_m mrs1) (loc_of_shr_record mrs1)) in *.
  exists m2. rewrite <- Hm1, <- He1. split; [exact Hr|]. split.
  { intros -> Hle. specialize (Hns Hle). injection Hns as -> _. reflexivity. }
  assert (Hm2 : 0 <= m2 <= 2 ^ 53) by lia.
  split; [lia|].
  destruct (shr_fexp_spec m2 e1 loc_Exact (proj1 Hm2)) as [Hm3 He3].
  destruct (shr_fexp 53 1024 m2 e1 loc_Exact) as [mrs3 e3]. cbn [fst snd] in Hm3, He3.
  rewrite fexp_eq in Hm3, He3.
  destruct (Z.eq_dec m2 (2 ^ 53)) as [E53|N53].
  - rewrite E53 in Hm3, He3. change (Zdigits2 (2 ^ 53)) with 54 in Hm3, He3.
    replace (Z.max 0 (Z.max (54 + e1 - 53) (-1074) - e1)) with 1 in Hm3, He3 by lia.
    change (2 ^ 53 / 2 ^ 1) with (Zpos 4503599627370496) in Hm3.
    rewrite Hm3. replace (e3 <=? 1024 - 53) with true by (symmetry; apply Z.leb_le; lia).
    rewrite E53, He3. reflexivity.
  - assert (Hd2 : Zdigits2 m2 <= 53) by (apply Zdigits2_le; lia).
    assert (Hd20 : 0 <= Zdigits2 m2) by (destruct m2; cbn; lia).
    replace (Z.max 0 (Z.max (Zdigits2 m2 + e1 - 53) (-1074) - e1)) with 0 in Hm3, He3 by lia.
    rewrite Z.div_1_r in Hm3. rewrite Z.add_0_r in He3. rewrite Hm3, He3.
    destruct m2 as [|p|p]; [reflexivity| |lia].
    replace (e1 <=? 1024 - 53) with true by (symmetry; apply Z.leb_le; lia).
    unfold float_of. replace (Zpos p =? 2 ^ 53) with false by (symmetry; apply Z.eqb_neq; exact N53).
    reflexivity.
Qed.

(** The integer part of a rounded value. *)
Lemma trunc_float_of m e : 0 <= m -> e <= 0 ->
  float64.trunc (float_of m e) = Some (m / 2 ^ (- e)).
Proof.
  intros Hm He. unfold float_of.
  destruct m as [|p|p]; [|destruct (Z.eqb_spec (Zpos p) (2 ^ 53)) as [E|_]|lia];
    cbn [float64.trunc cond_Zopp].
  - rewrite Z.div_0_l by (apply Z.pow_nonzero; lia). reflexivity.
  - rewrite E. f_equal. destruct (Z.eq_dec e 0) as [->|Hne]; [reflexivity|].
    rewrite Z.shiftl_div_pow2 by lia.
    replace (- e) with (1 + - (e + 1)) by lia. rewrite Z.pow_add_r by lia.
    change (Zpos 4503599627370496) with (2 ^ 52). change (2 ^ 53) with (2 ^ 1 * 2 ^ 52).
    rewrite Z.div_mul_cancel_l; [reflexivity|apply Z.pow_nonzero; lia|lia].
  - f_equal. destruct (Z.eq_dec e 0) as [->|Hne]; [cbn; now rewrite Z.div_1_r|].
    now rewrite Z.shiftl_div_pow2 by lia.
Qed.

Lemma Zdigits2_unique m d : 0 < d -> 2 ^ (d - 1) <= m < 2 ^ d -> Zdigits2 m = d.
Proof.
  intros Hd [Hlo Hhi].
  assert (Hm : 0 < m) by (pose proof (Z.pow_pos_nonneg 2 (d - 1)); lia).
  destruct m as [|p|p]; try lia.
  pose proof (Zdigits2_lower p) as H1.
  pose proof (Zdigits2_bound (Zpos p) ltac:(lia)) as H2.
  assert (Hd0 : 0 < Zdigits2 (Zpos p)) by (cbn; lia).
  destruct (Z.lt_trichotomy (Zdigits2 (Zpos p)) d) as [Hlt|[E|Hgt]]; [|exact E|].
  - exfalso. assert (2 ^ Zdigits2 (Zpos p) <= 2 ^ (d - 1)) by (apply Z.pow_le_mono_r; lia). lia.
  - exfalso. assert (2 ^ d <= 2 ^ (Zdigits2 (Zpos p) - 1)) by (apply Z.pow_le_mono_r; lia). lia.
Qed.

Lemma Zdigits2_shift m k : 0 < m -> 0 <= k -> Zdigits2 (m * 2 ^ k) = Zdigits2 m + k.
Proof.
  intros Hm Hk. destruct m as [|p|p]; try lia.
  pose proof (Zdigits2_lower p) as H1.
  pose proof (Zdigits2_bound (Zpos p) ltac:(lia)) as H2.
  assert (Hd0 : 0 < Zdigits2 (Zpos p)) by (cbn; lia).
  assert (Hp : 0 < 2 ^ k) by (apply Z.pow_pos_nonneg; lia).
  apply Zdigits2_unique; [lia|].
  replace (Zdigits2 (Zpos p) + k - 1) with ((Zdigits2 (Zpos p) - 1) + k) by lia.
  rewrite !Z.pow_add_r by lia. split.
  - apply Z.mul_le_mono_nonneg_r; lia.
  - apply Z.mul_lt_mono_pos_r; lia.
Qed.

(** An integer below [2 ^ 53] is converted without rounding. *)
Lemma of_Z_exact z : 0 < z < 2 ^ 53 ->
  float64.of_Z z
  = S754_finite false (Z.to_pos (z * 2 ^ (53 - Zdigits2 z))) (Zdigits2 z - 53).
Proof.
  intros [Hz Hlt]. destruct z as [|p|p]; try lia.
  unfold float64.of_Z, float64.prec, float64.emax. cbn [binary_normalize].
  unfold binary_round.
  set (d := Zdigits2 (Zpos p)).
  assert (Hd : 1 <= d <= 53).
  { split; [unfold d; cbn; lia|]. apply Zdigits2_le; lia. }
  change (Zpos (digits2_pos p)) with d.
  pose proof (shl_align_spec p 0 (fexp 53 1024 (d + 0))) as Hal.
  assert (Hez : snd (shl_align p 0 (fexp 53 1024 (d + 0))) = d - 53).
  { unfold shl_align. rewrite fexp_eq.
    destruct (Z.max (d + 0 - 53) (-1074) - 0) as [|q|q] eqn:E; cbn [snd]; lia. }
  destruct (shl_align p 0 (fexp 53 1024 (d + 0))) as [mz ez]. cbn [snd] in Hez. subst ez.
  destruct Hal as [_ Hmz].
  assert (Hdz : Zdigits2 (Zpos mz) = 53).
  { rewrite Hmz. rewrite Zdigits2_shift by lia. fold d. lia. }
  destruct (binary_round_aux_faithful (Zpos mz) (d - 53) loc_Exact ltac:(lia))
    as (m2 & _ & Hex & _ & Hres).
  { rewrite Hdz, fexp_eq. lia. }
  rewrite Hres. rewrite (Hex eq_refl) by (rewrite Hdz, fexp_eq; lia).
  rewrite Hdz, fexp_eq.
  replace (Z.max 0 (Z.max (53 + (d - 53) - 53) (-1074) - (d - 53))) with 0 by lia.
  rewrite Z.add_0_r. unfold float_of.
  assert (Hne : Zpos mz <> 2 ^ 53).
  { intros E. rewrite E in Hdz. discriminate Hdz. }
  replace (Zpos mz =? 2 ^ 53) with false by (symmetry; apply Z.eqb_neq; exact Hne).
  f_equal. replace (53 - d) with (0 - (d - 53)) by lia. rewrite <- Hmz. reflexivity.
Qed.

Lemma shl_align_exact m e e' :
  snd (shl_align m e e') = Z.min e e' /\
  Zpos (fst (shl_align m e e')) = Zpos m * 2 ^ (e - Z.min e e').
Proof.
  unfold shl_align. destruct (e' - e) as [|d|d] eqn:E; cbn [fst snd].
  - split; [lia|]. replace (e - Z.min e e') with 0 by lia. lia.
  - split; [lia|]. replace (e - Z.min e e') with 0 by lia. lia.
  - split; [lia|]. rewrite iter_xO_pow. f_equal. f_equal. lia.
Qed.

(** The quotient of an integer by a larger one, both below [2 ^ 53], stays
    at a distance from 1. *)
Lemma div_below_one r U B :
  0 <= r < U -> 2 ^ (B - 1) <= U < 2 ^ B -> 1 <= B <= 52 ->
  below_one B (float64.div (float64.of_Z r) (float64.of_Z U)).
Proof.
  intros [Hr0 HrU] [HUlo HUhi] HB.
  assert (HB53 : 2 ^ B <= 2 ^ 53) by (apply Z.pow_le_mono_r; lia).
  assert (HdU : Zdigits2 U = B) by (apply Zdigits2_unique; lia).
  assert (HU0 : 0 < U) by (pose proof (Z.pow_pos_nonneg 2 (B - 1)); lia).
  rewrite (of_Z_exact U) by lia. rewrite HdU.
  destruct (Z.eq_dec r 0) as [->|Hrne]; [exact I|].
  rewrite (of_Z_exact r) by lia.
  set (dr := Zdigits2 r).
  assert (Hdr : 1 <= dr <= B).
  { split; [unfold dr; destruct r; cbn; lia|]. apply Zdigits2_le; lia. }
  assert (Hpr : 0 < 2 ^ (53 - dr)) by (apply Z.pow_pos_nonneg; lia).
  assert (HpU : 0 < 2 ^ (53 - B)) by (apply Z.pow_pos_nonneg; lia).
  set (mx := Z.to_pos (r * 2 ^ (53 - dr))). set (my := Z.to_pos (U * 2 ^ (53 - B))).
  assert (Hmx : Zpos mx = r * 2 ^ (53 - dr)) by (unfold mx; rewrite Z2Pos.id; lia).
  assert (Hmy : Zpos my = U * 2 ^ (53 - B)) by (unfold my; rewrite Z2Pos.id; lia).
  assert (Hdmx : Zdigits2 (Zpos mx) = 53).
  { rewrite Hmx, Zdigits2_shift by lia. fold dr. lia. }
  assert (Hdmy : Zdigits2 (Zpos my) = 53).
  { rewrite Hmy, Zdigits2_shift by lia. rewrite HdU. lia. }
  unfold float64.div, float64.prec, float64.emax. cbn [SFdiv xorb].
  unfold SFdiv_core_binary. rewrite Hdmx, Hdmy, !fexp_eq.
  replace (Z.min (Z.max (53 + (dr - 53) - (53 + (B - 53)) - 53) (-1074)) (dr - 53 - (B - 53)))
    with (dr - B - 53) by lia.
  replace (dr - 53 - (B - 53) - (dr - B - 53)) with 53 by lia.
  set (N := 53 + B - dr).
  assert (Hq : fst (Z.div_eucl (Z.shiftl (Zpos mx) 53) (Zpos my)) = (r * 2 ^ N) / U).
  { change (fst (Z.div_eucl ?a ?b)) with (a / b).
    rewrite Z.shiftl_mul_pow2, Hmx, Hmy by lia.
    replace (r * 2 ^ (53 - dr) * 2 ^ 53) with (r * 2 ^ N * 2 ^ (53 - B)).
    - apply Z.div_mul_cancel_r; lia.
    - unfold N. rewrite <- !Z.mul_assoc, <- !Z.pow_add_r by lia. f_equal. f_equal. lia. }
  destruct (Z.div_eucl (Z.shiftl (Zpos mx) 53) (Zpos my)) as [q rem]. cbn [fst] in Hq.
  assert (HpN : 0 < 2 ^ N) by (apply Z.pow_pos_nonneg; unfold N; lia).
  assert (Hq0 : 0 <= q < 2 ^ N).
  { rewrite Hq. split; [apply Z.div_pos; nia|]. apply Z.div_lt_upper_bound; nia. }
  assert (Hdq : Zdigits2 q <= N) by (apply Zdigits2_le; [exact Hq0|unfold N; lia]).
  assert (Hdq0 : 0 <= Zdigits2 q) by (destruct q; cbn; lia).
  set (s1 := Z.max 0 (fexp 53 1024 (Zdigits2 q + (dr - B - 53)) - (dr - B - 53))).
  set (e1 := dr - B - 53 + s1).
  assert (He1 : e1 <= -53 /\ 0 <= s1 /\ - e1 = N - s1).
  { unfold e1, s1, N. rewrite fexp_eq. unfold N in Hdq. lia. }
  destruct (binary_round_aux_faithful q (dr - B - 53)
              (new_location (Zpos my) rem) (proj1 Hq0)) as (m2 & [Hm2lo Hm2] & _ & Hm253 & Hres).
  { fold s1. fold e1. lia. }
  fold s1 in Hm2lo, Hm2, Hres. fold e1 in Hres. rewrite Hres.
  destruct He1 as (He1 & Hs1 & HN).
  assert (Hp1 : 0 < 2 ^ s1) by (apply Z.pow_pos_nonneg; lia).
  assert (HpB : 0 < 2 ^ (- e1 - B)) by (apply Z.pow_pos_nonneg; lia).
  assert (Hpow : 2 ^ (- e1) = 2 ^ (- e1 - B) * 2 ^ B).
  { rewrite <- Z.pow_add_r by lia. f_equal. lia. }
  assert (HpowN : 2 ^ N = 2 ^ s1 * 2 ^ (- e1 - B) * 2 ^ B).
  { rewrite <- !Z.pow_add_r by lia. f_equal. lia. }
  assert (Hkey : q / 2 ^ s1 < 2 ^ (- e1) - 2 ^ (- e1 - B)).
  { apply Z.div_lt_upper_bound; [lia|]. rewrite Hq.
    apply Z.div_lt_upper_bound; [lia|].
    rewrite HpowN, Hpow.
    set (P := 2 ^ (- e1 - B)) in *. set (S1 := 2 ^ s1) in *. set (TB := 2 ^ B) in *.
    assert (r * TB < U * (TB - 1)) by nia.
    assert (0 < S1 * P) by nia.
    replace (r * (S1 * P * TB)) with ((S1 * P) * (r * TB)) by ring.
    replace (U * (S1 * (P * TB - P))) with ((S1 * P) * (U * (TB - 1))) by ring.
    apply Z.mul_lt_mono_pos_l; assumption. }
  assert (Hm2b : m2 <= 2 ^ (- e1) - 2 ^ (- e1 - B)) by lia.
  assert (Hm2nn : 0 <= m2).
  { pose proof (Z.div_pos q (2 ^ s1) (proj1 Hq0) Hp1). lia. }
  unfold float_of. destruct m2 as [|p|p]; [exact I| |lia].
  - destruct (Z.eqb_spec (Zpos p) (2 ^ 53)) as [E|_]; cbn [below_one].
    + split; [lia|]. rewrite E in Hm2b.
      replace (- e1) with (1 + (- (e1 + 1))) in Hm2b by lia.
      replace (1 + - (e1 + 1) - B) with (1 + (- (e1 + 1) - B)) in Hm2b by lia.
      rewrite !Z.pow_add_r in Hm2b by lia.
      change (2 ^ 53) with (2 ^ 1 * 2 ^ 52) in Hm2b.
      change (Zpos 4503599627370496) with (2 ^ 52). change (2 ^ 1) with 2 in Hm2b. lia.
    + split; [lia|exact Hm2b].
Qed.

(** The integer part of [float64(q) + x] for a small [x]: it is never
    below [q], and it is [q] when [x] stays at a distance from 1 that the
    precision left by [q] can tell from 1. *)
Lemma add_trunc q x B :
  0 < q < 2 ^ 34 -> le_pow2 2 x ->
  exists z,
    float64.trunc (float64.add (float64.of_Z q) x) = Some z /\ q <= z /\
    (below_one B x -> 1 <= B -> Zdigits2 q + B <= 52 -> z = q).
Proof.
  intros [Hq0 Hq34] Hx.
  set (da := Zdigits2 q).
  assert (Hda : 1 <= da <= 34).
  { split; [unfold da; destruct q; cbn; lia|]. apply Zdigits2_le; lia. }
  assert (Hqda : q < 2 ^ da) by (apply Zdigits2_bound; lia).
  rewrite (of_Z_exact q) by (split; [lia|]; eapply Z.lt_trans; [exact Hq34|reflexivity]).
  fold da.
  assert (Hpa : 0 < 2 ^ (53 - da)) by (apply Z.pow_pos_nonneg; lia).
  set (ma := Z.to_pos (q * 2 ^ (53 - da))).
  assert (Hma : Zpos ma = q * 2 ^ (53 - da)) by (unfold ma; rewrite Z2Pos.id; lia).
  destruct x as [sx|sx| |[] mx ex]; cbn [le_pow2] in Hx; try contradiction.
  - (* x is a zero *)
    exists q. unfold float64.add. cbn [SFadd float64.trunc cond_Zopp].
    split; [|split; [lia|reflexivity]].
    f_equal. rewrite Z.shiftl_div_pow2, Hma by lia.
    replace (- (da - 53)) with (53 - da) by lia. apply Z.div_mul. lia.
  - destruct Hx as [Hex Hmx].
    unfold float64.add, float64.prec, float64.emax. cbn [SFadd cond_Zopp].
    set (ea := da - 53) in *. set (ez := Z.min ea ex).
    destruct (shl_align_exact ma ea ez) as [Hsa Hfa].
    destruct (shl_align_exact mx ex ez) as [Hsx Hfx].
    destruct (shl_align ma ea ez) as [a' ea']. destruct (shl_align mx ex ez) as [x' ex'].
    cbn [fst snd] in *.
    replace (Z.min ea ez) with ez in Hfa by (unfold ez; lia).
    replace (Z.min ex ez) with ez in Hfx by (unfold ez; lia).
    change (Zpos a' + Zpos x') with (Zpos (a' + x')). cbn [binary_normalize].
    unfold binary_round.
    set (M := (a' + x')%positive).
    set (fe := fexp 53 1024 (Zpos (digits2_pos M) + ez)).
    destruct (shl_align_exact M ez fe) as [HsM HfM].
    destruct (shl_align M ez fe) as [M' ez']. cbn [fst snd] in *. subst ez'.
    set (ez' := Z.min ez fe) in *. set (N := - ez').
    assert (Hez : ez <= ea /\ ez <= ex /\ ez' <= ez) by (unfold ez', ez; lia).
    assert (HN : 0 <= N /\ 0 <= ex + N /\ 19 <= N) by (unfold N, ea in *; lia).
    set (X := Zpos mx * 2 ^ (ex + N)).
    assert (HpN : 0 < 2 ^ N) by (apply Z.pow_pos_nonneg; lia).
    assert (HM' : Zpos M' = q * 2 ^ N + X).
    { rewrite HfM. unfold M. rewrite Pos2Z.inj_add, Hfa, Hfx, Hma.
      rewrite Z.mul_add_distr_r. unfold X. rewrite <- !Z.mul_assoc, <- !Z.pow_add_r by lia.
      f_equal; f_equal; f_equal; unfold N, ea; lia. }
    assert (HX0 : 0 < X) by (unfold X; apply Z.mul_pos_pos; [lia|apply Z.pow_pos_nonneg; lia]).
    assert (HX2 : X <= 2 ^ (N + 2)).
    { unfold X. replace (N + 2) with ((2 - ex) + (ex + N)) by lia.
      rewrite (Z.pow_add_r 2 (2 - ex) (ex + N)) by lia. apply Z.mul_le_mono_nonneg_r; [apply Z.pow_nonneg; lia|exact Hmx]. }
    set (dM := Zdigits2 (Zpos M')).
    set (s1 := Z.max 0 (fexp 53 1024 (dM + ez') - ez')).
    set (e1 := ez' + s1).
    assert (HdM0 : 0 < dM) by (unfold dM; cbn; lia).
    assert (HdM : dM <= N + 35).
    { apply Zdigits2_le; [|lia]. split; [lia|]. rewrite HM'.
      replace (N + 35) with (35 + N) by lia. rewrite Z.pow_add_r by lia.
      replace (N + 2) with (2 + N) in HX2 by lia. rewrite Z.pow_add_r in HX2 by lia.
      change (2 ^ 2) with 4 in HX2. change (2 ^ 35) with (2 * 2 ^ 34). nia. }
    assert (He1 : e1 <= -18 /\ 0 <= s1 /\ - e1 = N - s1).
    { unfold e1, s1, N in *. rewrite fexp_eq. unfold ea in *. lia. }
    destruct He1 as (He1 & Hs1 & HNe).
    destruct (binary_round_aux_faithful (Zpos M') ez' loc_Exact ltac:(lia))
      as (m2 & [Hm2lo Hm2hi] & _ & _ & Hres).
    { fold dM. fold s1. fold e1. lia. }
    fold dM in Hm2lo, Hm2hi, Hres. fold s1 in Hm2lo, Hm2hi, Hres. fold e1 in Hres.
    rewrite Hres.
    assert (Hp1 : 0 < 2 ^ s1) by (apply Z.pow_pos_nonneg; lia).
    assert (Hpe : 0 < 2 ^ (- e1)) by (apply Z.pow_pos_nonneg; lia).
    assert (HpowN : 2 ^ N = 2 ^ (- e1) * 2 ^ s1).
    { rewrite <- Z.pow_add_r by lia. f_equal. lia. }
    assert (Hlow : q * 2 ^ (- e1) <= Zpos M' / 2 ^ s1).
    { apply Z.div_le_lower_bound; [lia|]. rewrite HM', HpowN. nia. }
    assert (Hm2nn : 0 <= m2) by nia.
    rewrite trunc_float_of by lia.
    eexists. split; [reflexivity|]. split.
    + apply Z.div_le_lower_bound; [lia|]. nia.
    + intros [HexB HmxB] HB HdB. fold da in HdB.
      assert (HXB : X <= 2 ^ N - 2 ^ (N - B)).
      { unfold X.
        replace (2 ^ N) with (2 ^ (- ex) * 2 ^ (ex + N))
          by (rewrite <- Z.pow_add_r by lia; f_equal; lia).
        replace (2 ^ (N - B)) with (2 ^ (- ex - B) * 2 ^ (ex + N))
          by (rewrite <- Z.pow_add_r by lia; f_equal; lia).
        rewrite <- Z.mul_sub_distr_r.
        apply Z.mul_le_mono_nonneg_r; [apply Z.pow_nonneg; lia|exact HmxB]. }
      assert (HpNB : 0 < 2 ^ (N - B)) by (apply Z.pow_pos_nonneg; lia).
      assert (HdM' : dM <= da + N).
      { apply Zdigits2_le; [|lia]. split; [lia|]. rewrite HM', Z.pow_add_r by lia. nia. }
      assert (He1B : e1 <= - B - 1).
      { unfold e1, s1, N in *. rewrite fexp_eq. unfold ea in *. lia. }
      assert (Hs1B : 2 ^ s1 < 2 ^ (N - B)) by (apply Z.pow_lt_mono_r; lia).
      apply Z.le_antisymm.
      * apply Z.lt_succ_r. apply Z.div_lt_upper_bound; [lia|].
        assert (Zpos M' / 2 ^ s1 < (q + 1) * 2 ^ (- e1) - 1); [|lia].
        apply Z.div_lt_upper_bound; [lia|].
        rewrite HM'. 
        replace (2 ^ s1 * ((q + 1) * 2 ^ (- e1) - 1))
          with ((q + 1) * (2 ^ (- e1) * 2 ^ s1) - 2 ^ s1) by ring.
        rewrite <- HpowN. lia.
      * apply Z.div_le_lower_bound; [lia|]. nia.
Qed.

Lemma trunc_below_one B x : 1 <= B -> below_one B x -> float64.trunc x = Some 0.
Proof.
  intros HB H. destruct x as [s|s| |[] m e]; cbn [below_one] in H; try contradiction.
  - reflexivity.
  - destruct H as [He Hm]. cbn [float64.trunc cond_Zopp]. f_equal.
    rewrite Z.shiftl_div_pow2 by lia. apply Z.div_small.
    assert (0 < 2 ^ (- e - B)) by (apply Z.pow_pos_nonneg; lia). lia.
Qed.

Lemma to_int64_trunc f z :
  float64.trunc f = Some z -> - two63 <= z < two63 -> float64.to_int64 f = z.
Proof.
  intros Hf Hz. unfold float64.to_int64. rewrite Hf.
  replace ((- two63 <=? z) && (z <? two63)) with true; [reflexivity|].
  symmetry. apply andb_true_iff. split; [apply Z.leb_le|apply Z.ltb_lt]; lia.
Qed.

(** [int(float64(q) + float64(r)/float64(U))] for the quotient [q] and the
    remainder [r] of a non-negative duration by the unit [U], a number of
    [B] bits: it is never below [q], and it is [q] as long as [q] and [U]
    together fit in 52 bits. *)
Lemma unit_count_trunc U B q r :
  2 ^ (B - 1) <= U < 2 ^ B -> 30 <= B <= 42 ->
  0 <= q < 2 ^ 34 -> 0 <= r < U ->
  q <= float64.to_int64
         (float64.add (float64.of_Z q) (float64.div (float64.of_Z r) (float64.of_Z U))) /\
  (Zdigits2 q + B <= 52 ->
   float64.to_int64
     (float64.add (float64.of_Z q) (float64.div (float64.of_Z r) (float64.of_Z U))) = q).
Proof.
  intros HU HB Hq Hr.
  assert (HB53 : 2 ^ B <= 2 ^ 53) by (apply Z.pow_le_mono_r; lia).
  assert (HBlo : 2 ^ 29 <= 2 ^ (B - 1)) by (apply Z.pow_le_mono_r; lia).
  assert (HB42 : 2 ^ B <= 2 ^ 42) by (apply Z.pow_le_mono_r; lia).
  assert (HdU : Zdigits2 U = B) by (apply Zdigits2_unique; lia).
  set (x := float64.div (float64.of_Z r) (float64.of_Z U)).
  assert (Hx1 : below_one B x) by (apply div_below_one; lia).
  assert (Hx2 : le_pow2 2 x).
  { unfold x. rewrite (of_Z_exact U) by lia. rewrite HdU.
    replace 2 with (B - (B - 1) + 1) at 1 by lia.
    apply SFdiv_upper; try lia.
    - apply of_Z_upper; lia.
    - replace (B - 1 - (B - 53)) with 52 by lia.
      assert (0 < 2 ^ (53 - B)) by (apply Z.pow_pos_nonneg; lia).
      rewrite Z2Pos.id by (apply Z.mul_pos_pos; lia).
      replace (2 ^ 52) with (2 ^ (B - 1) * 2 ^ (53 - B))
        by (rewrite <- Z.pow_add_r by lia; f_equal; lia).
      apply Z.mul_le_mono_nonneg_r; lia. }
  destruct (Z.eq_dec q 0) as [->|Hqne].
  - assert (Ht : float64.trunc (float64.add (float64.of_Z 0) x) = Some 0).
    { change (float64.of_Z 0) with (S754_zero false).
      destruct x as [[]|s| |[] m e] eqn:Ex; cbn [below_one] in Hx1; try contradiction;
        try reflexivity.
      unfold float64.add. cbn [SFadd]. fold float64.t. rewrite <- Ex.
      apply (trunc_below_one B); [lia|]. rewrite Ex. exact Hx1. }
    rewrite (to_int64_trunc _ 0 Ht) by (unfold two63; lia). split; [lia|reflexivity].
  - destruct (add_trunc q x B ltac:(lia) Hx2) as (z & Ht & Hlo & Hex).
    assert (Hb : le_pow2 45 (float64.add (float64.of_Z q) x)).
    { apply (SFadd_upper 34 2); try lia; [apply of_Z_upper; lia|exact Hx2]. }
    destruct (le_pow2_trunc 45 _ ltac:(lia) Hb) as (z' & Ht' & Hz').
    rewrite Ht in Ht'. injection Ht' as <-.
    rewrite (to_int64_trunc _ z Ht) by (unfold two63; lia).
    split; [exact Hlo|]. intros Hd. apply Hex; [exact Hx1|lia|exact Hd].
Qed.

(** ** The components of a non-negative duration *)

Lemma quot_rem_nonneg d U : 0 <= d < two63 -> 2 ^ 29 <= U < 2 ^ 42 ->
  (0 <= Z.quot d U < 2 ^ 34) /\ (0 <= Z.rem d U < 2 ^ 42).
Proof.
  intros Hd HU. split.
  - rewrite Z.quot_div_nonneg by lia. split; [apply Z.div_pos; lia|].
    apply Z.div_lt_upper_bound; [lia|]. unfold two63 in Hd.
    apply Z.lt_le_trans with (2 ^ 29 * 2 ^ 34); [lia|].
    apply Z.mul_le_mono_nonneg_r; lia.
  - pose proof (Z.rem_bound_pos d U ltac:(lia) ltac:(lia)). lia.
Qed.

Lemma Hours_bounded d : 0 <= d < two63 -> le_pow2 45 (time.Hours d).
Proof.
  intros Hd. unfold time.Hours.
  destruct (quot_rem_nonneg d time.Hour Hd ltac:(vm_compute; split; [discriminate|reflexivity])).
  apply (unit_count_bounded _ 7372800000000000%positive (-11) 41);
    [reflexivity|lia|vm_compute; discriminate|lia|assumption|assumption].
Qed.

Lemma Minutes_bounded d : 0 <= d < two63 -> le_pow2 45 (time.Minutes d).
Proof.
  intros Hd. unfold time.Minutes.
  destruct (quot_rem_nonneg d time.Minute Hd ltac:(vm_compute; split; [discriminate|reflexivity])).
  apply (unit_count_bounded _ 7864320000000000%positive (-17) 35);
    [reflexivity|lia|vm_compute; discriminate|lia|assumption|assumption].
Qed.

Lemma Seconds_bounded d : 0 <= d < two63 -> le_pow2 45 (time.Seconds d).
Proof.
  intros Hd. unfold time.Seconds.
  destruct (quot_rem_nonneg d time.Second Hd ltac:(vm_compute; split; [discriminate|reflexivity])).
  apply (unit_count_bounded _ 8388608000000000%positive (-23) 29);
    [reflexivity|lia|vm_compute; discriminate|lia|assumption|assumption].
Qed.

Lemma hoursOf_nonneg d : 0 <= d < two63 -> 0 <= hoursOf d.
Proof.
  intros Hd. unfold hoursOf.
  apply (to_int64_le_pow2 45); [lia|apply Hours_bounded; exact Hd].
Qed.

Lemma minutesOf_range d : 0 <= d < two63 -> 0 <= minutesOf d <= 59.
Proof.
  intros Hd. unfold minutesOf.
  pose proof (to_int64_le_pow2 45 _ ltac:(lia) (Minutes_bounded d Hd)) as [H0 _].
  pose proof (Z.rem_bound_pos _ 60 H0 ltac:(lia)). lia.
Qed.

Lemma secondsOf_range d : 0 <= d < two63 -> 0 <= secondsOf d <= 59.
Proof.
  intros Hd. unfold secondsOf.
  pose proof (to_int64_le_pow2 45 _ ltac:(lia) (Seconds_bounded d Hd)) as [H0 _].
  pose proof (Z.rem_bound_pos _ 60 H0 ltac:(lia)). lia.
Qed.

(** The components are never below the true counts, and they are the true
    counts for every duration below 1024 hours. *)

Lemma unit_count U B d :
  2 ^ (B - 1) <= U < 2 ^ B -> 30 <= B <= 42 -> 0 <= d < two63 ->
  d / U <= float64.to_int64
             (float64.add (float64.of_Z (Z.quot d U))
                (float64.div (float64.of_Z (Z.rem d U)) (float64.of_Z U))) /\
  (d / U < 2 ^ (52 - B) ->
   float64.to_int64
     (float64.add (float64.of_Z (Z.quot d U))
        (float64.div (float64.of_Z (Z.rem d U)) (float64.of_Z U))) = d / U).
Proof.
  intros HU HB Hd.
  assert (HBlo : 2 ^ 29 <= 2 ^ (B - 1)) by (apply Z.pow_le_mono_r; lia).
  assert (HB42 : 2 ^ B <= 2 ^ 42) by (apply Z.pow_le_mono_r; lia).
  destruct (quot_rem_nonneg d U Hd ltac:(lia)) as [Hq _].
  pose proof (Z.rem_bound_pos d U ltac:(lia) ltac:(lia)) as Hr.
  destruct (unit_count_trunc U B (Z.quot d U) (Z.rem d U) HU HB Hq Hr) as [Hlo Hex].
  rewrite Z.quot_div_nonneg in * by lia.
  split; [exact Hlo|]. intros Hsmall. apply Hex.
  assert (Zdigits2 (d / U) <= 52 - B); [|lia].
  apply Zdigits2_le; lia.
Qed.

Lemma Hour_bits : 2 ^ (42 - 1) <= time.Hour < 2 ^ 42.
Proof. vm_compute. split; [discriminate|reflexivity]. Qed.

Lemma Minute_bits : 2 ^ (36 - 1) <= time.Minute < 2 ^ 36.
Proof. vm_compute. split; [discriminate|reflexivity]. Qed.

Lemma Second_bits : 2 ^ (30 - 1) <= time.Second < 2 ^ 30.
Proof. vm_compute. split; [discriminate|reflexivity]. Qed.

Lemma hoursOf_lower d : 0 <= d < two63 -> d / time.Hour <= hoursOf d.
Proof. intros Hd. apply (unit_count time.Hour 42 d Hour_bits); [lia|exact Hd]. Qed.

Lemma hoursOf_exact d : 0 <= d < 1024 * time.Hour -> hoursOf d = d / time.Hour.
Proof.
  intros Hd. apply (unit_count time.Hour 42 d Hour_bits); [lia| |].
  - split; [lia|]. eapply Z.lt_trans; [apply Hd|reflexivity].
  - apply Z.div_lt_upper_bound; [reflexivity|]. change (2 ^ (52 - 42)) with 1024. lia.
Qed.

Lemma minutesOf_exact d :
  0 <= d < 1024 * time.Hour -> minutesOf d = (d / time.Minute) mod 60.
Proof.
  intros Hd. unfold minutesOf.
  assert (H : float64.to_int64 (time.Minutes d) = d / time.Minute).
  { apply (unit_count time.Minute 36 d Minute_bits); [lia| |].
    - split; [lia|]. eapply Z.lt_trans; [apply Hd|reflexivity].
    - apply Z.div_lt_upper_bound; [reflexivity|].
      eapply Z.lt_le_trans; [apply Hd|]. vm_compute. discriminate. }
  rewrite H. apply Z.rem_mod_nonneg; [apply Z.div_pos; [lia|reflexivity]|lia].
Qed.

Lemma secondsOf_exact d :
  0 <= d < 1024 * time.Hour -> secondsOf d = (d / time.Second) mod 60.
Proof.
  intros Hd. unfold secondsOf.
  assert (H : float64.to_int64 (time.Seconds d) = d / time.Second).
  { apply (unit_count time.Second 30 d Second_bits); [lia| |].
    - split; [lia|]. eapply Z.lt_trans; [apply Hd|reflexivity].
    - apply Z.div_lt_upper_bound; [reflexivity|].
      eapply Z.lt_le_trans; [apply Hd|]. vm_compute. discriminate. }
  rewrite H. apply Z.rem_mod_nonneg; [apply Z.div_pos; [lia|reflexivity]|lia].
Qed.

(** The hour component is zero exactly for the durations below one hour. *)
Lemma hoursOf_zero_iff d : 0 <= d < two63 -> hoursOf d = 0 <-> d < time.Hour.
Proof.
  intros Hd. split.
  - intros Hz. pose proof (hoursOf_lower d Hd) as Hlo. rewrite Hz in Hlo.
    destruct (Z_lt_le_dec d time.Hour) as [|Hge]; [assumption|exfalso].
    assert (1 <= d / time.Hour); [|lia].
    apply Z.div_le_lower_bound; [reflexivity|lia].
  - intros Hlt. rewrite hoursOf_exact.
    + apply Z.div_small. lia.
    + split; [lia|]. eapply Z.lt_trans; [exact Hlt|reflexivity].
Qed.

(** * Facts about fmt *)

Lemma append_nil_r (s : string) : s +:+ "" = s.
Proof.
  induction s as [|c s IH]; [reflexivity|].
  change (String c (s +:+ "") = String c s). now rewrite IH.
Qed.

Lemma Sprintf_clock_ms minutes seconds :
  fmt.Sprintf "%d:%02d" [fmt.Int minutes; fmt.Int seconds]
  = fmt.fmtInteger false 0 minutes +:+ ":" +:+ fmt.fmtInteger true 2 seconds.
Proof.
  unfold fmt.Sprintf. cbv -[fmt.fmtInteger String.append].
  rewrite append_nil_r. reflexivity.
Qed.

Lemma Sprintf_clock_hms hours minutes seconds :
  fmt.Sprintf "%d:%02d:%02d" [fmt.Int hours; fmt.Int minutes; fmt.Int seconds]
  = fmt.fmtInteger false 0 hours +:+ ":" +:+ fmt.fmtInteger true 2 minutes
    +:+ ":" +:+ fmt.fmtInteger true 2 seconds.
Proof.
  unfold fmt.Sprintf. cbv -[fmt.fmtInteger String.append].
  rewrite append_nil_r. reflexivity.
Qed.

Lemma Sprintf_embed videoID :
  fmt.Sprintf "https://www.youtube.com/embed/%s" [fmt.Str videoID]
  = "https://www.youtube.com/embed/" +:+ videoID.
Proof.
  unfold fmt.Sprintf. cbv -[String.append String.length].
  rewrite append_nil_r. reflexivity.
Qed.

Lemma fmtInteger_plain z : 0 <= z -> fmt.fmtInteger false 0 z = fmt.decimal z.
Proof.
  intros Hz. unfold fmt.fmtInteger.
  replace (z <? 0) with false by (symmetry; apply Z.ltb_ge; exact Hz).
  rewrite Z.abs_eq by exact Hz. reflexivity.
Qed.

(** A check over an initial segment of the integers. *)
Lemma forall_below (P : Z -> bool) (n : nat) :
  forallb P (map Z.of_nat (seq 0 n)) = true ->
  forall z, 0 <= z < Z.of_nat n -> P z = true.
Proof.
  intros H z Hz. rewrite forallb_forall in H. apply H.
  apply in_map_iff. exists (Z.to_nat z). split; [lia|].
  apply in_seq. lia.
Qed.

Lemma fmtInteger_two z : 0 <= z < 100 -> fmt.fmtInteger true 2 z = twoDigits z.
Proof.
  intros Hz. apply String.eqb_eq.
  apply (forall_below (fun z => String.eqb (fmt.fmtInteger true 2 z) (twoDigits z)) 100);
    [vm_compute; reflexivity|lia].
Qed.

Lemma twoDigits_shape z : 0 <= z < 100 -> isTwoDigits (twoDigits z) = true.
Proof.
  intros Hz.
  apply (forall_below (fun z => isTwoDigits (twoDigits z)) 100);
    [vm_compute; reflexivity|lia].
Qed.

Lemma digitChar_isDigit d : 0 <= d <= 9 -> isDigit (fmt.digitChar d) = true.
Proof.
  intros Hd.
  apply (forall_below (fun d => isDigit (fmt.digitChar d)) 10);
    [vm_compute; reflexivity|lia].
Qed.

Lemma digitChar_value d : 0 <= d <= 9 -> byte_val (fmt.digitChar d) - 48 = d.
Proof.
  intros Hd. apply Z.eqb_eq.
  apply (forall_below (fun d => byte_val (fmt.digitChar d) - 48 =? d) 10);
    [vm_compute; reflexivity|lia].
Qed.

Lemma digitChar_nonzero d : 1 <= d <= 9 -> Ascii.eqb (fmt.digitChar d) "0" = false.
Proof.
  intros Hd. apply negb_true_iff.
  pose proof (forall_below (fun d => (d =? 0) || negb (Ascii.eqb (fmt.digitChar d) "0")) 10
                ltac:(vm_compute; reflexivity) d ltac:(lia)) as H.
  cbv beta in H.
  replace (d =? 0) with false in H by (symmetry; apply Z.eqb_neq; lia). exact H.
Qed.

(** [decimal] writes the decimal numeral of its argument. *)

Lemma digits_all fuel : forall n acc, 0 <= n ->
  string_forallb isDigit acc = true ->
  string_forallb isDigit (fmt.digits fuel n acc) = true.
Proof.
  induction fuel as [|fuel IH]; intros n acc Hn Hacc; cbn [fmt.digits]; [exact Hacc|].
  assert (Hd : string_forallb isDigit (String (fmt.digitChar (n mod 10)) acc) = true).
  { cbn [string_forallb]. rewrite digitChar_isDigit, Hacc; [reflexivity|].
    pose proof (Z.mod_pos_bound n 10). lia. }
  destruct (n <? 10); [exact Hd|].
  apply IH; [apply Z.div_pos; lia|exact Hd].
Qed.

Lemma digits_value fuel : forall n acc, 0 <= n < 2 ^ Z.of_nat fuel ->
  exists k, 0 <= k /\
    forall a, decimalValue a (fmt.digits fuel n acc) = decimalValue (a * 10 ^ k + n) acc.
Proof.
  induction fuel as [|fuel IH]; intros n acc Hn.
  - exists 0. split; [lia|]. intros a. cbn [fmt.digits].
    change (2 ^ Z.of_nat 0) with 1 in Hn. f_equal; lia.
  - cbn [fmt.digits]. destruct (Z.ltb_spec n 10) as [Hlt|Hge].
    + exists 1. split; [lia|]. intros a. cbn [decimalValue].
      rewrite digitChar_value by (pose proof (Z.mod_pos_bound n 10); lia).
      rewrite Z.mod_small by lia. f_equal; lia.
    + rewrite Nat2Z.inj_succ, Z.pow_succ_r in Hn by lia.
      destruct (IH (n / 10) (String (fmt.digitChar (n mod 10)) acc)) as (k & Hk & Hv).
      { split; [apply Z.div_pos; lia|]. apply Z.div_lt_upper_bound; lia. }
      exists (k + 1). split; [lia|]. intros a. rewrite Hv. cbn [decimalValue].
      rewrite digitChar_value by (pose proof (Z.mod_pos_bound n 10); lia).
      f_equal. rewrite Z.pow_add_r by lia.
      pose proof (Z.div_mod n 10). lia.
Qed.

Lemma digits_head fuel : forall n acc, 0 < n < 2 ^ Z.of_nat fuel ->
  exists c r, fmt.digits fuel n acc = String c r /\ c <> "0"%char.
Proof.
  induction fuel as [|fuel IH]; intros n acc Hn.
  - change (2 ^ Z.of_nat 0) with 1 in Hn. lia.
  - cbn [fmt.digits]. destruct (Z.ltb_spec n 10) as [Hlt|Hge].
    + eexists _, _. split; [reflexivity|].
      rewrite Z.mod_small by lia. intros E.
      pose proof (digitChar_nonzero n ltac:(lia)) as H. rewrite E in H. discriminate.
    + rewrite Nat2Z.inj_succ, Z.pow_succ_r in Hn by lia.
      apply IH. split; [apply Z.div_str_pos; lia|]. apply Z.div_lt_upper_bound; lia.
Qed.

Lemma decimal_fuel z : 0 <= z -> z < 2 ^ Z.of_nat (S (Z.to_nat (Z.log2 z))).
Proof.
  intros Hz. rewrite Nat2Z.inj_succ, Z2Nat.id by apply Z.log2_nonneg.
  destruct (Z.eq_dec z 0) as [->|]; [reflexivity|].
  apply Z.log2_spec. lia.
Qed.

Lemma decimal_value z : 0 <= z -> decimalValue 0 (fmt.decimal z) = z.
Proof.
  intros Hz. unfold fmt.decimal.
  destruct (digits_value _ z "" (conj Hz (decimal_fuel z Hz))) as (k & _ & Hv).
  rewrite Hv. cbn [decimalValue]. rewrite Z.mul_0_l. reflexivity.
Qed.

Lemma decimal_unpadded z : 0 <= z -> isUnpadded (fmt.decimal z) = true.
Proof.
  intros Hz. unfold isUnpadded, isNumber.
  assert (Hall : string_forallb isDigit (fmt.decimal z) = true)
    by (apply digits_all; [exact Hz|reflexivity]).
  destruct (Z.eq_dec z 0) as [->|Hnz]; [reflexivity|].
  assert (Hpos : 0 < z) by lia.
  destruct (digits_head _ z "" (conj Hpos (decimal_fuel z Hz))) as (c & r & E & Hc).
  fold (fmt.decimal z) in E. rewrite E in *. rewrite Hall.
  cbn [String.eqb String.prefix negb andb].
  destruct (ascii_dec "0" c) as [<-|_]; [contradiction|].
  now rewrite orb_true_r.
Qed.

(** * Facts about clock strings *)

Lemma isDigit_not_colon c : isDigit c = true -> Ascii.eqb c ":" = false.
Proof.
  intros H. destruct (Ascii.eqb_spec c ":") as [->|]; [discriminate H|reflexivity].
Qed.

Lemma splitOn_digits s : string_forallb isDigit s = true -> splitOn ":" s = [s].
Proof.
  induction s as [|c s IH]; cbn [string_forallb splitOn]; [reflexivity|].
  intros [Hc Hs]%andb_true_iff. rewrite (isDigit_not_colon c Hc), (IH Hs). reflexivity.
Qed.

Lemma splitOn_field a b : string_forallb isDigit a = true ->
  splitOn ":" (a +:+ ":" +:+ b) = a :: splitOn ":" b.
Proof.
  induction a as [|c a IH]; cbn [string_forallb]; [reflexivity|].
  intros [Hc Ha]%andb_true_iff.
  change (String c a +:+ ":" +:+ b) with (String c (a +:+ ":" +:+ b)).
  cbn [splitOn]. rewrite (isDigit_not_colon c Hc), (IH Ha). reflexivity.
Qed.

Lemma isUnpadded_digits s : isUnpadded s = true -> string_forallb isDigit s = true.
Proof. unfold isUnpadded, isNumber. intros H. repeat (apply andb_true_iff in H as [H ?]). assumption. Qed.

Lemma isTwoDigits_digits s : isTwoDigits s = true -> string_forallb isDigit s = true.
Proof. unfold isTwoDigits. intros [_ H]%andb_true_iff. exact H. Qed.

Lemma isClockMS_intro m s :
  isUnpadded m = true -> isTwoDigits s = true -> isClockMS (m +:+ ":" +:+ s) = true.
Proof.
  intros Hm Hs. unfold isClockMS.
  rewrite splitOn_field by (apply isUnpadded_digits; exact Hm).
  rewrite splitOn_digits by (apply isTwoDigits_digits; exact Hs).
  now rewrite Hm, Hs.
Qed.

Lemma isClockHMS_intro h m s :
  isUnpadded h = true -> isTwoDigits m = true -> isTwoDigits s = true ->
  isClockHMS (h +:+ ":" +:+ m +:+ ":" +:+ s) = true.
Proof.
  intros Hh Hm Hs. unfold isClockHMS.
  rewrite splitOn_field by (apply isUnpadded_digits; exact Hh).
  rewrite splitOn_field by (apply isTwoDigits_digits; exact Hm).
  rewrite splitOn_digits by (apply isTwoDigits_digits; exact Hs).
  now rewrite Hh, Hm, Hs.
Qed.

(** * Facts about time.ParseDuration *)

Lemma i64_range z : - two63 <= i64 z < two63.
Proof.
  unfold i64. pose proof (Z.mod_pos_bound (z + two63) two64 ltac:(reflexivity)).
  unfold two63, two64 in *. lia.
Qed.

Lemma i64_small z : - two63 <= z < two63 -> i64 z = z.
Proof.
  intros Hz. unfold i64. rewrite Z.mod_small; unfold two63, two64 in *; lia.
Qed.

(** The duration is 0 whenever there is an error. *)
Lemma ParseDuration_error s e :
  snd (time.ParseDuration s) = Some e -> fst (time.ParseDuration s) = 0.
Proof.
  unfold time.ParseDuration.
  set (ns := match s with
             | String c r =>
                 if Ascii.eqb c "-" || Ascii.eqb c "+" then (Ascii.eqb c "-", r)
                 else (false, s)
             | EmptyString => (false, s)
             end).
  destruct ns as [neg s'].
  destruct (String.eqb s' "0"); [discriminate|].
  destruct (String.eqb s' ""); [reflexivity|].
  destruct (time.parseLoop _ _ _ _) as [[e'|d]|]; [reflexivity| |reflexivity].
  destruct neg; [discriminate|].
  destruct (d >? two63 - 1); [reflexivity|discriminate].
Qed.

(** The duration is an [int64]. *)
Lemma ParseDuration_range s : - two63 <= fst (time.ParseDuration s) < two63.
Proof.
  assert (H0 : - two63 <= 0 < two63) by (unfold two63; lia).
  unfold time.ParseDuration.
  set (ns := match s with
             | String c r =>
                 if Ascii.eqb c "-" || Ascii.eqb c "+" then (Ascii.eqb c "-", r)
                 else (false, s)
             | EmptyString => (false, s)
             end).
  destruct ns as [neg s'].
  destruct (String.eqb s' "0"); [exact H0|].
  destruct (String.eqb s' ""); [exact H0|].
  destruct (time.parseLoop _ _ _ _) as [[e'|d]|]; [exact H0| |exact H0].
  destruct neg; [apply i64_range|].
  destruct (d >? two63 - 1); [exact H0|apply i64_range].
Qed.

(** Every round of the parsing loop consumes at least one byte, so the
    loop of [ParseDuration] is never cut short. *)

Lemma leadingIntFrom_length s : forall x v r,
  time.leadingIntFrom x s = Some (v, r) -> (String.length r <= String.length s)%nat.
Proof.
  induction s as [|c s IH]; intros x v r; cbn [time.leadingIntFrom].
  - intros [= _ <-]. reflexivity.
  - destruct (isDigit c); cbn [negb].
    + destruct (x >? two63 / 10); [discriminate|].
      destruct (_ >? two63); [discriminate|].
      intros H%IH. cbn [String.length]. lia.
    + intros [= _ <-]. reflexivity.
Qed.

Lemma leadingFractionFrom_length s : forall x scale overflow,
  (String.length (snd (time.leadingFractionFrom x scale overflow s)) <= String.length s)%nat.
Proof.
  induction s as [|c s IH]; intros x scale overflow; cbn [time.leadingFractionFrom].
  - reflexivity.
  - destruct (isDigit c); cbn [negb]; [|reflexivity].
    cbn [String.length].
    destruct overflow; [etransitivity; [apply IH|lia]|].
    destruct (x >? (two63 - 1) / 10); [etransitivity; [apply IH|lia]|].
    destruct (_ >? two63); (etransitivity; [apply IH|lia]).
Qed.

Lemma unitSpan_length s :
  String.length s
  = (String.length (fst (time.unitSpan s)) + String.length (snd (time.unitSpan s)))%nat.
Proof.
  induction s as [|c s IH]; cbn [time.unitSpan]; [reflexivity|].
  destruct (Ascii.eqb c "." || isDigit c); [reflexivity|].
  destruct (time.unitSpan s) as [u rest]. cbn [fst snd String.length] in *. lia.
Qed.

Lemma parseStep_shrinks orig d s d' s' :
  s <> "" -> time.parseStep orig d s = inr (d', s') ->
  (String.length s' < String.length s)%nat.
Proof.
  intros Hs. unfold time.parseStep, time.check.
  destruct s as [|c0 s0]; [contradiction|].
  destruct (Ascii.eqb c0 "." || isDigit c0); [|discriminate].
  destruct (time.leadingInt (String c0 s0)) as [[v s1]|] eqn:E1; [|discriminate].
  apply leadingIntFrom_length in E1.
  destruct (match s1 with
            | String c s'0 =>
                if Ascii.eqb c "." then
                  let pl := String.length s'0 in
                  let '(f, scale, s) := time.leadingFraction s'0 in
                  (f, scale, s, negb (pl =? String.length s)%nat)
                else (0, float64.of_Z 1, s1, false)
            | EmptyString => (0, float64.of_Z 1, s1, false)
            end) as [[[f scale] s2] post] eqn:E2.
  assert (H2 : (String.length s2 <= String.length s1)%nat).
  { destruct s1 as [|c1 s1']; [injection E2 as _ _ <- _; reflexivity|].
    destruct (Ascii.eqb c1 "."); [|injection E2 as _ _ <- _; reflexivity].
    pose proof (leadingFractionFrom_length s1' 0 (float64.of_Z 1) false) as HL.
    unfold time.leadingFraction in E2.
    destruct (time.leadingFractionFrom 0 (float64.of_Z 1) false s1') as [[f' sc'] r'].
    injection E2 as _ _ <- _. cbn [snd String.length] in *. lia. }
  destruct (negb (String.length (String c0 s0) =? String.length s1)%nat || post); [|discriminate].
  pose proof (unitSpan_length s2) as H3.
  destruct (time.unitSpan s2) as [u s3]. cbn [fst snd] in H3.
  destruct (String.eqb_spec u "") as [->|Hu]; [discriminate|]. cbn [negb].
  destruct (time.unitMap !! u) as [unit|]; [|discriminate].
  destruct (negb (v >? two63 / unit)); [|discriminate].
  assert (Hlen : (String.length s3 < String.length (String c0 s0))%nat).
  { destruct u as [|cu u']; [contradiction|]. cbn [String.length] in *. lia. }
  destruct (f >? 0).
  - destruct (negb (_ >? two63)); [|discriminate].
    destruct (negb (_ >? two63)); [|discriminate].
    intros [= _ <-]. exact Hlen.
  - destruct (negb (_ >? two63)); [|discriminate].
    intros [= _ <-]. exact Hlen.
Qed.

Lemma parseLoop_fuel fuel : forall orig d s,
  (String.length s <= fuel)%nat -> time.parseLoop fuel orig d s <> None.
Proof.
  induction fuel as [|fuel IH]; intros orig d s Hlen.
  - destruct s; [discriminate|cbn [String.length] in Hlen; lia].
  - destruct s as [|c s]; [discriminate|].
    cbn [time.parseLoop].
    destruct (time.parseStep orig d (String c s)) as [e|[d' s']] eqn:E; [discriminate|].
    apply parseStep_shrinks in E; [|discriminate].
    apply IH. lia.
Qed.

(** * formatDuration *)

Section FormatDuration.

(** The Unicode part of [strings.ToLower]; every statement below holds
    whatever it does. *)
Variable lower : string -> string.

Lemma formatDuration_unfold duration :
  formatDuration lower duration =
  if hoursOf (parsedDuration lower duration) >? 0 then
    fmt.Sprintf "%d:%02d:%02d"
      [fmt.Int (hoursOf (parsedDuration lower duration));
       fmt.Int (minutesOf (parsedDuration lower duration));
       fmt.Int (secondsOf (parsedDuration lower duration))]
  else
    fmt.Sprintf "%d:%02d"
      [fmt.Int (minutesOf (parsedDuration lower duration));
       fmt.Int (secondsOf (parsedDuration lower duration))].
Proof.
  unfold formatDuration, parsedDuration.
  destruct (time.ParseDuration (durationText lower duration)) as [d err].
  reflexivity.
Qed.

Lemma parsedDuration_range duration :
  - two63 <= parsedDuration lower duration < two63.
Proof. apply ParseDuration_range. Qed.

(** [strings.ToLower] leaves a string of ASCII bytes without capitals as
    it is. *)
Lemma ToLower_empty : strings.ToLower lower "" = "".
Proof. reflexivity. Qed.

(** C4.  A duration string that [time.ParseDuration] rejects (after the
    lower-casing and the removal of "pt"), and the empty string among them,
    is formatted as "0:00"; [formatDuration] returns that string and nothing
    else, the error of the parser being dropped. *)
Theorem formatDuration_malformed duration :
  parseError lower duration <> None \/ duration = "" ->
  formatDuration lower duration = "0:00".
Proof.
  intros H.
  assert (Hd : parsedDuration lower duration = 0).
  { destruct H as [Herr| ->].
    - unfold parseError in Herr. unfold parsedDuration.
      destruct (snd (time.ParseDuration (durationText lower duration))) as [e|] eqn:E;
        [|contradiction].
      exact (ParseDuration_error _ e E).
    - reflexivity. }
  rewrite formatDuration_unfold, Hd.
  vm_compute. reflexivity.
Qed.

(** C3 (as amended).  For a duration string whose parsed value is not
    negative, the three components are an hour count and minutes and seconds
    between 0 and 59, and the hour component is zero exactly when the
    duration is below one hour.  With a zero hour component the result is
    [M:SS]: the minutes unpadded, the seconds with two digits.  With a
    non-zero hour component it is [H:MM:SS]: the hours unpadded, minutes and
    seconds with two digits.  So "PT2M5S" gives "2:05" and "PT1H2M3S" gives
    "1:02:03". *)
Theorem formatDuration_clock :
  (forall duration,
      0 <= parsedDuration lower duration ->
      0 <= hoursOf (parsedDuration lower duration) /\
      0 <= minutesOf (parsedDuration lower duration) <= 59 /\
      0 <= secondsOf (parsedDuration lower duration) <= 59 /\
      (hoursOf (parsedDuration lower duration) = 0 <->
       parsedDuration lower duration < time.Hour) /\
      (hoursOf (parsedDuration lower duration) = 0 ->
       formatDuration lower duration
       = fmt.decimal (minutesOf (parsedDuration lower duration)) +:+ ":"
         +:+ twoDigits (secondsOf (parsedDuration lower duration)) /\
       isClockMS (formatDuration lower duration) = true) /\
      (hoursOf (parsedDuration lower duration) <> 0 ->
       formatDuration lower duration
       = fmt.decimal (hoursOf (parsedDuration lower duration)) +:+ ":"
         +:+ twoDigits (minutesOf (parsedDuration lower duration)) +:+ ":"
         +:+ twoDigits (secondsOf (parsedDuration lower duration)) /\
       isClockHMS (formatDuration lower duration) = true)) /\
  formatDuration lower "PT2M5S" = "2:05" /\
  formatDuration lower "PT1H2M3S" = "1:02:03".
Proof.
  split; [|split; vm_compute; reflexivity].
  intros duration Hd.
  pose proof (parsedDuration_range duration) as Hr.
  set (d := parsedDuration lower duration) in *.
  assert (Hd' : 0 <= d < two63) by lia.
  pose proof (hoursOf_nonneg d Hd') as Hh.
  pose proof (minutesOf_range d Hd') as Hm.
  pose proof (secondsOf_range d Hd') as Hs.
  split; [exact Hh|]. split; [exact Hm|]. split; [exact Hs|].
  split; [exact (hoursOf_zero_iff d Hd')|].
  split.
  - intros Hz.
    assert (E : formatDuration lower duration
                = fmt.decimal (minutesOf d) +:+ ":" +:+ twoDigits (secondsOf d)).
    { rewrite formatDuration_unfold. fold d. rewrite Hz.
      change (0 >? 0) with false. cbv iota.
      rewrite Sprintf_clock_ms, fmtInteger_plain, fmtInteger_two by lia.
      reflexivity. }
    split; [exact E|]. rewrite E.
    apply isClockMS_intro; [apply decimal_unpadded|apply twoDigits_shape]; lia.
  - intros Hnz.
    assert (E : formatDuration lower duration
                = fmt.decimal (hoursOf d) +:+ ":" +:+ twoDigits (minutesOf d) +:+ ":"
                  +:+ twoDigits (secondsOf d)).
    { rewrite formatDuration_unfold. fold d.
      replace (hoursOf d >? 0) with true by (symmetry; apply Z.gtb_lt; lia).
      rewrite Sprintf_clock_hms, fmtInteger_plain, !fmtInteger_two by lia.
      reflexivity. }
    split; [exact E|]. rewrite E.
    apply isClockHMS_intro;
      [apply decimal_unpadded|apply twoDigits_shape|apply twoDigits_shape]; lia.
Qed.

(** Below 1024 hours the components are the hours, minutes and seconds of
    the duration, so the result is its clock reading, the fraction of a
    second dropped.  (At 4096 hours and more the sum in [Hours] can round up
    to the next hour: see [formatDuration_rounds_up].) *)
Lemma formatDuration_reading duration :
  0 <= parsedDuration lower duration < 1024 * time.Hour ->
  hoursOf (parsedDuration lower duration) = parsedDuration lower duration / time.Hour /\
  minutesOf (parsedDuration lower duration)
  = (parsedDuration lower duration / time.Minute) mod 60 /\
  secondsOf (parsedDuration lower duration)
  = (parsedDuration lower duration / time.Second) mod 60.
Proof.
  intros Hd. split; [apply hoursOf_exact; exact Hd|].
  split; [apply minutesOf_exact; exact Hd|apply secondsOf_exact; exact Hd].
Qed.

(** A duration one nanosecond short of 4097 hours is shown as 4097:59:59. *)
Lemma formatDuration_rounds_up :
  parsedDuration lower "PT4096H59M59.999999999S" = 4097 * time.Hour - 1 /\
  formatDuration lower "PT4096H59M59.999999999S" = "4097:59:59".
Proof. split; vm_compute; reflexivity. Qed.

(** ** The text handed to the parser *)

Lemma prefix_pt a b r :
  String.prefix "pt" (String a (String b r)) = Ascii.eqb a "p" && Ascii.eqb b "t".
Proof.
  cbn [String.prefix].
  destruct (ascii_dec "p" a) as [<-|Ha].
  - destruct (ascii_dec "t" b) as [<-|Hb]; [now destruct r|].
    destruct (Ascii.eqb_spec b "t") as [->|]; [contradiction|reflexivity].
  - destruct (Ascii.eqb_spec a "p") as [->|]; [contradiction|reflexivity].
Qed.

Lemma replaceFrom_deletePT s :
  strings.replaceFrom "pt" "" 0 s = deletePT s /\
  forall a, strings.replaceFrom "pt" "" 0 (String a s) = deletePT (String a s).
Proof.
  induction s as [|b r [IH1 IH2]].
  - split; [reflexivity|]. intros a. cbn [strings.replaceFrom deletePT String.prefix].
    destruct (ascii_dec "p" a); reflexivity.
  - split; [apply IH2|]. intros a.
    change (strings.replaceFrom "pt" "" 0 (String a (String b r)))
      with (if String.prefix "pt" (String a (String b r))
            then "" +:+ strings.replaceFrom "pt" "" 0 r
            else String a (strings.replaceFrom "pt" "" 0 (String b r))).
    rewrite prefix_pt.
    change (deletePT (String a (String b r)))
      with (if Ascii.eqb a "p" && Ascii.eqb b "t" then deletePT r
            else String a (deletePT (String b r))).
    destruct (Ascii.eqb a "p" && Ascii.eqb b "t").
    + exact IH1.
    + now rewrite IH2.
Qed.

Lemma ReplaceAll_pt s : strings.ReplaceAll s "pt" "" = deletePT s.
Proof. apply replaceFrom_deletePT. Qed.

Lemma deletePT_absent s :
  (strings.Contains s "pt" = false -> deletePT s = s) /\
  forall a, strings.Contains (String a s) "pt" = false -> deletePT (String a s) = String a s.
Proof.
  induction s as [|b r [IH1 IH2]].
  - split; [reflexivity|]. intros a _. reflexivity.
  - split; [apply IH2|]. intros a.
    change (strings.Contains (String a (String b r)) "pt")
      with (String.prefix "pt" (String a (String b r)) || strings.Contains (String b r) "pt").
    rewrite prefix_pt.
    change (deletePT (String a (String b r)))
      with (if Ascii.eqb a "p" && Ascii.eqb b "t" then deletePT r
            else String a (deletePT (String b r))).
    destruct (Ascii.eqb a "p" && Ascii.eqb b "t"); [discriminate|].
    cbn [orb]. intros H. now rewrite (IH2 b H).
Qed.

(** C5 (as amended).  The parsing step lower-cases the string and deletes
    every occurrence of "pt", wherever it stands, scanning from the left;
    what is left is parsed.  For a string whose lower-case form has "pt" at
    its front and nowhere else this is the removal of that one prefix, and a
    string without "pt" is only lower-cased. *)
Theorem durationText_deletes_pt duration :
  durationText lower duration = deletePT (strings.ToLower lower duration) /\
  (forall rest,
      strings.ToLower lower duration = "pt" +:+ rest ->
      strings.Contains rest "pt" = false ->
      durationText lower duration = rest /\
      prefixStripped lower duration = rest) /\
  (strings.Contains (strings.ToLower lower duration) "pt" = false ->
   durationText lower duration = strings.ToLower lower duration).
Proof.
  unfold durationText, prefixStripped. rewrite ReplaceAll_pt.
  split; [reflexivity|]. split.
  - intros rest -> Hrest. split.
    + change (deletePT ("pt" +:+ rest)) with (deletePT rest).
      now apply deletePT_absent.
    + unfold strings.TrimPrefix.
      change ("pt" +:+ rest) with (String "p" (String "t" rest)).
      rewrite prefix_pt. reflexivity.
  - intros H. now apply deletePT_absent.
Qed.

End FormatDuration.

(** ** Instances *)

(** The malformed string "1 hour" is formatted as "0:00". *)
Lemma formatDuration_malformed_witness :
  parseError asciiLower "1 hour" <> None /\
  formatDuration asciiLower "1 hour" = "0:00".
Proof.
  assert (H : parseError asciiLower "1 hour" <> None) by (vm_compute; discriminate).
  split; [exact H|].
  exact (formatDuration_malformed asciiLower "1 hour" (or_introl H)).
Defined.

(** "PT1H2M3S" has a non-zero hour component and is formatted as [H:MM:SS];
    "PT2M5S" has a zero hour component and is formatted as [M:SS]. *)
Lemma formatDuration_clock_witness :
  (0 <= parsedDuration asciiLower "PT1H2M3S" /\
   hoursOf (parsedDuration asciiLower "PT1H2M3S") <> 0 /\
   isClockHMS (formatDuration asciiLower "PT1H2M3S") = true) /\
  (0 <= parsedDuration asciiLower "PT2M5S" /\
   hoursOf (parsedDuration asciiLower "PT2M5S") = 0 /\
   isClockMS (formatDuration asciiLower "PT2M5S") = true).
Proof.
  assert (Hd1 : 0 <= parsedDuration asciiLower "PT1H2M3S") by (vm_compute; discriminate).
  assert (Hh1 : hoursOf (parsedDuration asciiLower "PT1H2M3S") <> 0)
    by (vm_compute; discriminate).
  assert (Hd2 : 0 <= parsedDuration asciiLower "PT2M5S") by (vm_compute; discriminate).
  assert (Hh2 : hoursOf (parsedDuration asciiLower "PT2M5S") = 0)
    by (vm_compute; reflexivity).
  split.
  - split; [exact Hd1|]. split; [exact Hh1|].
    destruct (proj1 (formatDuration_clock asciiLower) "PT1H2M3S" Hd1)
      as (_ & _ & _ & _ & _ & H).
    exact (proj2 (H Hh1)).
  - split; [exact Hd2|]. split; [exact Hh2|].
    destruct (proj1 (formatDuration_clock asciiLower) "PT2M5S" Hd2)
      as (_ & _ & _ & _ & H & _).
    exact (proj2 (H Hh2)).
Defined.

(** C3 as it was stated fails on negative durations.  "PT-1M5S" parses to
    minus 65 seconds: the hour component is zero and the result is "-1:-5",
    which is not [M:SS].  "PT-1H" parses to minus one hour: the hour
    component is -1, not zero, and the result is "0:00", which is not
    [H:MM:SS]. *)
Lemma formatDuration_negative_counterexample :
  (forall lower,
      parsedDuration lower "PT-1M5S" = -65000000000 /\
      hoursOf (parsedDuration lower "PT-1M5S") = 0 /\
      formatDuration lower "PT-1M5S" = "-1:-5") /\
  isClockMS "-1:-5" = false /\
  (forall lower,
      parsedDuration lower "PT-1H" = -3600000000000 /\
      hoursOf (parsedDuration lower "PT-1H") = -1 /\
      formatDuration lower "PT-1H" = "0:00") /\
  isClockHMS "0:00" = false.
Proof.
  split; [intros lower; repeat split; vm_compute; reflexivity|].
  split; [vm_compute; reflexivity|].
  split; [intros lower; repeat split; vm_compute; reflexivity|].
  vm_compute; reflexivity.
Qed.

(** "PT1H2M3S": the lower-case form is "pt1h2m3s", with "pt" at the front
    only, and the parser gets "1h2m3s". *)
Lemma durationText_deletes_pt_witness :
  strings.ToLower asciiLower "PT1H2M3S" = "pt" +:+ "1h2m3s" /\
  strings.Contains "1h2m3s" "pt" = false /\
  durationText asciiLower "PT1H2M3S" = "1h2m3s" /\
  prefixStripped asciiLower "PT1H2M3S" = "1h2m3s".
Proof.
  assert (H1 : strings.ToLower asciiLower "PT1H2M3S" = "pt" +:+ "1h2m3s")
    by (vm_compute; reflexivity).
  assert (H2 : strings.Contains "1h2m3s" "pt" = false) by (vm_compute; reflexivity).
  split; [exact H1|]. split; [exact H2|].
  exact (proj1 (proj2 (durationText_deletes_pt asciiLower "PT1H2M3S")) "1h2m3s" H1 H2).
Defined.

(** C5 as it was stated fails on a string with "pt" past the front.  For
    "PT1HPT2M" the removal of one prefix would leave "1hpt2m" to the parser,
    which rejects it; the program hands it "1h2m" and formats 1:02:00. *)
Lemma durationText_prefix_counterexample :
  (forall lower,
      durationText lower "PT1HPT2M" = "1h2m" /\
      prefixStripped lower "PT1HPT2M" = "1hpt2m" /\
      formatDuration lower "PT1HPT2M" = "1:02:00") /\
  strings.Contains "1hpt2m" "pt" = true /\
  strings.Contains "1h2m" "pt" = false /\
  snd (time.ParseDuration "1hpt2m") = Some (time.unknownUnit "hpt" "1hpt2m").
Proof.
  split; [intros lower; repeat split; vm_compute; reflexivity|].
  repeat split; vm_compute; reflexivity.
Qed.

(** * formatDuration on the durations of the API *)

Lemma decimalValue_ge s : forall x, 0 <= x -> string_forallb isDigit s = true ->
  x <= decimalValue x s.
Proof.
  induction s as [|c s IH]; intros x Hx; cbn [decimalValue string_forallb]; [lia|].
  intros [Hc Hs]%andb_true_iff.
  unfold isDigit in Hc. apply andb_true_iff in Hc as [H1%Z.leb_le H2%Z.leb_le].
  etransitivity; [|apply IH; [lia|exact Hs]]. lia.
Qed.

(** [leadingInt] reads a decimal numeral up to the first byte that is not a
    digit. *)
Lemma leadingIntFrom_digits s : forall x c rest,
  0 <= x -> string_forallb isDigit s = true -> isDigit c = false ->
  decimalValue x s < 2 ^ 62 ->
  time.leadingIntFrom x (s +:+ String c rest) = Some (decimalValue x s, String c rest).
Proof.
  induction s as [|a s IH]; intros x c rest Hx Hs Hc Hv.
  - change ("" +:+ String c rest) with (String c rest).
    cbn [time.leadingIntFrom decimalValue]. rewrite Hc. reflexivity.
  - cbn [string_forallb] in Hs. apply andb_true_iff in Hs as [Ha Hs].
    change (String a s +:+ String c rest) with (String a (s +:+ String c rest)).
    cbn [time.leadingIntFrom decimalValue] in *. rewrite Ha. cbn [negb].
    assert (Hd : 48 <= byte_val a <= 57).
    { unfold isDigit in Ha. apply andb_true_iff in Ha as [H1%Z.leb_le H2%Z.leb_le]. lia. }
    pose proof (decimalValue_ge s (x * 10 + (byte_val a - 48)) ltac:(lia) Hs) as Hge.
    assert (Hx' : x * 10 + (byte_val a - 48) < 2 ^ 62) by lia.
    replace (x >? two63 / 10) with false
      by (symmetry; rewrite Z.gtb_ltb; apply Z.ltb_ge; change (two63 / 10) with 922337203685477580;
          change (2 ^ 62) with 4611686018427387904 in Hx'; lia).
    assert (Hu : u64 (u64 (x * 10 + byte_val a) - 48) = x * 10 + (byte_val a - 48)).
    { unfold u64. change (2 ^ 62) with 4611686018427387904 in Hx'.
      rewrite (Z.mod_small (x * 10 + byte_val a)) by (unfold two64; lia).
      rewrite Z.mod_small by (unfold two64; lia). lia. }
    rewrite Hu.
    replace (x * 10 + (byte_val a - 48) >? two63) with false
      by (symmetry; rewrite Z.gtb_ltb; apply Z.ltb_ge; change (2 ^ 62) with 4611686018427387904 in Hx';
          unfold two63; lia).
    apply IH; [lia|exact Hs|exact Hc|exact Hv].
Qed.

Lemma decimal_digits z : 0 <= z -> string_forallb isDigit (fmt.decimal z) = true.
Proof. intros Hz. apply digits_all; [exact Hz|reflexivity]. Qed.

Lemma decimal_head z : 0 <= z ->
  exists c r, fmt.decimal z = String c r /\ isDigit c = true.
Proof.
  intros Hz. pose proof (decimal_digits z Hz) as Hd.
  pose proof (decimal_unpadded z Hz) as Hu.
  destruct (fmt.decimal z) as [|c r]; [discriminate Hu|].
  exists c, r. split; [reflexivity|].
  cbn [string_forallb] in Hd. now apply andb_true_iff in Hd.
Qed.

Lemma leadingInt_decimal n c rest :
  0 <= n < 2 ^ 62 -> isDigit c = false ->
  time.leadingInt (fmt.decimal n +:+ String c rest) = Some (n, String c rest).
Proof.
  intros Hn Hc. unfold time.leadingInt.
  rewrite leadingIntFrom_digits;
    [now rewrite decimal_value by lia|lia|apply decimal_digits; lia|exact Hc|].
  rewrite decimal_value by lia. lia.
Qed.

Lemma append_length (a b : string) :
  String.length (a +:+ b) = (String.length a + String.length b)%nat.
Proof.
  induction a as [|c a IH]; [reflexivity|].
  change (String c a +:+ b) with (String c (a +:+ b)). cbn [String.length].
  now rewrite IH.
Qed.

Lemma unitLetter_lower u :
  isDigit (unitLetter false u) = false /\
  Ascii.eqb (unitLetter false u) "." = false /\
  (time.unitMap !! String (unitLetter false u) "" : option Z) = Some (unitDuration u).
Proof. destruct u; repeat split; vm_compute; reflexivity. Qed.

Lemma components_head l : l <> [] -> Forall (fun p => 0 <= fst p) l ->
  exists c r, components false l = String c r /\ isDigit c = true.
Proof.
  destruct l as [|[n u] l]; [contradiction|]. intros _ Hl.
  inversion Hl as [|? ? Hn _]; subst. cbn [fst] in Hn.
  destruct (decimal_head n Hn) as (c & r & E & Hc).
  exists c. eexists. cbn [components]. rewrite E. split; [reflexivity|exact Hc].
Qed.

Lemma unitSpan_component u l : Forall (fun p => 0 <= fst p) l ->
  time.unitSpan (String (unitLetter false u) (components false l))
  = (String (unitLetter false u) "", components false l).
Proof.
  intros Hl. destruct (unitLetter_lower u) as (Hd & Hp & _).
  cbn [time.unitSpan]. rewrite Hd, Hp. cbn [orb].
  destruct l as [|p l].
  - reflexivity.
  - destruct (components_head (p :: l) ltac:(discriminate) Hl) as (c & r & E & Hc).
    rewrite E. cbn [time.unitSpan]. rewrite Hc, orb_true_r. reflexivity.
Qed.

Lemma gtb_false a b : a <= b -> (a >? b) = false.
Proof. intros H. rewrite Z.gtb_ltb. apply Z.ltb_ge. exact H. Qed.

Lemma unitDuration_bounds u : 1000000000 <= unitDuration u <= 3600000000000.
Proof. destruct u; vm_compute; split; discriminate. Qed.

Lemma totalDuration_nonneg l : Forall (fun p => 0 <= fst p) l -> 0 <= totalDuration l.
Proof.
  induction 1 as [|[n u] l Hn _ IH]; cbn [totalDuration fst] in *; [lia|].
  pose proof (unitDuration_bounds u). nia.
Qed.

(** One round of the parser on a count and its unit. *)
Lemma parseStep_component orig d n u l :
  0 <= d -> 0 <= n -> Forall (fun p => 0 <= fst p) l ->
  d + n * unitDuration u < 2 ^ 62 ->
  time.parseStep orig d (components false ((n, u) :: l))
  = inr (d + n * unitDuration u, components false l).
Proof.
  intros Hd Hn Hl Hb. pose proof (unitDuration_bounds u) as Hu.
  destruct (unitLetter_lower u) as (Hdig & Hdot & Hmap).
  change (2 ^ 62) with 4611686018427387904 in Hb.
  assert (Hn62 : 0 <= n < 2 ^ 62) by (change (2 ^ 62) with 4611686018427387904; nia).
  cbn [components].
  pose proof (leadingInt_decimal n (unitLetter false u) (components false l) Hn62 Hdig) as Hint.
  pose proof (append_length (fmt.decimal n)
                (String (unitLetter false u) (components false l))) as Hlen.
  destruct (decimal_head n Hn) as (c & r & E & Hc).
  set (s := fmt.decimal n +:+ String (unitLetter false u) (components false l)) in *.
  assert (Es : s = String c (r +:+ String (unitLetter false u) (components false l)))
    by (unfold s; rewrite E; reflexivity).
  unfold time.parseStep. rewrite Hint.
  replace (match s with String c0 _ => Ascii.eqb c0 "." || isDigit c0 | "" => false end)
    with true by (rewrite Es, Hc, orb_true_r; reflexivity).
  cbn [time.check]. rewrite Hdot.
  replace (negb (String.length s =? String.length
                   (String (unitLetter false u) (components false l)))%nat)
    with true.
  2:{ symmetry. apply negb_true_iff, Nat.eqb_neq. rewrite Hlen, E. cbn [String.length]. lia. }
  cbn [orb time.check]. rewrite (unitSpan_component u l Hl).
  cbn [String.eqb negb time.check]. rewrite Hmap.
  rewrite gtb_false by (apply Z.div_le_lower_bound; [lia|unfold two63; nia]).
  cbn [negb time.check Z.gtb Z.compare].
  assert (Hv : u64 (n * unitDuration u) = n * unitDuration u)
    by (unfold u64; apply Z.mod_small; unfold two64; nia).
  rewrite Hv.
  assert (Hs : u64 (d + n * unitDuration u) = d + n * unitDuration u)
    by (unfold u64; apply Z.mod_small; unfold two64; nia).
  rewrite Hs, gtb_false by (unfold two63; lia). reflexivity.
Qed.

(** The loop adds up the components, whatever fuel is left over. *)
Lemma parseLoop_components orig l : forall fuel d,
  0 <= d -> Forall (fun p => 0 <= fst p) l ->
  d + totalDuration l < 2 ^ 62 ->
  (String.length (components false l) <= fuel)%nat ->
  time.parseLoop fuel orig d (components false l) = Some (inr (d + totalDuration l)).
Proof.
  induction l as [|[n u] l IH]; intros fuel d Hd Hl Hb Hfuel.
  - cbn [components totalDuration]. rewrite Z.add_0_r. destruct fuel; reflexivity.
  - inversion Hl as [|? ? Hn Hl']; subst. cbn [fst] in Hn.
    pose proof (totalDuration_nonneg l Hl') as Ht.
    pose proof (unitDuration_bounds u) as Hu.
    cbn [totalDuration] in *.
    assert (Hstep := parseStep_component orig d n u l Hd Hn Hl' ltac:(lia)).
    destruct (components_head ((n, u) :: l) ltac:(discriminate) Hl) as (c & r & E & _).
    assert (Hlen : (String.length (components false l)
                    < String.length (components false ((n, u) :: l)))%nat).
    { cbn [components]. rewrite append_length. cbn [String.length]. lia. }
    rewrite E in *. destruct fuel as [|fuel]; [cbn [String.length] in Hfuel; lia|].
    cbn [time.parseLoop]. rewrite Hstep.
    rewrite IH; [f_equal; f_equal; lia|nia|exact Hl'|lia|lia].
Qed.

Lemma isDigit_range c : isDigit c = true -> 48 <= byte_val c <= 57.
Proof.
  unfold isDigit. intros [H1%Z.leb_le H2%Z.leb_le]%andb_true_iff. lia.
Qed.

Lemma isDigit_not c a : isDigit a = false -> isDigit c = true -> Ascii.eqb c a = false.
Proof.
  intros Ha Hc. destruct (Ascii.eqb_spec c a) as [->|]; [congruence|reflexivity].
Qed.

(** [time.ParseDuration] on a sequence of counts and units. *)
Lemma ParseDuration_components l :
  l <> [] -> Forall (fun p => 0 <= fst p) l -> totalDuration l < 2 ^ 62 ->
  time.ParseDuration (components false l) = (totalDuration l, None).
Proof.
  intros Hne Hl Hb. pose proof (totalDuration_nonneg l Hl) as Ht.
  pose proof (parseLoop_components (components false l) l
                (String.length (components false l)) 0 ltac:(lia) Hl ltac:(lia) ltac:(lia))
    as Hloop.
  destruct l as [|[n u] l]; [contradiction|].
  destruct (components_head _ Hne Hl) as (c & r & E & Hc).
  assert (Hr : r <> "").
  { intros ->. cbn [components] in E.
    assert (Hlen := f_equal String.length E). rewrite append_length in Hlen.
    inversion Hl as [|? ? Hn _]; subst. cbn [fst] in Hn.
    destruct (decimal_head n Hn) as (c' & r' & E' & _). rewrite E' in Hlen.
    cbn [String.length] in Hlen. lia. }
  unfold time.ParseDuration. rewrite E in *.
  rewrite (isDigit_not c "-"), (isDigit_not c "+") by (exact Hc || reflexivity).
  cbn [orb]. 
  replace (String.eqb (String c r) "0") with false
    by (cbn [String.eqb]; destruct (Ascii.eqb c "0"); [destruct r; [contradiction|]|]; reflexivity).
  cbn [String.eqb]. rewrite Z.add_0_l in Hloop. rewrite Hloop.
  rewrite gtb_false by (change (2 ^ 62) with 4611686018427387904 in Hb; unfold two63; lia).
  rewrite i64_small by (change (2 ^ 62) with 4611686018427387904 in Hb; unfold two63; lia).
  reflexivity.
Qed.

Lemma string_forallb_app p a b :
  string_forallb p (a +:+ b) = string_forallb p a && string_forallb p b.
Proof.
  induction a as [|c a IH]; [reflexivity|].
  change (String c a +:+ b) with (String c (a +:+ b)). cbn [string_forallb].
  rewrite IH. apply andb_assoc.
Qed.

Lemma string_forallb_mono (p q : ascii -> bool) s :
  (forall c, p c = true -> q c = true) ->
  string_forallb p s = true -> string_forallb q s = true.
Proof.
  intros Hpq. induction s as [|c s IH]; cbn [string_forallb]; [reflexivity|].
  intros [Hc Hs]%andb_true_iff. rewrite (Hpq c Hc), (IH Hs). reflexivity.
Qed.

Lemma string_map_app f a b : string_map f (a +:+ b) = string_map f a +:+ string_map f b.
Proof.
  induction a as [|c a IH]; [reflexivity|].
  change (String c a +:+ b) with (String c (a +:+ b)). cbn [string_map].
  rewrite IH. reflexivity.
Qed.

Lemma string_map_fixed f (p : ascii -> bool) s :
  (forall c, p c = true -> f c = c) -> string_forallb p s = true -> string_map f s = s.
Proof.
  intros Hf. induction s as [|c s IH]; cbn [string_forallb string_map]; [reflexivity|].
  intros [Hc Hs]%andb_true_iff. rewrite (Hf c Hc), (IH Hs). reflexivity.
Qed.

Lemma lowerByte_digit c : isDigit c = true -> lowerByte c = c.
Proof.
  intros Hc%isDigit_range. unfold lowerByte, isUpperASCII.
  replace (65 <=? byte_val c) with false by (symmetry; apply Z.leb_gt; lia). reflexivity.
Qed.

Lemma unitLetter_upper u :
  lowerByte (unitLetter true u) = unitLetter false u /\
  (byte_val (unitLetter true u) <? RuneSelf) = true /\
  negb (Ascii.eqb (unitLetter false u) "p") = true.
Proof. destruct u; repeat split; vm_compute; reflexivity. Qed.

(** Lower-casing the components changes the unit letters only. *)
Lemma components_lower l : Forall (fun p => 0 <= fst p) l ->
  string_map lowerByte (components true l) = components false l /\
  string_forallb (fun c => byte_val c <? RuneSelf) (components true l) = true /\
  string_forallb (fun c => negb (Ascii.eqb c "p")) (components false l) = true.
Proof.
  induction 1 as [|[n u] l Hn _ (IH1 & IH2 & IH3)]; [repeat split|].
  cbn [fst] in Hn. cbn [components].
  destruct (unitLetter_upper u) as (Hu1 & Hu2 & Hu3).
  pose proof (decimal_digits n Hn) as Hd.
  split; [|split].
  - rewrite string_map_app. cbn [string_map]. rewrite Hu1, IH1.
    rewrite (string_map_fixed lowerByte isDigit _ lowerByte_digit Hd). reflexivity.
  - rewrite string_forallb_app. cbn [string_forallb]. rewrite Hu2, IH2.
    rewrite (string_forallb_mono isDigit _ (fmt.decimal n)); [reflexivity| |exact Hd].
    intros c Hc%isDigit_range. apply Z.ltb_lt. unfold RuneSelf. lia.
  - rewrite string_forallb_app. cbn [string_forallb]. rewrite Hu3, IH3.
    rewrite (string_forallb_mono isDigit _ (fmt.decimal n)); [reflexivity| |exact Hd].
    intros c Hc. rewrite (isDigit_not c "p"); [reflexivity|reflexivity|exact Hc].
Qed.

Lemma Contains_pt_absent s :
  string_forallb (fun c => negb (Ascii.eqb c "p")) s = true ->
  strings.Contains s "pt" = false.
Proof.
  induction s as [|a r IH]; [reflexivity|]. cbn [string_forallb].
  intros [Ha%negb_true_iff Hr]%andb_true_iff.
  change (strings.Contains (String a r) "pt")
    with (String.prefix "pt" (String a r) || strings.Contains r "pt").
  rewrite (IH Hr), orb_false_r.
  destruct r as [|b r]; [|rewrite prefix_pt, Ha; reflexivity].
  cbn [String.prefix]. destruct (ascii_dec "p" a); reflexivity.
Qed.

Lemma clock_quotient d u q r : 0 < u -> d = q * u + r -> 0 <= r < u -> d / u = q.
Proof. intros Hu -> Hr. symmetry. apply (Z.div_unique _ u q r); lia. Qed.

(** The clock reading of [h] hours, [m] minutes and [s] seconds. *)
Lemma clockReading_hms h m s :
  0 <= h -> 0 <= m < 60 -> 0 <= s < 60 ->
  clockReading (h * time.Hour + m * time.Minute + s * time.Second)
  = if h =? 0 then fmt.decimal m +:+ ":" +:+ twoDigits s
    else fmt.decimal h +:+ ":" +:+ twoDigits m +:+ ":" +:+ twoDigits s.
Proof.
  intros Hh Hm Hs. unfold clockReading.
  set (d := h * time.Hour + m * time.Minute + s * time.Second).
  assert (EH : d / time.Hour = h).
  { apply (clock_quotient d time.Hour h (m * time.Minute + s * time.Second));
      unfold d, time.Hour, time.Minute, time.Second, time.Millisecond,
        time.Microsecond, time.Nanosecond in *; lia. }
  assert (EM : d / time.Minute = h * 60 + m).
  { apply (clock_quotient d time.Minute (h * 60 + m) (s * time.Second));
      unfold d, time.Hour, time.Minute, time.Second, time.Millisecond,
        time.Microsecond, time.Nanosecond in *; lia. }
  assert (ES : d / time.Second = (h * 60 + m) * 60 + s).
  { apply (clock_quotient d time.Second ((h * 60 + m) * 60 + s) 0);
      unfold d, time.Hour, time.Minute, time.Second, time.Millisecond,
        time.Microsecond, time.Nanosecond in *; lia. }
  rewrite EH, EM, ES.
  replace ((h * 60 + m) mod 60) with m
    by (apply (Z.mod_unique _ 60 h m); lia).
  replace (((h * 60 + m) * 60 + s) mod 60) with s
    by (apply (Z.mod_unique _ 60 (h * 60 + m) s); lia).
  reflexivity.
Qed.

Section ApiDuration.

Variable lower : string -> string.

(** What the parser is given for a duration of the API: the components
    with their letters in lower case, the [PT] gone. *)
Lemma durationText_api l : Forall (fun p => 0 <= fst p) l ->
  durationText lower (apiDuration l) = components false l.
Proof.
  intros Hl. destruct (components_lower l Hl) as (H1 & H2 & H3).
  unfold durationText. rewrite ReplaceAll_pt. unfold apiDuration, strings.ToLower.
  change ("PT" +:+ components true l) with (String "P" (String "T" (components true l))).
  cbn [string_forallb string_existsb]. rewrite H2.
  change (isUpperASCII "P") with true. cbn [andb orb negb].
  change (byte_val "P" <? RuneSelf) with true. change (byte_val "T" <? RuneSelf) with true.
  cbn [andb string_map]. rewrite H1.
  change (lowerByte "P") with "p"%char. change (lowerByte "T") with "t"%char.
  cbn [deletePT Ascii.eqb Bool.eqb andb].
  apply (proj1 (deletePT_absent _)), Contains_pt_absent, H3.
Qed.

(** For the durations of the API ([PT], then counts with the units H, M and
    S) that stay below 1024 hours, [formatDuration] parses the sum of the
    components without an error and returns its clock reading. *)
Lemma formatDuration_api l :
  l <> [] -> Forall (fun p => 0 <= fst p) l -> totalDuration l < 1024 * time.Hour ->
  parsedDuration lower (apiDuration l) = totalDuration l /\
  parseError lower (apiDuration l) = None /\
  formatDuration lower (apiDuration l) = clockReading (totalDuration l).
Proof.
  intros Hne Hl Hb. pose proof (totalDuration_nonneg l Hl) as Ht.
  assert (HP : time.ParseDuration (durationText lower (apiDuration l))
               = (totalDuration l, None)).
  { rewrite (durationText_api l Hl). apply ParseDuration_components; [exact Hne|exact Hl|].
    eapply Z.lt_trans; [exact Hb|reflexivity]. }
  assert (Hd : parsedDuration lower (apiDuration l) = totalDuration l)
    by (unfold parsedDuration; rewrite HP; reflexivity).
  split; [exact Hd|]. split; [unfold parseError; rewrite HP; reflexivity|].
  rewrite (formatDuration_unfold lower), Hd.
  rewrite hoursOf_exact, minutesOf_exact, secondsOf_exact by lia.
  unfold clockReading.
  assert (Hh : 0 <= totalDuration l / time.Hour) by (apply Z.div_pos; [lia|reflexivity]).
  pose proof (Z.mod_pos_bound (totalDuration l / time.Minute) 60 ltac:(lia)) as Hm.
  pose proof (Z.mod_pos_bound (totalDuration l / time.Second) 60 ltac:(lia)) as Hs.
  destruct (Z.eqb_spec (totalDuration l / time.Hour) 0) as [E|E].
  - rewrite E. cbn [Z.gtb Z.compare].
    rewrite Sprintf_clock_ms, fmtInteger_plain, fmtInteger_two by lia. reflexivity.
  - rewrite (proj2 (Z.gtb_lt _ _)) by lia.
    rewrite Sprintf_clock_hms, fmtInteger_plain, !fmtInteger_two by lia. reflexivity.
Qed.

(** [PT] with hours, minutes and seconds all written out. *)
Lemma formatDuration_hms h m s :
  0 <= h < 1023 -> 0 <= m < 60 -> 0 <= s < 60 ->
  formatDuration lower (apiDuration [(h, UnitH); (m, UnitM); (s, UnitS)])
  = if h =? 0 then fmt.decimal m +:+ ":" +:+ twoDigits s
    else fmt.decimal h +:+ ":" +:+ twoDigits m +:+ ":" +:+ twoDigits s.
Proof.
  intros Hh Hm Hs. rewrite <- clockReading_hms by lia.
  replace (h * time.Hour + m * time.Minute + s * time.Second)
    with (totalDuration [(h, UnitH); (m, UnitM); (s, UnitS)])
    by (cbn [totalDuration unitDuration]; lia).
  apply formatDuration_api; [discriminate|repeat constructor; cbn [fst]; lia|].
  cbn [totalDuration unitDuration].
  unfold time.Hour, time.Minute, time.Second, time.Millisecond,
    time.Microsecond, time.Nanosecond. lia.
Qed.

End ApiDuration.

Lemma formatDuration_api_samples :
  apiDuration [(1, UnitH); (2, UnitM); (3, UnitS)] = "PT1H2M3S" /\
  apiDuration [(2, UnitM); (5, UnitS)] = "PT2M5S" /\
  apiDuration [(1, UnitH)] = "PT1H" /\
  clockReading (totalDuration [(1, UnitH)]) = "1:00:00" /\
  clockReading (totalDuration [(45, UnitS)]) = "0:45".
Proof. repeat split; vm_compute; reflexivity. Qed.

(** * searchYouTube *)

(** ** The two loops

    Each loop appends to a slice and panics at the first item it cannot
    read; its outcome is that of [idsOf] and [recordsOf]. *)

Lemma collect_ids items : forall acc,
  foldl (fun videoIDs item =>
           videoIDs ← videoIDs;
           item ← deref item;
           id ← deref (youtube.SearchResult_Id item);
           mret (videoIDs ++ [youtube.VideoId id]))
    (Returned acc) items
  = (ids ← idsOf items; Returned (acc ++ ids)).
Proof.
  induction items as [|item items IH]; intros acc; cbn [foldl idsOf].
  - cbn. now rewrite app_nil_r.
  - destruct item as [[[id|]]|]; cbn.
    + rewrite IH. destruct (idsOf items) as [ids|v]; cbn; [|reflexivity].
      now rewrite <- app_assoc.
    + clear. induction items as [|item items IH]; [reflexivity|exact IH].
    + clear. induction items as [|item items IH]; [reflexivity|exact IH].
Qed.

Section Adapter.

Variable lower : string -> string.
Variable api : youtube.API.

Lemma collect_records items : forall acc,
  foldl (fun videos item =>
           videos ← videos;
           video ← videoOf lower item;
           mret (videos ++ [video]))
    (Returned acc) items
  = (videos ← recordsOf lower items; Returned (acc ++ videos)).
Proof.
  induction items as [|item items IH]; intros acc; cbn [foldl recordsOf].
  - cbn. now rewrite app_nil_r.
  - destruct (videoOf lower item) as [video|v] eqn:E;
      cbn -[videoOf]; rewrite ?E; cbn -[videoOf].
    + rewrite IH. destruct (recordsOf lower items) as [videos|v]; cbn; [|reflexivity].
      now rewrite <- app_assoc.
    + clear. induction items as [|item items IH]; [reflexivity|exact IH].
Qed.

(** ** Items that can be read, and items that cannot *)

Lemma videoOf_fields item video :
  videoOf lower (Some item) = Returned video ->
  exists snippet details,
    youtube.Snippet item = Some snippet /\
    youtube.ContentDetails item = Some details /\
    video !! "id" = Some (youtube.Id item) /\
    video !! "title" = Some (youtube.Title snippet) /\
    video !! "channel" = Some (youtube.ChannelTitle snippet) /\
    video !! "duration" = Some (formatDuration lower (youtube.Duration details)) /\
    dom video = ({[ "id"; "title"; "channel"; "duration" ]} : gset string).
Proof.
  unfold videoOf. cbn.
  destruct (youtube.Snippet item) as [snippet|]; cbn; [|discriminate].
  destruct (youtube.ContentDetails item) as [details|]; cbn; [|discriminate].
  intros [= <-]. exists snippet, details.
  do 2 (split; [reflexivity|]).
  do 4 (split; [by simplify_map_eq|]).
  rewrite !dom_insert_L, dom_singleton_L. set_solver.
Qed.

Lemma videoOf_hasParts item :
  (hasParts item = true -> exists video, videoOf lower item = Returned video) /\
  (hasParts item = false -> videoOf lower item = Panicked nilDereference).
Proof.
  unfold hasParts, videoOf.
  destruct item as [item|]; cbn; [|split; [discriminate|reflexivity]].
  destruct (youtube.Snippet item) as [snippet|]; cbn;
    [|split; [discriminate|reflexivity]].
  destruct (youtube.ContentDetails item) as [details|]; cbn;
    [|split; [discriminate|reflexivity]].
  split; [intros _; eexists; reflexivity|discriminate].
Qed.

(** When every item has its parts the records are there, one for each item
    and in the order of the items. *)
Lemma recordsOf_complete items :
  forallb hasParts items = true ->
  exists videos,
    recordsOf lower items = Returned videos /\
    length videos = length items /\
    forall (i : nat) item,
      items !! i = Some item ->
      exists video, videos !! i = Some video /\ videoOf lower item = Returned video.
Proof.
  induction items as [|item items IH]; cbn [forallb recordsOf].
  - intros _. exists []. split; [reflexivity|]. split; [reflexivity|].
    intros i item Hi. rewrite lookup_nil in Hi. discriminate Hi.
  - intros [Hitem Hitems]%andb_true_iff.
    destruct (proj1 (videoOf_hasParts item) Hitem) as (video & Hv).
    destruct (IH Hitems) as (videos & Hr & Hlen & Hall).
    exists (video :: videos). rewrite Hv, Hr. split; [reflexivity|].
    split; [cbn [length]; now rewrite Hlen|].
    intros [|i] item' Hi; cbn in Hi.
    + injection Hi as <-. exists video. split; [reflexivity|exact Hv].
    + exact (Hall i item' Hi).
Qed.

(** One item without a part, and the loop panics. *)
Lemma recordsOf_partless items :
  forallb hasParts items = false -> recordsOf lower items = Panicked nilDereference.
Proof.
  induction items as [|item items IH]; cbn [forallb recordsOf]; [discriminate|].
  intros H. destruct (hasParts item) eqn:Hitem.
  - destruct (proj1 (videoOf_hasParts item) Hitem) as (video & ->).
    cbn. rewrite (IH H). reflexivity.
  - rewrite (proj2 (videoOf_hasParts item) Hitem). reflexivity.
Qed.

(** What was returned was built from the items. *)
Lemma recordsOf_In items : forall videos video,
  recordsOf lower items = Returned videos -> In video videos ->
  exists item, In (Some item) items /\ videoOf lower (Some item) = Returned video.
Proof.
  induction items as [|item items IH]; intros videos video; cbn [recordsOf].
  - intros [= <-] [].
  - destruct (videoOf lower item) as [v|] eqn:Hv; cbn; [|discriminate].
    destruct (recordsOf lower items) as [vs|] eqn:Hr; cbn; [|discriminate].
    intros [= <-] [<-|Hin].
    + destruct item as [item|]; [|discriminate Hv].
      exists item. split; [left; reflexivity|exact Hv].
    + destruct (IH vs video eq_refl Hin) as (item' & Hin' & Hv').
      exists item'. split; [right; exact Hin'|exact Hv'].
Qed.

Lemma idsOf_hasId items :
  (forallb hasId items = true -> exists ids, idsOf items = Returned ids) /\
  (forallb hasId items = false -> idsOf items = Panicked nilDereference).
Proof.
  induction items as [|item items [IH1 IH2]]; cbn [forallb idsOf].
  - split; [intros _; eexists; reflexivity|discriminate].
  - destruct item as [[[id|]]|]; cbn; try (split; [discriminate|reflexivity]).
    split.
    + intros H. destruct (IH1 H) as (ids & ->). eexists. reflexivity.
    + intros H. rewrite (IH2 H). reflexivity.
Qed.

(** ** The five ways through [searchYouTube] *)

Lemma searchYouTube_init_failed apiKey query err :
  youtube.NewService api apiKey = inl err ->
  searchYouTube lower api apiKey query
  = (Returned [],
     [NewService apiKey; Println ["Error initializing YouTube service:"; err]]).
Proof. intros H. unfold searchYouTube. rewrite H. reflexivity. Qed.

Lemma searchYouTube_search_failed apiKey query service err :
  youtube.NewService api apiKey = inr service ->
  youtube.SearchListDo api service (searchCallOf query) = inl err ->
  searchYouTube lower api apiKey query
  = (Returned [],
     [NewService apiKey; SearchDo (searchCallOf query);
      Println ["Error searching YouTube:"; err]]).
Proof.
  intros H1 H2. unfold searchYouTube. rewrite H1.
  fold (searchCallOf query). rewrite H2. reflexivity.
Qed.

Lemma searchYouTube_ids_panicked apiKey query service sresp v :
  youtube.NewService api apiKey = inr service ->
  youtube.SearchListDo api service (searchCallOf query) = inr sresp ->
  videoIDsOf sresp = Panicked v ->
  searchYouTube lower api apiKey query
  = (Panicked v, [NewService apiKey; SearchDo (searchCallOf query)]).
Proof.
  intros H1 H2 H3. unfold searchYouTube. rewrite H1.
  fold (searchCallOf query). rewrite H2.
  rewrite collect_ids. fold (videoIDsOf sresp). rewrite H3. reflexivity.
Qed.

Lemma searchYouTube_details_failed apiKey query service sresp videoIDs err :
  youtube.NewService api apiKey = inr service ->
  youtube.SearchListDo api service (searchCallOf query) = inr sresp ->
  videoIDsOf sresp = Returned videoIDs ->
  youtube.VideosListDo api service (detailsCallOf videoIDs) = inl err ->
  searchYouTube lower api apiKey query
  = (Returned [],
     [NewService apiKey; SearchDo (searchCallOf query);
      VideosDo (detailsCallOf videoIDs);
      Println ["Error fetching video details:"; err]]).
Proof.
  intros H1 H2 H3 H4. unfold searchYouTube. rewrite H1.
  fold (searchCallOf query). rewrite H2.
  rewrite collect_ids. fold (videoIDsOf sresp). rewrite H3.
  cbn [mbind outcome_bind app]. fold (detailsCallOf videoIDs).
  rewrite H4. reflexivity.
Qed.

Lemma searchYouTube_succeeded apiKey query service sresp videoIDs dresp :
  youtube.NewService api apiKey = inr service ->
  youtube.SearchListDo api service (searchCallOf query) = inr sresp ->
  videoIDsOf sresp = Returned videoIDs ->
  youtube.VideosListDo api service (detailsCallOf videoIDs) = inr dresp ->
  searchYouTube lower api apiKey query
  = (recordsOf lower (youtube.Items dresp),
     [NewService apiKey; SearchDo (searchCallOf query);
      VideosDo (detailsCallOf videoIDs)]).
Proof.
  intros H1 H2 H3 H4. unfold searchYouTube. rewrite H1.
  fold (searchCallOf query). rewrite H2.
  rewrite collect_ids. fold (videoIDsOf sresp). rewrite H3.
  cbn [mbind outcome_bind app]. fold (detailsCallOf videoIDs).
  rewrite H4, collect_records.
  destruct (recordsOf lower (youtube.Items dresp)); reflexivity.
Qed.

(** By cases on what the remote side answers. *)
Lemma searchYouTube_cases apiKey query :
  (exists err,
      youtube.NewService api apiKey = inl err /\
      searchYouTube lower api apiKey query
      = (Returned [],
         [NewService apiKey; Println ["Error initializing YouTube service:"; err]])) \/
  (exists service err,
      youtube.NewService api apiKey = inr service /\
      youtube.SearchListDo api service (searchCallOf query) = inl err /\
      searchYouTube lower api apiKey query
      = (Returned [],
         [NewService apiKey; SearchDo (searchCallOf query);
          Println ["Error searching YouTube:"; err]])) \/
  (exists service sresp v,
      youtube.NewService api apiKey = inr service /\
      youtube.SearchListDo api service (searchCallOf query) = inr sresp /\
      videoIDsOf sresp = Panicked v /\
      searchYouTube lower api apiKey query
      = (Panicked v, [NewService apiKey; SearchDo (searchCallOf query)])) \/
  (exists service sresp videoIDs err,
      youtube.NewService api apiKey = inr service /\
      youtube.SearchListDo api service (searchCallOf query) = inr sresp /\
      videoIDsOf sresp = Returned videoIDs /\
      youtube.VideosListDo api service (detailsCallOf videoIDs) = inl err /\
      searchYouTube lower api apiKey query
      = (Returned [],
         [NewService apiKey; SearchDo (searchCallOf query);
          VideosDo (detailsCallOf videoIDs);
          Println ["Error fetching video details:"; err]])) \/
  (exists service sresp videoIDs dresp,
      youtube.NewService api apiKey = inr service /\
      youtube.SearchListDo api service (searchCallOf query) = inr sresp /\
      videoIDsOf sresp = Returned videoIDs /\
      youtube.VideosListDo api service (detailsCallOf videoIDs) = inr dresp /\
      searchYouTube lower api apiKey query
      = (recordsOf lower (youtube.Items dresp),
         [NewService apiKey; SearchDo (searchCallOf query);
          VideosDo (detailsCallOf videoIDs)])).
Proof.
  destruct (youtube.NewService api apiKey) as [err|service] eqn:H1.
  { left. exists err. split; [reflexivity|].
    apply searchYouTube_init_failed, H1. }
  destruct (youtube.SearchListDo api service (searchCallOf query)) as [err|sresp] eqn:H2.
  { right; left. exists service, err. split; [reflexivity|]. split; [exact H2|].
    apply (searchYouTube_search_failed _ _ _ _ H1 H2). }
  destruct (videoIDsOf sresp) as [videoIDs|v] eqn:H3.
  2:{ right; right; left. exists service, sresp, v.
      split; [reflexivity|]. split; [exact H2|]. split; [exact H3|].
      apply (searchYouTube_ids_panicked _ _ _ _ _ H1 H2 H3). }
  destruct (youtube.VideosListDo api service (detailsCallOf videoIDs))
    as [err|dresp] eqn:H4.
  { right; right; right; left. exists service, sresp, videoIDs, err.
    split; [reflexivity|]. split; [exact H2|]. split; [exact H3|]. split; [exact H4|].
    apply (searchYouTube_details_failed _ _ _ _ _ _ H1 H2 H3 H4). }
  right; right; right; right. exists service, sresp, videoIDs, dresp.
  split; [reflexivity|]. split; [exact H2|]. split; [exact H3|]. split; [exact H4|].
  apply (searchYouTube_succeeded _ _ _ _ _ _ H1 H2 H3 H4).
Qed.

(** C1 (as amended).  After a successful search and details call in which
    every item of the details response is there with its snippet and its
    content details, the result has one record for every item of the
    details response, in the order of that response; each record holds the
    item's identifier, title and channel and the formatted form of its raw
    duration, and nothing else.  The records are as many as the items of
    the details response: nothing cuts them down to 10.  When an item lacks
    a part the call panics and returns nothing.  When a step fails the
    result is empty. *)
Theorem searchYouTube_records apiKey query :
  (forall sresp dresp,
      adapterSucceeds api apiKey query sresp dresp ->
      (forallb hasParts (youtube.Items dresp) = true ->
       exists videos,
         result (searchYouTube lower api apiKey query) = Returned videos /\
         length videos = length (youtube.Items dresp) /\
         forall (i : nat) item,
           youtube.Items dresp !! i = Some (Some item) ->
           exists (video : gmap string string) snippet details,
             videos !! i = Some video /\
             youtube.Snippet item = Some snippet /\
             youtube.ContentDetails item = Some details /\
             video !! "id" = Some (youtube.Id item) /\
             video !! "title" = Some (youtube.Title snippet) /\
             video !! "channel" = Some (youtube.ChannelTitle snippet) /\
             video !! "duration"
             = Some (formatDuration lower (youtube.Duration details)) /\
             dom video = ({[ "id"; "title"; "channel"; "duration" ]} : gset string)) /\
      (forallb hasParts (youtube.Items dresp) = false ->
       result (searchYouTube lower api apiKey query) = Panicked nilDereference)) /\
  (adapterFails api apiKey query ->
   result (searchYouTube lower api apiKey query) = Returned []).
Proof.
  split.
  - intros sresp dresp (service & videoIDs & H1 & H2 & H3 & H4).
    rewrite (searchYouTube_succeeded _ _ _ _ _ _ H1 H2 H3 H4). cbn [result fst].
    split.
    + intros Hparts.
      destruct (recordsOf_complete _ Hparts) as (videos & Hr & Hlen & Hall).
      exists videos. split; [exact Hr|]. split; [exact Hlen|].
      intros i item Hi. destruct (Hall i (Some item) Hi) as (video & Hv & Hof).
      destruct (videoOf_fields item video Hof) as (snippet & details & Hfields).
      exists video, snippet, details. split; [exact Hv|exact Hfields].
    + apply recordsOf_partless.
  - intros [(err & H)|[(service & err & H1 & H2)
                      |(service & sresp & videoIDs & err & H1 & H2 & H3 & H4)]].
    + now rewrite (searchYouTube_init_failed _ _ _ H).
    + now rewrite (searchYouTube_search_failed _ _ _ _ H1 H2).
    + now rewrite (searchYouTube_details_failed _ _ _ _ _ _ H1 H2 H3 H4).
Qed.

(** C2.  When the search call fails, the details call is not among the
    calls the adapter makes, and the result is empty. *)
Theorem searchYouTube_search_failure apiKey query :
  searchStageFails api apiKey query ->
  result (searchYouTube lower api apiKey query) = Returned [] /\
  existsb isVideosDo (events (searchYouTube lower api apiKey query)) = false /\
  exists err,
    events (searchYouTube lower api apiKey query)
    = [NewService apiKey; SearchDo (searchCallOf query);
       Println ["Error searching YouTube:"; err]].
Proof.
  intros (service & err & H1 & H2).
  rewrite (searchYouTube_search_failed _ _ _ _ H1 H2). cbn [result events fst snd].
  split; [reflexivity|]. split; [reflexivity|]. exists err. reflexivity.
Qed.

(** The adapter renders nothing, and every record it returns was built from
    an item of the details response. *)
Lemma searchYouTube_no_render apiKey query :
  existsb isRender (events (searchYouTube lower api apiKey query)) = false.
Proof.
  destruct (searchYouTube_cases apiKey query)
    as [(err & _ & E)|[(service & err & _ & _ & E)
       |[(service & sresp & v & _ & _ & _ & E)
        |[(service & sresp & videoIDs & err & _ & _ & _ & _ & E)
         |(service & sresp & videoIDs & dresp & _ & _ & _ & _ & E)]]]];
    rewrite E; reflexivity.
Qed.

Lemma existsb_isRenderHTML evs :
  existsb isRender evs = false -> existsb isRenderHTML evs = false.
Proof.
  induction evs as [|e evs IH]; cbn [existsb]; [reflexivity|].
  intros [He Hevs]%orb_false_iff. rewrite (IH Hevs), orb_false_r.
  destruct e; try reflexivity; discriminate He.
Qed.

Lemma searchYouTube_formatted apiKey query videos video :
  result (searchYouTube lower api apiKey query) = Returned videos ->
  In video videos ->
  exists item details,
    videoOf lower (Some item) = Returned video /\
    youtube.ContentDetails item = Some details /\
    video !! "duration" = Some (formatDuration lower (youtube.Duration details)).
Proof.
  destruct (searchYouTube_cases apiKey query)
    as [(err & _ & E)|[(service & err & _ & _ & E)
       |[(service & sresp & v & _ & _ & _ & E)
        |[(service & sresp & videoIDs & err & _ & _ & _ & _ & E)
         |(service & sresp & videoIDs & dresp & _ & _ & _ & _ & E)]]]];
    rewrite E; cbn [result fst]; intros Hr Hin;
    try (injection Hr as <-; destruct Hin); try discriminate Hr.
  destruct (recordsOf_In _ _ _ Hr Hin) as (item & _ & Hof).
  destruct (videoOf_fields item video Hof) as (snippet & details & _ & Hd & _ & _ & _ & Hdur & _).
  exists item, details. split; [exact Hof|]. split; [exact Hd|exact Hdur].
Qed.

(** * The handlers *)

Lemma handleSearch_unfold apiKey c :
  handleSearch lower api apiKey c
  = match result (searchYouTube lower api apiKey (gin.PostForm c "query")) with
    | Panicked v =>
        (Panicked v, events (searchYouTube lower api apiKey (gin.PostForm c "query")))
    | Returned videos =>
        (Returned tt,
         events (searchYouTube lower api apiKey (gin.PostForm c "query"))
         ++ [if (length videos =? 0)%nat
             then RenderString StatusNotFound "No videos found."
             else RenderHTML StatusOK "results.html" {[ "Videos" := gin.VVideos videos ]}])
    end.
Proof.
  unfold handleSearch.
  destruct (searchYouTube lower api apiKey (gin.PostForm c "query")) as [[videos|v] evs];
    cbn [result events fst snd]; unfold mbind, IO_bind.
  - destruct (length videos =? 0)%nat; cbn; rewrite ?app_nil_r; reflexivity.
  - cbn. rewrite app_nil_r. reflexivity.
Qed.

(** C6.  When the adapter returns the empty sequence, the search handler
    answers with status 404 and the plain text "No videos found."; that is
    the only thing it renders, so no view is rendered. *)
Theorem handleSearch_not_found apiKey c :
  result (searchYouTube lower api apiKey (gin.PostForm c "query")) = Returned [] ->
  events (handleSearch lower api apiKey c)
  = events (searchYouTube lower api apiKey (gin.PostForm c "query"))
    ++ [RenderString 404 "No videos found."] /\
  existsb isRenderHTML (events (handleSearch lower api apiKey c)) = false.
Proof.
  intros Hempty.
  assert (E : events (handleSearch lower api apiKey c)
              = events (searchYouTube lower api apiKey (gin.PostForm c "query"))
                ++ [RenderString 404 "No videos found."]).
  { rewrite handleSearch_unfold, Hempty. reflexivity. }
  split; [exact E|].
  rewrite E, existsb_app, (existsb_isRenderHTML _ (searchYouTube_no_render _ _)).
  reflexivity.
Qed.

(** C7.  When the adapter returns records, the search handler renders the
    results view with exactly these records, in their order; each of them
    was built from an item of the details response and carries the formatted
    form of that item's duration. *)
Theorem handleSearch_results apiKey c videos :
  result (searchYouTube lower api apiKey (gin.PostForm c "query")) = Returned videos ->
  videos <> [] ->
  events (handleSearch lower api apiKey c)
  = events (searchYouTube lower api apiKey (gin.PostForm c "query"))
    ++ [RenderHTML 200 "results.html" {[ "Videos" := gin.VVideos videos ]}] /\
  forall video,
    In video videos ->
    exists item details,
      videoOf lower (Some item) = Returned video /\
      youtube.ContentDetails item = Some details /\
      video !! "duration" = Some (formatDuration lower (youtube.Duration details)).
Proof.
  intros Hr Hne. split.
  - rewrite handleSearch_unfold, Hr. cbn [events snd].
    destruct videos as [|video videos']; [contradiction|reflexivity].
  - intros video. apply (searchYouTube_formatted _ _ _ _ Hr).
Qed.

End Adapter.

(** C8.  Whatever the identifier bound to the path is, the embed handler
    renders the embed view with the URL made of the fixed prefix
    https://www.youtube.com/embed/ followed by the identifier as it is; for
    abc123 that is https://www.youtube.com/embed/abc123. *)
Theorem embedVideo_url :
  (forall c,
      events (embedVideo c)
      = [RenderHTML 200 "embed.html"
           {[ "EmbedURL" :=
                gin.VString ("https://www.youtube.com/embed/" +:+ gin.Param c "id") ]}]) /\
  (forall id form rest,
      gin.Param {| gin.PostFormValues := form; gin.Params := ("id", id) :: rest |} "id"
      = id) /\
  events (embedVideo sampleEmbedRequest)
  = [RenderHTML 200 "embed.html"
       {[ "EmbedURL" := gin.VString "https://www.youtube.com/embed/abc123" ]}].
Proof.
  assert (H : forall c,
             events (embedVideo c)
             = [RenderHTML 200 "embed.html"
                  {[ "EmbedURL" :=
                       gin.VString
                         ("https://www.youtube.com/embed/" +:+ gin.Param c "id") ]}]).
  { intros c. unfold embedVideo. rewrite Sprintf_embed. reflexivity. }
  split; [exact H|]. split.
  - intros id form rest. reflexivity.
  - rewrite H. reflexivity.
Qed.

(** ** Instances *)

Lemma sampleAPI_succeeds :
  adapterSucceeds sampleAPI "KEY" "cats" sampleSearch sampleDetails.
Proof. exists {| youtube.apiKey := "KEY" |}, ["a1"; "b2"]. repeat split. Qed.

Lemma searchDownAPI_fails : searchStageFails searchDownAPI "KEY" "cats".
Proof. exists {| youtube.apiKey := "KEY" |}, "quota exceeded". split; reflexivity. Qed.

(** The sample run: two records for the two items of the details response,
    which carry their parts; and the empty result when the search is down. *)
Lemma searchYouTube_records_witness :
  adapterSucceeds sampleAPI "KEY" "cats" sampleSearch sampleDetails /\
  forallb hasParts (youtube.Items sampleDetails) = true /\
  (exists videos,
      result (searchYouTube asciiLower sampleAPI "KEY" "cats") = Returned videos /\
      length videos = 2%nat) /\
  adapterFails searchDownAPI "KEY" "cats" /\
  result (searchYouTube asciiLower searchDownAPI "KEY" "cats") = Returned [].
Proof.
  pose proof (searchYouTube_records asciiLower sampleAPI "KEY" "cats") as [Hok _].
  pose proof (searchYouTube_records asciiLower searchDownAPI "KEY" "cats") as [_ Hfail].
  destruct (Hok sampleSearch sampleDetails sampleAPI_succeeds) as [Hparts _].
  destruct (Hparts eq_refl) as (videos & Hr & Hlen & _).
  split; [exact sampleAPI_succeeds|]. split; [reflexivity|].
  split; [exists videos; split; [exact Hr|exact Hlen]|].
  assert (Hf : adapterFails searchDownAPI "KEY" "cats")
    by (right; left; exact searchDownAPI_fails).
  split; [exact Hf|exact (Hfail Hf)].
Defined.

(** C1 as it was stated fails twice.  The code does not cut the result
    down: when the details call answers with twelve items, twelve records
    are returned.  And it reads the parts of an item without looking whether
    they are there: when an item of the details response has no content
    details, the call panics and no record is returned. *)
Lemma searchYouTube_records_counterexample :
  (adapterSucceeds twelveAPI "KEY" "cats" sampleSearch twelveDetails /\
   exists videos,
     result (searchYouTube asciiLower twelveAPI "KEY" "cats") = Returned videos /\
     length videos = 12%nat /\
     ~ (length videos <= 10)%nat) /\
  (adapterSucceeds partlessAPI "KEY" "cats" sampleSearch partlessDetails /\
   result (searchYouTube asciiLower partlessAPI "KEY" "cats") = Panicked nilDereference).
Proof.
  assert (H12 : adapterSucceeds twelveAPI "KEY" "cats" sampleSearch twelveDetails)
    by (exists {| youtube.apiKey := "KEY" |}, ["a1"; "b2"]; repeat split).
  assert (Hpl : adapterSucceeds partlessAPI "KEY" "cats" sampleSearch partlessDetails)
    by (exists {| youtube.apiKey := "KEY" |}, ["a1"; "b2"]; repeat split).
  split; split; [exact H12| |exact Hpl|].
  - rewrite (searchYouTube_succeeded asciiLower twelveAPI "KEY" "cats"
               {| youtube.apiKey := "KEY" |} sampleSearch ["a1"; "b2"] twelveDetails
               eq_refl eq_refl eq_refl eq_refl).
    cbn [result fst].
    destruct (recordsOf_complete asciiLower (youtube.Items twelveDetails) eq_refl)
      as (videos & Hr & Hlen & _).
    exists videos. split; [exact Hr|]. rewrite Hlen. split; [reflexivity|].
    cbn [twelveDetails youtube.Items map length]. lia.
  - rewrite (searchYouTube_succeeded asciiLower partlessAPI "KEY" "cats"
               {| youtube.apiKey := "KEY" |} sampleSearch ["a1"; "b2"] partlessDetails
               eq_refl eq_refl eq_refl eq_refl).
    cbn [result fst]. apply recordsOf_partless. reflexivity.
Qed.

(** With the search down, the adapter makes the client, tries the search,
    prints the error and stops. *)
Lemma searchYouTube_search_failure_witness :
  searchStageFails searchDownAPI "KEY" "cats" /\
  result (searchYouTube asciiLower searchDownAPI "KEY" "cats") = Returned [] /\
  existsb isVideosDo (events (searchYouTube asciiLower searchDownAPI "KEY" "cats")) = false.
Proof.
  destruct (searchYouTube_search_failure asciiLower searchDownAPI "KEY" "cats"
              searchDownAPI_fails) as (H1 & H2 & _).
  split; [exact searchDownAPI_fails|]. split; [exact H1|exact H2].
Defined.

(** The search handler, with the search down: a 404. *)
Lemma handleSearch_not_found_witness :
  result (searchYouTube asciiLower searchDownAPI "KEY"
            (gin.PostForm sampleSearchRequest "query")) = Returned [] /\
  existsb isRenderHTML (events (handleSearch asciiLower searchDownAPI "KEY" sampleSearchRequest))
  = false.
Proof.
  assert (H : result (searchYouTube asciiLower searchDownAPI "KEY"
                        (gin.PostForm sampleSearchRequest "query")) = Returned [])
    by (vm_compute; reflexivity).
  split; [exact H|].
  exact (proj2 (handleSearch_not_found asciiLower searchDownAPI "KEY" sampleSearchRequest H)).
Defined.

(** The search handler, with the sample answers: the results view. *)
Lemma handleSearch_results_witness :
  exists videos,
    result (searchYouTube asciiLower sampleAPI "KEY"
              (gin.PostForm sampleSearchRequest "query")) = Returned videos /\
    videos <> [] /\
    events (handleSearch asciiLower sampleAPI "KEY" sampleSearchRequest)
    = events (searchYouTube asciiLower sampleAPI "KEY"
                (gin.PostForm sampleSearchRequest "query"))
      ++ [RenderHTML 200 "results.html" {[ "Videos" := gin.VVideos videos ]}].
Proof.
  pose proof (searchYouTube_succeeded asciiLower sampleAPI "KEY"
                (gin.PostForm sampleSearchRequest "query")
                {| youtube.apiKey := "KEY" |} sampleSearch ["a1"; "b2"] sampleDetails
                eq_refl eq_refl eq_refl eq_refl) as E.
  destruct (recordsOf_complete asciiLower (youtube.Items sampleDetails) eq_refl)
    as (videos & Hr & Hlen & _).
  assert (Hres : result (searchYouTube asciiLower sampleAPI "KEY"
                           (gin.PostForm sampleSearchRequest "query")) = Returned videos)
    by (rewrite E; exact Hr).
  assert (Hne : videos <> []) by (intros ->; discriminate Hlen).
  exists videos. split; [exact Hres|]. split; [exact Hne|].
  exact (proj1 (handleSearch_results asciiLower sampleAPI "KEY" sampleSearchRequest
                  videos Hres Hne)).
Defined.

(** What the sample records hold. *)
Example sample_records :
  match result (searchYouTube asciiLower sampleAPI "KEY" "cats") with
  | Returned videos =>
      map (fun video : gmap string string => (video !! "id", video !! "duration")) videos
  | Panicked _ => []
  end
  = [(Some "b2", Some "1:02:03"); (Some "a1", Some "2:05")].
Proof. vm_compute. reflexivity. Qed.

(** * main *)

Section Startup.

Variable lower : string -> string.
Variable api : youtube.API.

Lemma main_dotenv_failed w err :
  os.dotenvFile w = inl err ->
  main lower api w = (Exit 1, [DotenvLoad; LogFatal "Error loading .env file"]).
Proof. intros H. unfold main, os.godotenv_Load. rewrite H. reflexivity. Qed.

Lemma main_credential_missing w vars :
  os.dotenvFile w = inr vars ->
  os.Getenv (os.environ w ∪ vars) "YOUTUBE_API_KEY" = "" ->
  main lower api w
  = (Exit 1, [DotenvLoad; Getenv "YOUTUBE_API_KEY";
              LogFatal "YouTube API key not found in environment"]).
Proof.
  intros H1 H2. unfold main, os.godotenv_Load. rewrite H1, H2. reflexivity.
Qed.

(** C10.  When the file [.env] cannot be loaded, [main] logs a fatal error
    and the process exits right after the attempt: the environment is not
    looked at and nothing is served, whatever the environment of the process
    holds. *)
Theorem main_dotenv_failure w err :
  os.dotenvFile w = inl err ->
  result (main lower api w) = Exit 1 /\
  events (main lower api w) = [DotenvLoad; LogFatal "Error loading .env file"] /\
  existsb isGetenv (events (main lower api w)) = false /\
  existsb isRun (events (main lower api w)) = false.
Proof.
  intros H. rewrite (main_dotenv_failed w err H). cbn [result events fst snd].
  repeat split.
Qed.

(** [main] never touches the storage. *)
Lemma main_no_storage w : existsb isStorage (events (main lower api w)) = false.
Proof.
  unfold main, os.godotenv_Load.
  destruct (os.dotenvFile w) as [err|vars]; [reflexivity|].
  destruct (String.eqb _ ""); [reflexivity|].
  destruct (os.globMatches w "templates/*"); [|reflexivity].
  destruct (os.listen w ":8080"); reflexivity.
Qed.

(** The credential is absent when neither the environment of the process
    nor the file [.env] defines it. *)
Lemma credentialAbsent_intro w :
  os.environ w !! "YOUTUBE_API_KEY" = None ->
  (forall vars, os.dotenvFile w = inr vars -> vars !! "YOUTUBE_API_KEY" = None) ->
  credentialAbsent w.
Proof.
  intros Henv Hfile. unfold credentialAbsent, os.godotenv_Load, os.Getenv.
  destruct (os.dotenvFile w) as [err|vars]; cbn [fst].
  - now rewrite Henv.
  - rewrite lookup_union, Henv, (Hfile vars eq_refl). reflexivity.
Qed.

(** C9 (as amended).  When the credential is absent from the environment
    [main] reads, the process exits with a fatal error and never reaches
    [router.Run].  Storage plays no part in the startup: [main] does not
    call [InitDB]. *)
Theorem main_missing_credential w :
  (credentialAbsent w ->
   result (main lower api w) = Exit 1 /\
   existsb isRun (events (main lower api w)) = false /\
   exists message, last (events (main lower api w)) = Some (LogFatal message)) /\
  existsb isStorage (events (main lower api w)) = false.
Proof.
  split; [|apply main_no_storage].
  unfold credentialAbsent, os.godotenv_Load.
  destruct (os.dotenvFile w) as [err|vars] eqn:E; cbn [fst]; intros H.
  - rewrite (main_dotenv_failed w err E). cbn [result events fst snd].
    split; [reflexivity|]. split; [reflexivity|]. eexists. reflexivity.
  - rewrite (main_credential_missing w vars E H). cbn [result events fst snd].
    split; [reflexivity|]. split; [reflexivity|]. eexists. reflexivity.
Qed.

(** With everything in place the process reaches [router.Run] and serves
    the three routes. *)
Lemma main_serves w vars :
  os.dotenvFile w = inr vars ->
  os.Getenv (os.environ w ∪ vars) "YOUTUBE_API_KEY" <> "" ->
  os.globMatches w "templates/*" = true ->
  os.listen w ":8080" = None ->
  result (main lower api w)
  = Serving [("GET", "/", showHomePage);
             ("POST", "/search",
              handleSearch lower api (os.Getenv (os.environ w ∪ vars) "YOUTUBE_API_KEY"));
             ("GET", "/embed/:id", embedVideo)] /\
  existsb isRun (events (main lower api w)) = true.
Proof.
  intros H1 H2 H3 H4. unfold main, os.godotenv_Load. rewrite H1.
  destruct (String.eqb_spec (os.Getenv (os.environ w ∪ vars) "YOUTUBE_API_KEY") "")
    as [E|_]; [contradiction|].
  cbn -[os.Getenv]. rewrite H3, H4. cbn -[os.Getenv]. split; reflexivity.
Qed.

End Startup.

(** ** Instances *)

(** The credential is in the environment, the file [.env] is missing: the
    process exits before it looks at the environment. *)
Lemma main_dotenv_failure_witness :
  os.environ noDotenvOS !! "YOUTUBE_API_KEY" = Some "secret" /\
  forall lower api,
    result (main lower api noDotenvOS) = Exit 1 /\
    existsb isGetenv (events (main lower api noDotenvOS)) = false.
Proof.
  split; [reflexivity|]. intros lower api.
  destruct (main_dotenv_failure lower api noDotenvOS _ eq_refl) as (H1 & _ & H2 & _).
  split; [exact H1|exact H2].
Defined.

(** No credential anywhere: the process exits. *)
Lemma main_missing_credential_witness :
  credentialAbsent noCredentialOS /\
  forall lower api,
    result (main lower api noCredentialOS) = Exit 1 /\
    existsb isRun (events (main lower api noCredentialOS)) = false.
Proof.
  assert (H : credentialAbsent noCredentialOS) by reflexivity.
  split; [exact H|]. intros lower api.
  destruct (proj1 (main_missing_credential lower api noCredentialOS) H) as (H1 & H2 & _).
  split; [exact H1|exact H2].
Defined.

(** C9 as it was stated fails on its storage part: with a storage layer on
    which [InitDB] fails for every path, and the credential present, the
    process reaches [router.Run] and serves. *)
Lemma main_storage_counterexample :
  (forall dbPath, storageInitFails brokenSQL dbPath) /\
  ~ credentialAbsent readyOS /\
  forall lower api,
    existsb isRun (events (main lower api readyOS)) = true /\
    exists routes, result (main lower api readyOS) = Serving routes.
Proof.
  split; [intros dbPath; unfold storageInitFails; cbn; discriminate|].
  split; [unfold credentialAbsent; vm_compute; discriminate|].
  intros lower api.
  destruct (main_serves lower api readyOS _ eq_refl) as [H1 H2];
    [vm_compute; discriminate|reflexivity|reflexivity|].
  split; [exact H2|]. eexists. exact H1.
Qed.

(** * Further properties of formatDuration *)

Lemma twoDigits_digits z : 0 <= z < 100 -> string_forallb isDigit (twoDigits z) = true.
Proof. intros Hz. apply isTwoDigits_digits, twoDigits_shape, Hz. Qed.

Lemma twoDigits_value z : 0 <= z < 100 -> decimalValue 0 (twoDigits z) = z.
Proof.
  intros Hz. unfold twoDigits. cbn [decimalValue].
  pose proof (Z.mod_pos_bound z 10 ltac:(lia)) as Hm.
  assert (Hq : 0 <= z / 10 <= 9)
    by (split; [apply Z.div_pos; lia|apply Z.lt_succ_r, Z.div_lt_upper_bound; lia]).
  rewrite digitChar_value, digitChar_value by lia.
  pose proof (Z.div_mod z 10 ltac:(lia)). lia.
Qed.

(** The clock reading of a duration stands for its whole seconds. *)
Lemma clockSeconds_clockReading d :
  0 <= d -> clockSeconds (clockReading d) = Some (d / time.Second).
Proof.
  intros Hd. unfold clockReading, clockSeconds.
  set (q := d / time.Second).
  assert (Hq : 0 <= q) by (apply Z.div_pos; [exact Hd|reflexivity]).
  assert (EM : d / time.Minute = q / 60).
  { unfold q. rewrite Z.div_div by (try reflexivity; discriminate). reflexivity. }
  assert (EH : d / time.Hour = q / 60 / 60).
  { unfold q. rewrite !Z.div_div by (try reflexivity; discriminate). reflexivity. }
  rewrite EM, EH.
  assert (Hm : 0 <= q / 60) by (apply Z.div_pos; lia).
  assert (Hh : 0 <= q / 60 / 60) by (apply Z.div_pos; lia).
  pose proof (Z.mod_pos_bound (q / 60) 60 ltac:(lia)) as Hm60.
  pose proof (Z.mod_pos_bound q 60 ltac:(lia)) as Hs60.
  pose proof (Z.div_mod q 60 ltac:(lia)) as E1.
  pose proof (Z.div_mod (q / 60) 60 ltac:(lia)) as E2.
  destruct (Z.eqb_spec (q / 60 / 60) 0) as [E|E].
  - rewrite splitOn_field by (apply decimal_digits; lia).
    rewrite splitOn_digits by (apply twoDigits_digits; lia).
    rewrite decimal_value, twoDigits_value by lia. f_equal. lia.
  - rewrite splitOn_field by (apply decimal_digits; lia).
    rewrite splitOn_field by (apply twoDigits_digits; lia).
    rewrite splitOn_digits by (apply twoDigits_digits; lia).
    rewrite decimal_value, !twoDigits_value by lia. f_equal. lia.
Qed.

Lemma totalDuration_written h m s :
  totalDuration (writtenComponents h m s)
  = h * time.Hour + m * time.Minute + s * time.Second.
Proof.
  unfold writtenComponents.
  destruct (Z.eqb_spec h 0) as [->|_], (Z.eqb_spec m 0) as [->|_],
    (Z.eqb_spec s 0) as [->|_]; cbn [app totalDuration unitDuration]; lia.
Qed.

Lemma string_forallb_map p f s :
  string_forallb p (string_map f s) = string_forallb (fun c => p (f c)) s.
Proof.
  induction s as [|c s IH]; cbn [string_map string_forallb]; [reflexivity|].
  rewrite IH. reflexivity.
Qed.

Lemma string_existsb_forallb p s :
  string_existsb p s = false -> string_forallb (fun c => negb (p c)) s = true.
Proof.
  induction s as [|c s IH]; cbn [string_existsb string_forallb]; [reflexivity|].
  intros [Hc Hs]%orb_false_iff. rewrite Hc, (IH Hs). reflexivity.
Qed.

(** [lowerByte] on the 256 bytes. *)
Lemma lowerByte_facts c :
  isUpperASCII (lowerByte c) = false /\
  ((byte_val c <? RuneSelf) = true -> (byte_val (lowerByte c) <? RuneSelf) = true) /\
  (isPlainByte c = true -> negb (Ascii.eqb (lowerByte c) "p") = true).
Proof.
  destruct c as [[] [] [] [] [] [] [] []];
    (split; [vm_compute; reflexivity
            |split; vm_compute; intros H; first [reflexivity|discriminate H]]).
Qed.

Section FormatDurationMore.

Variable lower : string -> string.

Lemma formatDuration_of_parsed duration :
  0 <= parsedDuration lower duration < 1024 * time.Hour ->
  formatDuration lower duration = clockReading (parsedDuration lower duration).
Proof.
  intros Hd. set (d := parsedDuration lower duration) in *.
  rewrite (formatDuration_unfold lower). fold d.
  rewrite hoursOf_exact, minutesOf_exact, secondsOf_exact by lia.
  unfold clockReading.
  assert (Hh : 0 <= d / time.Hour) by (apply Z.div_pos; [lia|reflexivity]).
  pose proof (Z.mod_pos_bound (d / time.Minute) 60 ltac:(lia)) as Hm.
  pose proof (Z.mod_pos_bound (d / time.Second) 60 ltac:(lia)) as Hs.
  destruct (Z.eqb_spec (d / time.Hour) 0) as [E|E].
  - rewrite E. cbn [Z.gtb Z.compare].
    rewrite Sprintf_clock_ms, fmtInteger_plain, fmtInteger_two by lia. reflexivity.
  - rewrite (proj2 (Z.gtb_lt _ _)) by lia.
    rewrite Sprintf_clock_hms, fmtInteger_plain, !fmtInteger_two by lia. reflexivity.
Qed.

(** What the parser rejects is shown as 0:00. *)
Lemma formatDuration_rejected duration :
  parseError lower duration <> None -> formatDuration lower duration = "0:00".
Proof.
  intros Herr. unfold parseError in Herr.
  assert (Hd : parsedDuration lower duration = 0).
  { unfold parsedDuration.
    destruct (snd (time.ParseDuration (durationText lower duration))) as [e|] eqn:E;
      [|contradiction].
    exact (ParseDuration_error _ e E). }
  rewrite (formatDuration_unfold lower), Hd. vm_compute. reflexivity.
Qed.

(** [strings.ToLower] on a string of ASCII bytes. *)
Lemma ToLower_ascii s :
  string_forallb (fun c => byte_val c <? RuneSelf) s = true ->
  strings.ToLower lower s = string_map lowerByte s.
Proof.
  intros Hs. unfold strings.ToLower. rewrite Hs.
  destruct (string_existsb isUpperASCII s) eqn:Hu; cbn [negb]; [reflexivity|].
  symmetry. apply (string_map_fixed lowerByte (fun c => negb (isUpperASCII c))).
  - intros c Hc. unfold lowerByte. apply negb_true_iff in Hc. rewrite Hc. reflexivity.
  - apply string_existsb_forallb, Hu.
Qed.

(** X1.  For every input whose parsed duration is not negative and is below
    1024 hours, [formatDuration] returns the clock reading of that duration:
    the whole hours (left out when there are none), the minutes and the
    seconds, computed by integer division of the nanoseconds.  The float64
    arithmetic of [Hours], [Minutes] and [Seconds] changes no component, and
    the fraction of a second is dropped. *)
Theorem formatDuration_exact duration :
  0 <= parsedDuration lower duration < 1024 * time.Hour ->
  formatDuration lower duration = clockReading (parsedDuration lower duration) /\
  hoursOf (parsedDuration lower duration) = parsedDuration lower duration / time.Hour /\
  minutesOf (parsedDuration lower duration)
  = (parsedDuration lower duration / time.Minute) mod 60 /\
  secondsOf (parsedDuration lower duration)
  = (parsedDuration lower duration / time.Second) mod 60.
Proof.
  intros Hd. split; [apply formatDuration_of_parsed, Hd|].
  split; [apply hoursOf_exact, Hd|].
  split; [apply minutesOf_exact, Hd|apply secondsOf_exact, Hd].
Qed.

(** X2.  The result of [formatDuration] can be read back: for a parsed
    duration that is not negative and below 1024 hours, the clock string
    stands for exactly the whole seconds of the duration. *)
Theorem formatDuration_read_back duration :
  0 <= parsedDuration lower duration < 1024 * time.Hour ->
  clockSeconds (formatDuration lower duration)
  = Some (parsedDuration lower duration / time.Second).
Proof.
  intros Hd. rewrite (formatDuration_of_parsed duration Hd).
  apply clockSeconds_clockReading. lia.
Qed.

(** X3.  A duration written as [PT] followed by counts with the units H, M
    and S (any of them, in any order, the counts not negative and their sum
    below 1024 hours) reaches the parser as the counts with lower-case
    units, is parsed without an error to the sum of the components, and is
    formatted as the clock reading of that sum. *)
Theorem formatDuration_sum l :
  l <> [] -> Forall (fun p => 0 <= fst p) l -> totalDuration l < 1024 * time.Hour ->
  durationText lower (apiDuration l) = components false l /\
  parsedDuration lower (apiDuration l) = totalDuration l /\
  parseError lower (apiDuration l) = None /\
  formatDuration lower (apiDuration l) = clockReading (totalDuration l).
Proof.
  intros Hne Hl Hb. split; [apply durationText_api, Hl|].
  apply formatDuration_api; assumption.
Qed.

(** X4.  A video of [h] hours, [m] minutes and [s] seconds, written the way
    the API writes it (the components that are zero left out: PT1H,
    PT4M13S, PT1H5S), is shown as [h:mm:ss], and as [m:ss] when it is
    shorter than an hour. *)
Theorem formatDuration_written h m s :
  0 <= h < 1024 -> 0 <= m < 60 -> 0 <= s < 60 -> 0 < h + m + s ->
  formatDuration lower (apiDuration (writtenComponents h m s)) = clockText h m s.
Proof.
  intros Hh Hm Hs Hpos.
  assert (Hne : writtenComponents h m s <> []).
  { unfold writtenComponents.
    destruct (Z.eqb_spec h 0), (Z.eqb_spec m 0), (Z.eqb_spec s 0);
      cbn [app]; try discriminate. lia. }
  assert (Hl : Forall (fun p => 0 <= fst p) (writtenComponents h m s)).
  { unfold writtenComponents.
    destruct (h =? 0), (m =? 0), (s =? 0); cbn [app];
      repeat constructor; cbn [fst]; lia. }
  assert (Hb : totalDuration (writtenComponents h m s) < 1024 * time.Hour).
  { rewrite totalDuration_written.
    unfold time.Hour, time.Minute, time.Second, time.Millisecond,
      time.Microsecond, time.Nanosecond. lia. }
  destruct (formatDuration_api lower _ Hne Hl Hb) as (_ & _ & E).
  rewrite E, totalDuration_written, clockReading_hms by lia. reflexivity.
Qed.

(** X5.  A duration with a date part, which the API writes for a video of
    a day or more ([P1DT2H3M4S], also [P0D], [P2W]), is not understood.  For
    [P], a number and any ASCII text without the letter P, the lower-cased
    text holds no "pt" to remove, the parser rejects it at its first byte,
    and the result is 0:00. *)
Theorem formatDuration_days n rest :
  0 <= n -> string_forallb isPlainByte rest = true ->
  durationText lower ("P" +:+ fmt.decimal n +:+ rest)
  = "p" +:+ fmt.decimal n +:+ string_map lowerByte rest /\
  parseError lower ("P" +:+ fmt.decimal n +:+ rest) <> None /\
  formatDuration lower ("P" +:+ fmt.decimal n +:+ rest) = "0:00".
Proof.
  intros Hn Hrest.
  pose proof (decimal_digits n Hn) as Hdig.
  assert (Hascii : string_forallb (fun c => byte_val c <? RuneSelf)
                     ("P" +:+ fmt.decimal n +:+ rest) = true).
  { change ("P" +:+ fmt.decimal n +:+ rest) with (String "P" (fmt.decimal n +:+ rest)).
    cbn [string_forallb]. rewrite string_forallb_app.
    rewrite (string_forallb_mono isDigit _ (fmt.decimal n)); [| |exact Hdig].
    - rewrite (string_forallb_mono isPlainByte _ rest); [reflexivity| |exact Hrest].
      intros c Hc. unfold isPlainByte in Hc.
      apply andb_true_iff in Hc as [Hc _]. apply andb_true_iff in Hc as [Hc _]. exact Hc.
    - intros c Hc%isDigit_range. apply Z.ltb_lt. unfold RuneSelf. lia. }
  assert (Htext : durationText lower ("P" +:+ fmt.decimal n +:+ rest)
                  = "p" +:+ fmt.decimal n +:+ string_map lowerByte rest).
  { unfold durationText. rewrite (ToLower_ascii _ Hascii), ReplaceAll_pt.
    change ("P" +:+ fmt.decimal n +:+ rest) with (String "P" (fmt.decimal n +:+ rest)).
    cbn [string_map]. rewrite string_map_app.
    rewrite (string_map_fixed lowerByte isDigit _ lowerByte_digit Hdig).
    change (lowerByte "P") with "p"%char.
    apply (proj1 (deletePT_absent _)).
    destruct (decimal_head n Hn) as (c & r & E & Hc).
    assert (Hnop : string_forallb (fun c => negb (Ascii.eqb c "p"))
                     (fmt.decimal n +:+ string_map lowerByte rest) = true).
    { rewrite string_forallb_app.
      rewrite (string_forallb_mono isDigit _ (fmt.decimal n)); [| |exact Hdig].
      - rewrite string_forallb_map.
        apply (string_forallb_mono isPlainByte); [|exact Hrest].
        intros a Ha. apply lowerByte_facts, Ha.
      - intros a Ha. rewrite (isDigit_not a "p"); [reflexivity|reflexivity|exact Ha]. }
    change (strings.Contains
              (String "p" (fmt.decimal n +:+ string_map lowerByte rest)) "pt")
      with (String.prefix "pt" (String "p" (fmt.decimal n +:+ string_map lowerByte rest))
            || strings.Contains (fmt.decimal n +:+ string_map lowerByte rest) "pt").
    rewrite (Contains_pt_absent _ Hnop), orb_false_r.
    rewrite E.
    change (String c r +:+ string_map lowerByte rest)
      with (String c (r +:+ string_map lowerByte rest)).
    rewrite prefix_pt, (isDigit_not c "t"); [reflexivity|reflexivity|exact Hc]. }
  assert (Herr : parseError lower ("P" +:+ fmt.decimal n +:+ rest) <> None).
  { unfold parseError. rewrite Htext.
    change ("p" +:+ fmt.decimal n +:+ string_map lowerByte rest)
      with (String "p" (fmt.decimal n +:+ string_map lowerByte rest)).
    set (r := fmt.decimal n +:+ string_map lowerByte rest).
    unfold time.ParseDuration.
    change (Ascii.eqb "p" "-" || Ascii.eqb "p" "+") with false. cbv iota.
    change (String.eqb (String "p" r) "0") with false.
    change (String.eqb (String "p" r) "") with false. cbv iota.
    cbn [String.length time.parseLoop].
    change (time.parseStep (String "p" r) 0 (String "p" r))
      with (inl (time.invalidDuration (String "p" r)) : time.error + Z * string).
    cbn [snd]. discriminate. }
  split; [exact Htext|]. split; [exact Herr|].
  apply formatDuration_rejected, Herr.
Qed.

(** X6.  [formatDuration] reads its input without regard to the case of
    ASCII letters: an ASCII string and its lower-cased form give the same
    result. *)
Theorem formatDuration_ignores_case duration :
  string_forallb (fun c => byte_val c <? RuneSelf) duration = true ->
  durationText lower (string_map lowerByte duration) = durationText lower duration /\
  formatDuration lower (string_map lowerByte duration) = formatDuration lower duration.
Proof.
  intros Hascii.
  assert (Hlow : string_forallb (fun c => byte_val c <? RuneSelf)
                   (string_map lowerByte duration) = true).
  { rewrite string_forallb_map.
    apply (string_forallb_mono (fun c => byte_val c <? RuneSelf)); [|exact Hascii].
    intros c Hc. apply lowerByte_facts, Hc. }
  assert (Htext : durationText lower (string_map lowerByte duration)
                  = durationText lower duration).
  { unfold durationText. rewrite (ToLower_ascii _ Hascii), (ToLower_ascii _ Hlow).
    f_equal.
    apply (string_map_fixed lowerByte (fun c => negb (isUpperASCII c))).
    - intros c Hc. unfold lowerByte. apply negb_true_iff in Hc. rewrite Hc. reflexivity.
    - rewrite string_forallb_map. clear. induction duration as [|c s IH]; [reflexivity|].
      cbn [string_forallb]. rewrite IH, (proj1 (lowerByte_facts c)). reflexivity. }
  split; [exact Htext|].
  unfold formatDuration. rewrite Htext. reflexivity.
Qed.

End FormatDurationMore.

(** ** Instances *)

Lemma formatDuration_exact_witness :
  parsedDuration asciiLower "PT59M59.999999999S" = 3599999999999 /\
  formatDuration asciiLower "PT59M59.999999999S" = "59:59" /\
  clockReading 3599999999999 = "59:59".
Proof.
  assert (E : parsedDuration asciiLower "PT59M59.999999999S" = 3599999999999)
    by (vm_compute; reflexivity).
  assert (Hd : 0 <= parsedDuration asciiLower "PT59M59.999999999S" < 1024 * time.Hour)
    by (rewrite E; vm_compute; split; [discriminate|reflexivity]).
  destruct (formatDuration_exact asciiLower _ Hd) as (H & _).
  split; [exact E|]. split; [rewrite H, E|]; vm_compute; reflexivity.
Defined.

Lemma formatDuration_read_back_witness :
  formatDuration asciiLower "PT1H2M3S" = "1:02:03" /\
  clockSeconds (formatDuration asciiLower "PT1H2M3S") = Some 3723.
Proof.
  assert (Hd : 0 <= parsedDuration asciiLower "PT1H2M3S" < 1024 * time.Hour)
    by (vm_compute; split; [discriminate|reflexivity]).
  split; [vm_compute; reflexivity|].
  rewrite (formatDuration_read_back asciiLower _ Hd). vm_compute. reflexivity.
Defined.

Lemma formatDuration_sum_witness :
  apiDuration [(90, UnitM)] = "PT90M" /\
  formatDuration asciiLower "PT90M" = clockReading (totalDuration [(90, UnitM)]) /\
  clockReading (totalDuration [(90, UnitM)]) = "1:30:00".
Proof.
  split; [reflexivity|]. split; [|vm_compute; reflexivity].
  apply (formatDuration_sum asciiLower [(90, UnitM)]);
    [discriminate|repeat constructor; cbn [fst]; lia|vm_compute; reflexivity].
Defined.

Lemma formatDuration_written_witness :
  apiDuration (writtenComponents 1 0 5) = "PT1H5S" /\
  clockText 1 0 5 = "1:00:05" /\
  formatDuration asciiLower "PT1H5S" = clockText 1 0 5.
Proof.
  split; [reflexivity|]. split; [reflexivity|].
  apply (formatDuration_written asciiLower 1 0 5); lia.
Defined.

Lemma formatDuration_days_witness :
  "P" +:+ fmt.decimal 1 +:+ "DT2H3M4S" = "P1DT2H3M4S" /\
  "P" +:+ fmt.decimal 0 +:+ "D" = "P0D" /\
  formatDuration asciiLower "P1DT2H3M4S" = "0:00" /\
  formatDuration asciiLower "P0D" = "0:00".
Proof.
  split; [reflexivity|]. split; [reflexivity|]. split.
  - apply (formatDuration_days asciiLower 1 "DT2H3M4S"); [lia|reflexivity].
  - apply (formatDuration_days asciiLower 0 "D"); [lia|reflexivity].
Defined.

Lemma formatDuration_ignores_case_witness :
  string_map lowerByte "PT1H2M3S" = "pt1h2m3s" /\
  formatDuration asciiLower "pt1h2m3s" = formatDuration asciiLower "PT1H2M3S".
Proof.
  split; [reflexivity|].
  apply (formatDuration_ignores_case asciiLower "PT1H2M3S"). reflexivity.
Defined.

(** * Further properties of searchYouTube *)

Lemma splitOn_comma_free a : isCommaFree a = true -> splitOn "," a = [a].
Proof.
  unfold isCommaFree.
  induction a as [|c a IH]; cbn [string_forallb splitOn]; [reflexivity|].
  intros [Hc%negb_true_iff Ha]%andb_true_iff. rewrite Hc, (IH Ha). reflexivity.
Qed.

Lemma splitOn_comma_field a b : isCommaFree a = true ->
  splitOn "," (a +:+ "," +:+ b) = a :: splitOn "," b.
Proof.
  unfold isCommaFree.
  induction a as [|c a IH]; cbn [string_forallb]; [reflexivity|].
  intros [Hc%negb_true_iff Ha]%andb_true_iff.
  change (String c a +:+ "," +:+ b) with (String c (a +:+ "," +:+ b)).
  cbn [splitOn]. rewrite Hc, (IH Ha). reflexivity.
Qed.

(** Joining with commas and splitting at the commas gives the list back,
    unless the list is empty. *)
Lemma splitOn_Join ids :
  ids <> [] -> Forall (fun id => isCommaFree id = true) ids ->
  splitOn "," (strings.Join ids ",") = ids.
Proof.
  induction ids as [|id ids IH]; [contradiction|]. intros _ Hall.
  inversion Hall as [|? ? Hid Hrest]; subst.
  destruct ids as [|id' ids].
  - cbn [strings.Join]. apply splitOn_comma_free, Hid.
  - change (strings.Join (id :: id' :: ids) ",")
      with (id +:+ "," +:+ strings.Join (id' :: ids) ",").
    rewrite (splitOn_comma_field _ _ Hid), IH; [reflexivity|discriminate|exact Hrest].
Qed.

(** The identifiers of results that hold them. *)
Lemma idsOf_searchResultOf ids : idsOf (map searchResultOf ids) = Returned ids.
Proof.
  induction ids as [|id ids IH]; [reflexivity|].
  cbn [map idsOf searchResultOf]. cbn. rewrite IH. reflexivity.
Qed.

Section AdapterMore.

Variable lower : string -> string.
Variable api : youtube.API.

(** X7.  When no API client can be made, [searchYouTube] prints the error
    after the label "Error initializing YouTube service:" and returns no
    record; neither the search nor the details request is sent. *)
Theorem searchYouTube_init_failure apiKey query err :
  youtube.NewService api apiKey = inl err ->
  result (searchYouTube lower api apiKey query) = Returned [] /\
  events (searchYouTube lower api apiKey query)
  = [NewService apiKey; Println ["Error initializing YouTube service:"; err]].
Proof.
  intros H. rewrite (searchYouTube_init_failed lower api _ _ _ H). split; reflexivity.
Qed.

(** X8.  When the details request fails, [searchYouTube] returns no record
    at all, although the search found videos: it prints the error after the
    label "Error fetching video details:" and gives up. *)
Theorem searchYouTube_details_failure apiKey query service sresp videoIDs err :
  youtube.NewService api apiKey = inr service ->
  youtube.SearchListDo api service
    {| youtube.search_part := ["id"; "snippet"]; youtube.Q := query;
       youtube.MaxResults := 10; youtube.Type_ := "video" |} = inr sresp ->
  videoIDsOf sresp = Returned videoIDs ->
  youtube.VideosListDo api service
    {| youtube.videos_part := ["snippet"; "contentDetails"];
       youtube.Id_ := strings.Join videoIDs "," |} = inl err ->
  result (searchYouTube lower api apiKey query) = Returned [] /\
  events (searchYouTube lower api apiKey query)
  = [NewService apiKey;
     SearchDo {| youtube.search_part := ["id"; "snippet"]; youtube.Q := query;
                 youtube.MaxResults := 10; youtube.Type_ := "video" |};
     VideosDo {| youtube.videos_part := ["snippet"; "contentDetails"];
                 youtube.Id_ := strings.Join videoIDs "," |};
     Println ["Error fetching video details:"; err]].
Proof.
  intros H1 H2 H3 H4.
  rewrite (searchYouTube_details_failed lower api _ _ _ _ _ _ H1 H2 H3 H4).
  split; reflexivity.
Qed.

(** X9.  What [searchYouTube] sends.  Its first step is always to make
    the client with the key it was given.  Once the client is made, its
    second step is the search request: the parts id and snippet, at most
    10 results of type video, the query as it came.  Once the search has
    answered and the identifiers were read, its third step is the details
    request: the parts snippet and contentDetails of these identifiers,
    joined by commas.  It makes no other client and sends no other
    request: at most these three calls, at most one printed line, nothing
    rendered. *)
Theorem searchYouTube_requests apiKey query :
  events (searchYouTube lower api apiKey query) !! 0%nat = Some (NewService apiKey) /\
  (forall service,
      youtube.NewService api apiKey = inr service ->
      events (searchYouTube lower api apiKey query) !! 1%nat
      = Some (SearchDo {| youtube.search_part := ["id"; "snippet"]; youtube.Q := query;
                          youtube.MaxResults := 10; youtube.Type_ := "video" |})) /\
  (forall service sresp videoIDs,
      youtube.NewService api apiKey = inr service ->
      youtube.SearchListDo api service (searchCallOf query) = inr sresp ->
      videoIDsOf sresp = Returned videoIDs ->
      events (searchYouTube lower api apiKey query) !! 2%nat
      = Some (VideosDo {| youtube.videos_part := ["snippet"; "contentDetails"];
                          youtube.Id_ := strings.Join videoIDs "," |})) /\
  (forall key,
      In (NewService key) (events (searchYouTube lower api apiKey query)) ->
      key = apiKey) /\
  (forall call,
      In (SearchDo call) (events (searchYouTube lower api apiKey query)) ->
      call = {| youtube.search_part := ["id"; "snippet"]; youtube.Q := query;
                youtube.MaxResults := 10; youtube.Type_ := "video" |}) /\
  (forall call,
      In (VideosDo call) (events (searchYouTube lower api apiKey query)) ->
      exists service sresp videoIDs,
        youtube.NewService api apiKey = inr service /\
        youtube.SearchListDo api service (searchCallOf query) = inr sresp /\
        videoIDsOf sresp = Returned videoIDs /\
        call = {| youtube.videos_part := ["snippet"; "contentDetails"];
                  youtube.Id_ := strings.Join videoIDs "," |}) /\
  (length (List.filter isApiCall (events (searchYouTube lower api apiKey query))) <= 3)%nat /\
  (length (List.filter isPrintln (events (searchYouTube lower api apiKey query))) <= 1)%nat /\
  existsb isRender (events (searchYouTube lower api apiKey query)) = false.
Proof.
  destruct (searchYouTube_cases lower api apiKey query)
    as [(err & H1 & E)|[(service & err & H1 & H2 & E)
       |[(service & sresp & v & H1 & H2 & H3 & E)
        |[(service & sresp & videoIDs & err & H1 & H2 & H3 & H4 & E)
         |(service & sresp & videoIDs & dresp & H1 & H2 & H3 & H4 & E)]]]];
    rewrite E; cbn [events snd List.filter isApiCall isPrintln length existsb isRender orb];
    (split; [reflexivity|]);
    (split; [intros service' Hs; first [congruence|reflexivity]|]);
    (split; [intros service' sresp' videoIDs' Hs1 Hs2 Hs3;
             first [congruence
                   |assert (service' = service) by congruence; subst service';
                    assert (sresp' = sresp) by congruence; subst sresp';
                    first [congruence
                          |assert (videoIDs' = videoIDs) by congruence; subst videoIDs';
                           reflexivity]]|]);
    (split; [intros key Hin; in_events Hin; reflexivity|]);
    (split; [intros call Hin; in_events Hin; reflexivity|]);
    (split; [intros call Hin; in_events Hin; exists service, sresp, videoIDs;
             (split; [exact H1|split; [exact H2|split; [exact H3|reflexivity]]])|]);
    (split; [lia|split; [lia|reflexivity]]).
Qed.

(** X10.  The identifiers of the details request are those of the search
    results, in their order: when the search returned at least one result,
    every result holds its identifier and no identifier holds a comma,
    splitting the [id] parameter at the commas gives back the list of
    identifiers. *)
Theorem searchYouTube_details_ids apiKey query service sresp videoIDs :
  youtube.NewService api apiKey = inr service ->
  youtube.SearchListDo api service (searchCallOf query) = inr sresp ->
  youtube.SearchListResponse_Items sresp = map searchResultOf videoIDs ->
  videoIDs <> [] ->
  Forall (fun id => isCommaFree id = true) videoIDs ->
  exists call,
    events (searchYouTube lower api apiKey query) !! 2%nat = Some (VideosDo call) /\
    splitOn "," (youtube.Id_ call) = videoIDs.
Proof.
  intros H1 H2 Hitems Hne Hfree. exists (detailsCallOf videoIDs).
  split; [|apply splitOn_Join; assumption].
  assert (H3 : videoIDsOf sresp = Returned videoIDs)
    by (unfold videoIDsOf; rewrite Hitems; apply idsOf_searchResultOf).
  destruct (youtube.VideosListDo api service (detailsCallOf videoIDs))
    as [err|dresp] eqn:H4.
  - rewrite (searchYouTube_details_failed lower api _ _ _ _ _ _ H1 H2 H3 H4). reflexivity.
  - rewrite (searchYouTube_succeeded lower api _ _ _ _ _ _ H1 H2 H3 H4). reflexivity.
Qed.

(** X11.  When the search finds nothing, the details request is sent all
    the same, with an empty [id] parameter; what it answers becomes the
    result. *)
Theorem searchYouTube_empty_search apiKey query service sresp :
  youtube.NewService api apiKey = inr service ->
  youtube.SearchListDo api service (searchCallOf query) = inr sresp ->
  youtube.SearchListResponse_Items sresp = [] ->
  events (searchYouTube lower api apiKey query) !! 2%nat
  = Some (VideosDo {| youtube.videos_part := ["snippet"; "contentDetails"];
                      youtube.Id_ := "" |}) /\
  forall dresp,
    youtube.VideosListDo api service
      {| youtube.videos_part := ["snippet"; "contentDetails"]; youtube.Id_ := "" |}
    = inr dresp ->
    result (searchYouTube lower api apiKey query) = recordsOf lower (youtube.Items dresp).
Proof.
  intros H1 H2 Hempty.
  assert (H3 : videoIDsOf sresp = Returned [])
    by (unfold videoIDsOf; rewrite Hempty; reflexivity).
  split.
  - destruct (youtube.VideosListDo api service (detailsCallOf [])) as [err|dresp] eqn:H4.
    + rewrite (searchYouTube_details_failed lower api _ _ _ _ _ _ H1 H2 H3 H4).
      reflexivity.
    + rewrite (searchYouTube_succeeded lower api _ _ _ _ _ _ H1 H2 H3 H4). reflexivity.
  - intros dresp H4.
    rewrite (searchYouTube_succeeded lower api _ _ _ _ _ _ H1 H2 H3 H4). reflexivity.
Qed.

(** X26.  A search result that is not there, or that has no [id], makes
    [searchYouTube] panic with the nil dereference, right after the search
    call: no details request is sent, nothing is printed and nothing is
    returned. *)
Theorem searchYouTube_missing_id apiKey query service sresp :
  youtube.NewService api apiKey = inr service ->
  youtube.SearchListDo api service (searchCallOf query) = inr sresp ->
  forallb hasId (youtube.SearchListResponse_Items sresp) = false ->
  result (searchYouTube lower api apiKey query) = Panicked nilDereference /\
  events (searchYouTube lower api apiKey query)
  = [NewService apiKey;
     SearchDo {| youtube.search_part := ["id"; "snippet"]; youtube.Q := query;
                 youtube.MaxResults := 10; youtube.Type_ := "video" |}].
Proof.
  intros H1 H2 Hid.
  assert (H3 : videoIDsOf sresp = Panicked nilDereference)
    by (apply idsOf_hasId, Hid).
  rewrite (searchYouTube_ids_panicked lower api _ _ _ _ _ H1 H2 H3). split; reflexivity.
Qed.

(** * Further properties of the handlers *)

(** Why [searchYouTube] panics, when it does. *)
Lemma searchYouTube_panic_cause apiKey query v :
  result (searchYouTube lower api apiKey query) = Panicked v ->
  v = nilDereference /\
  exists service sresp,
    youtube.NewService api apiKey = inr service /\
    youtube.SearchListDo api service (searchCallOf query) = inr sresp /\
    (forallb hasId (youtube.SearchListResponse_Items sresp) = false \/
     exists videoIDs dresp,
       videoIDsOf sresp = Returned videoIDs /\
       youtube.VideosListDo api service (detailsCallOf videoIDs) = inr dresp /\
       forallb hasParts (youtube.Items dresp) = false).
Proof.
  destruct (searchYouTube_cases lower api apiKey query)
    as [(err & H1 & E)|[(service & err & H1 & H2 & E)
       |[(service & sresp & v' & H1 & H2 & H3 & E)
        |[(service & sresp & videoIDs & err & H1 & H2 & H3 & H4 & E)
         |(service & sresp & videoIDs & dresp & H1 & H2 & H3 & H4 & E)]]]];
    rewrite E; cbn [result fst]; intros Hp; try discriminate Hp.
  - injection Hp as ->.
    destruct (forallb hasId (youtube.SearchListResponse_Items sresp)) eqn:Hid.
    + destruct (proj1 (idsOf_hasId _) Hid) as (ids & Hids).
      unfold videoIDsOf in H3. congruence.
    + pose proof (proj2 (idsOf_hasId _) Hid) as Hids. unfold videoIDsOf in H3.
      split; [congruence|]. exists service, sresp.
      split; [exact H1|]. split; [exact H2|]. left. exact Hid.
  - destruct (forallb hasParts (youtube.Items dresp)) eqn:Hparts.
    + destruct (recordsOf_complete lower _ Hparts) as (videos & Hr & _). congruence.
    + pose proof (recordsOf_partless lower _ Hparts) as Hr.
      split; [congruence|]. exists service, sresp.
      split; [exact H1|]. split; [exact H2|]. right.
      exists videoIDs, dresp. split; [exact H3|]. split; [exact H4|exact Hparts].
Qed.

(** X12.  The search handler renders at most once, and last.  When
    [searchYouTube] returns, the handler renders exactly one response
    after the calls of [searchYouTube] and returns: status 404 with
    "No videos found." for the empty list, status 200 with the results view
    over the records otherwise.  When [searchYouTube] panics, which it does
    with the nil dereference and only when a search result lacks its
    identifier or an item of the details response lacks a part, the handler
    panics with it and renders nothing. *)
Theorem handleSearch_one_response apiKey c :
  existsb isRender (events (searchYouTube lower api apiKey (gin.PostForm c "query")))
  = false /\
  (forall videos,
      result (searchYouTube lower api apiKey (gin.PostForm c "query")) = Returned videos ->
      exists response,
        handleSearch lower api apiKey c
        = (Returned tt,
           events (searchYouTube lower api apiKey (gin.PostForm c "query")) ++ [response]) /\
        (videos = [] /\ response = RenderString 404 "No videos found." \/
         videos <> [] /\
         response = RenderHTML 200 "results.html" {[ "Videos" := gin.VVideos videos ]})) /\
  (forall v,
      result (searchYouTube lower api apiKey (gin.PostForm c "query")) = Panicked v ->
      handleSearch lower api apiKey c
      = (Panicked v, events (searchYouTube lower api apiKey (gin.PostForm c "query"))) /\
      v = nilDereference /\
      exists service sresp,
        youtube.NewService api apiKey = inr service /\
        youtube.SearchListDo api service (searchCallOf (gin.PostForm c "query")) = inr sresp /\
        (forallb hasId (youtube.SearchListResponse_Items sresp) = false \/
         exists videoIDs dresp,
           videoIDsOf sresp = Returned videoIDs /\
           youtube.VideosListDo api service (detailsCallOf videoIDs) = inr dresp /\
           forallb hasParts (youtube.Items dresp) = false)).
Proof.
  split; [apply searchYouTube_no_render|]. split.
  - intros videos Hr. rewrite (handleSearch_unfold lower api), Hr.
    eexists. split; [reflexivity|].
    destruct videos as [|video videos]; [left|right]; split;
      first [reflexivity|discriminate].
  - intros v Hp. split; [rewrite (handleSearch_unfold lower api), Hp; reflexivity|].
    apply searchYouTube_panic_cause, Hp.
Qed.

(** X13.  A failure of the remote side is answered like an empty result:
    when making the client, the search or the details request fails, the
    handler prints the label of the step with the error it got and answers
    with status 404 and "No videos found."; the error text is no part of
    the answer. *)
Theorem handleSearch_api_failure apiKey c :
  adapterFails api apiKey (gin.PostForm c "query") ->
  exists calls label err,
    events (handleSearch lower api apiKey c)
    = calls ++ [Println [label; err]; RenderString 404 "No videos found."] /\
    forallb isApiCall calls = true /\
    (label = "Error initializing YouTube service:" /\
     youtube.NewService api apiKey = inl err \/
     label = "Error searching YouTube:" /\
     (exists service,
         youtube.NewService api apiKey = inr service /\
         youtube.SearchListDo api service (searchCallOf (gin.PostForm c "query"))
         = inl err) \/
     label = "Error fetching video details:" /\
     (exists service sresp videoIDs,
         youtube.NewService api apiKey = inr service /\
         youtube.SearchListDo api service (searchCallOf (gin.PostForm c "query"))
         = inr sresp /\
         videoIDsOf sresp = Returned videoIDs /\
         youtube.VideosListDo api service (detailsCallOf videoIDs) = inl err)).
Proof.
  intros Hfail. rewrite (handleSearch_unfold lower api).
  destruct Hfail as [(err & H1)|[(service & err & H1 & H2)
                    |(service & sresp & videoIDs & err & H1 & H2 & H3 & H4)]].
  - rewrite (searchYouTube_init_failed lower api _ _ _ H1).
    exists [NewService apiKey], "Error initializing YouTube service:", err.
    split; [reflexivity|]. split; [reflexivity|]. left. split; [reflexivity|exact H1].
  - rewrite (searchYouTube_search_failed lower api _ _ _ _ H1 H2).
    exists [NewService apiKey; SearchDo (searchCallOf (gin.PostForm c "query"))],
      "Error searching YouTube:", err.
    split; [reflexivity|]. split; [reflexivity|]. right; left.
    split; [reflexivity|]. exists service. split; [exact H1|exact H2].
  - rewrite (searchYouTube_details_failed lower api _ _ _ _ _ _ H1 H2 H3 H4).
    exists [NewService apiKey; SearchDo (searchCallOf (gin.PostForm c "query"));
            VideosDo (detailsCallOf videoIDs)],
      "Error fetching video details:", err.
    split; [reflexivity|]. split; [reflexivity|]. right; right.
    split; [reflexivity|]. exists service, sresp, videoIDs.
    split; [exact H1|]. split; [exact H2|]. split; [exact H3|exact H4].
Qed.

(** X14.  A request without the form field [query] is not turned down: the
    handler searches for the empty string. *)
Theorem handleSearch_missing_query apiKey c service :
  gin.PostFormValues c !! "query" = None ->
  youtube.NewService api apiKey = inr service ->
  gin.PostForm c "query" = "" /\
  events (handleSearch lower api apiKey c) !! 1%nat
  = Some (SearchDo {| youtube.search_part := ["id"; "snippet"]; youtube.Q := "";
                      youtube.MaxResults := 10; youtube.Type_ := "video" |}).
Proof.
  intros Hq H1.
  assert (E : gin.PostForm c "query" = "") by (unfold gin.PostForm; rewrite Hq; reflexivity).
  split; [exact E|].
  rewrite (handleSearch_unfold lower api), E.
  destruct (searchYouTube_cases lower api apiKey "")
    as [(err & H1' & _)|[(service' & err & _ & _ & E')
       |[(service' & sresp & v & _ & _ & _ & E')
        |[(service' & sresp & videoIDs & err & _ & _ & _ & _ & E')
         |(service' & sresp & videoIDs & dresp & _ & _ & _ & _ & E')]]]];
    [congruence|rewrite E'; cbn [result fst events snd]..]; try reflexivity.
  destruct (recordsOf lower (youtube.Items dresp)); reflexivity.
Qed.

(** X15.  From the answer of the remote side to the page: after a
    successful search whose items carry their parts, the record shown for
    an item whose duration is written as [PT] with counts of hours, minutes
    and seconds (below 1024 hours in all) carries the item's identifier
    and, as duration, the clock reading of the sum of the counts. *)
Theorem handleSearch_shows_clock apiKey c sresp dresp (i : nat) item details l :
  adapterSucceeds api apiKey (gin.PostForm c "query") sresp dresp ->
  forallb hasParts (youtube.Items dresp) = true ->
  youtube.Items dresp !! i = Some (Some item) ->
  youtube.ContentDetails item = Some details ->
  youtube.Duration details = apiDuration l ->
  l <> [] -> Forall (fun p => 0 <= fst p) l -> totalDuration l < 1024 * time.Hour ->
  exists videos video,
    last (events (handleSearch lower api apiKey c))
    = Some (RenderHTML 200 "results.html" {[ "Videos" := gin.VVideos videos ]}) /\
    videos !! i = Some video /\
    video !! "id" = Some (youtube.Id item) /\
    video !! "duration" = Some (clockReading (totalDuration l)).
Proof.
  intros (service & videoIDs & H1 & H2 & H3 & H4) Hparts Hi Hdet Hdur Hne Hl Hb.
  rewrite (handleSearch_unfold lower api).
  rewrite (searchYouTube_succeeded lower api _ _ _ _ _ _ H1 H2 H3 H4).
  cbn [result events fst snd].
  destruct (recordsOf_complete lower _ Hparts) as (videos & Hr & _ & Hall).
  destruct (Hall i (Some item) Hi) as (video & Hv & Hof).
  rewrite Hr. exists videos, video. split.
  - destruct videos as [|v vs]; [rewrite lookup_nil in Hv; discriminate Hv|].
    reflexivity.
  - split; [exact Hv|].
    destruct (videoOf_fields lower item video Hof)
      as (snippet & details' & _ & Hd' & Hid & _ & _ & Hd & _).
    split; [exact Hid|].
    assert (details' = details) by congruence. subst details'.
    rewrite Hd, Hdur.
    destruct (formatDuration_api lower l Hne Hl Hb) as (_ & _ & E). rewrite E. reflexivity.
Qed.

End AdapterMore.

Lemma prefix_append p s : String.prefix p (p +:+ s) = true.
Proof.
  induction p as [|a p IH]; [now destruct s|].
  change (String a p +:+ s) with (String a (p +:+ s)). cbn [String.prefix].
  destruct (ascii_dec a a) as [_|Hn]; [exact IH|contradiction].
Qed.

Lemma string_drop_append p s : string_drop (String.length p) (p +:+ s) = s.
Proof.
  induction p as [|a p IH]; [now destruct s|].
  change (String a p +:+ s) with (String a (p +:+ s)). cbn [String.length string_drop].
  exact IH.
Qed.

(** X16.  The identifier can be read back from the URL of the embed view:
    taking the fixed prefix off gives the path parameter as it was, so two
    requests with different identifiers get different URLs. *)
Theorem embedVideo_read_back :
  (forall c,
      exists url,
        events (embedVideo c)
        = [RenderHTML 200 "embed.html" {[ "EmbedURL" := gin.VString url ]}] /\
        strings.TrimPrefix url "https://www.youtube.com/embed/" = gin.Param c "id") /\
  (forall c1 c2,
      events (embedVideo c1) = events (embedVideo c2) ->
      gin.Param c1 "id" = gin.Param c2 "id").
Proof.
  assert (H : forall c,
             events (embedVideo c)
             = [RenderHTML 200 "embed.html"
                  {[ "EmbedURL" :=
                       gin.VString ("https://www.youtube.com/embed/" +:+ gin.Param c "id") ]}]).
  { intros c. unfold embedVideo. rewrite Sprintf_embed. reflexivity. }
  assert (T : forall id,
             strings.TrimPrefix ("https://www.youtube.com/embed/" +:+ id)
               "https://www.youtube.com/embed/" = id).
  { intros id. unfold strings.TrimPrefix. rewrite prefix_append. apply string_drop_append. }
  split.
  - intros c. eexists. split; [apply H|apply T].
  - intros c1 c2 E. rewrite !H in E.
    assert (E' : ("https://www.youtube.com/embed/" +:+ gin.Param c1 "id")
                 = ("https://www.youtube.com/embed/" +:+ gin.Param c2 "id")).
    { apply (f_equal (fun evs => match evs with
                                  | [RenderHTML _ _ obj] => obj !! "EmbedURL"
                                  | _ => None
                                  end)) in E.
      cbv beta iota in E. rewrite !lookup_singleton_eq in E. congruence. }
    rewrite <- (T (gin.Param c1 "id")), <- (T (gin.Param c2 "id")), E'. reflexivity.
Qed.

(** ** Instances *)

Lemma searchYouTube_init_failure_witness :
  result (searchYouTube asciiLower initDownAPI "KEY" "cats") = Returned [] /\
  existsb isApiCall (tail (events (searchYouTube asciiLower initDownAPI "KEY" "cats")))
  = false.
Proof.
  destruct (searchYouTube_init_failure asciiLower initDownAPI "KEY" "cats" _ eq_refl)
    as [H1 H2].
  split; [exact H1|rewrite H2; reflexivity].
Defined.

Lemma searchYouTube_details_failure_witness :
  result (searchYouTube asciiLower detailsDownAPI "KEY" "cats") = Returned [] /\
  last (events (searchYouTube asciiLower detailsDownAPI "KEY" "cats"))
  = Some (Println ["Error fetching video details:"; "backend error"]).
Proof.
  destruct (searchYouTube_details_failure asciiLower detailsDownAPI "KEY" "cats"
              {| youtube.apiKey := "KEY" |} sampleSearch ["a1"; "b2"] "backend error"
              eq_refl eq_refl eq_refl eq_refl) as [H1 H2].
  split; [exact H1|rewrite H2; reflexivity].
Defined.

Lemma searchYouTube_details_ids_witness :
  youtube.SearchListResponse_Items sampleSearch = map searchResultOf ["a1"; "b2"] /\
  exists call,
    events (searchYouTube asciiLower sampleAPI "KEY" "cats") !! 2%nat = Some (VideosDo call) /\
    youtube.Id_ call = "a1,b2" /\
    splitOn "," (youtube.Id_ call) = ["a1"; "b2"].
Proof.
  split; [reflexivity|].
  destruct (searchYouTube_details_ids asciiLower sampleAPI "KEY" "cats"
              {| youtube.apiKey := "KEY" |} sampleSearch ["a1"; "b2"]
              eq_refl eq_refl eq_refl)
    as (call & H1 & H2);
    [discriminate|repeat constructor|].
  exists call. split; [exact H1|]. split; [|exact H2].
  vm_compute in H1. injection H1 as <-. reflexivity.
Defined.

Lemma searchYouTube_empty_search_witness :
  events (searchYouTube asciiLower emptySearchAPI "KEY" "no such video") !! 2%nat
  = Some (VideosDo {| youtube.videos_part := ["snippet"; "contentDetails"];
                      youtube.Id_ := "" |}).
Proof.
  exact (proj1 (searchYouTube_empty_search asciiLower emptySearchAPI "KEY" "no such video"
                  {| youtube.apiKey := "KEY" |}
                  {| youtube.SearchListResponse_Items := [] |} eq_refl eq_refl eq_refl)).
Defined.

Lemma searchYouTube_missing_id_witness :
  result (searchYouTube asciiLower idlessAPI "KEY" "cats") = Panicked nilDereference /\
  existsb isVideosDo (events (searchYouTube asciiLower idlessAPI "KEY" "cats")) = false.
Proof.
  destruct (searchYouTube_missing_id asciiLower idlessAPI "KEY" "cats"
              {| youtube.apiKey := "KEY" |}
              {| youtube.SearchListResponse_Items :=
                   [searchResultOf "a1"; Some {| youtube.SearchResult_Id := None |}] |}
              eq_refl eq_refl eq_refl) as [H1 H2].
  split; [exact H1|rewrite H2; reflexivity].
Defined.

(** The handler, when an item of the details response has no content
    details: a panic, and nothing rendered. *)
Example handleSearch_partless :
  handleSearch asciiLower partlessAPI "KEY" sampleSearchRequest
  = (Panicked nilDereference,
     [NewService "KEY"; SearchDo (searchCallOf "cats"); VideosDo (detailsCallOf ["a1"; "b2"])]).
Proof. vm_compute. reflexivity. Qed.

Lemma handleSearch_api_failure_witness :
  adapterFails detailsDownAPI "KEY" (gin.PostForm sampleSearchRequest "query") /\
  last (events (handleSearch asciiLower detailsDownAPI "KEY" sampleSearchRequest))
  = Some (RenderString 404 "No videos found.").
Proof.
  assert (Hf : adapterFails detailsDownAPI "KEY" (gin.PostForm sampleSearchRequest "query")).
  { right; right. exists {| youtube.apiKey := "KEY" |}, sampleSearch, ["a1"; "b2"],
      "backend error". repeat split. }
  split; [exact Hf|].
  destruct (handleSearch_api_failure asciiLower detailsDownAPI "KEY" sampleSearchRequest Hf)
    as (calls & label & err & E & _).
  rewrite E. rewrite last_app. reflexivity.
Defined.

Lemma handleSearch_missing_query_witness :
  gin.PostFormValues noQueryRequest !! "query" = None /\
  events (handleSearch asciiLower sampleAPI "KEY" noQueryRequest) !! 1%nat
  = Some (SearchDo {| youtube.search_part := ["id"; "snippet"]; youtube.Q := "";
                      youtube.MaxResults := 10; youtube.Type_ := "video" |}).
Proof.
  split; [reflexivity|].
  exact (proj2 (handleSearch_missing_query asciiLower sampleAPI "KEY" noQueryRequest
                  {| youtube.apiKey := "KEY" |} eq_refl eq_refl)).
Defined.

Lemma handleSearch_shows_clock_witness :
  youtube.Items sampleDetails !! 0%nat
  = Some (Some (sampleVideo "b2" "Second" "Channel B" "PT1H2M3S")) /\
  apiDuration [(1, UnitH); (2, UnitM); (3, UnitS)] = "PT1H2M3S" /\
  clockReading (totalDuration [(1, UnitH); (2, UnitM); (3, UnitS)]) = "1:02:03" /\
  exists videos video,
    last (events (handleSearch asciiLower sampleAPI "KEY" sampleSearchRequest))
    = Some (RenderHTML 200 "results.html" {[ "Videos" := gin.VVideos videos ]}) /\
    videos !! 0%nat = Some video /\
    video !! "id" = Some "b2" /\
    video !! "duration"
    = Some (clockReading (totalDuration [(1, UnitH); (2, UnitM); (3, UnitS)])).
Proof.
  split; [reflexivity|]. split; [reflexivity|]. split; [vm_compute; reflexivity|].
  apply (handleSearch_shows_clock asciiLower sampleAPI "KEY" sampleSearchRequest
           sampleSearch sampleDetails 0
           (sampleVideo "b2" "Second" "Channel B" "PT1H2M3S")
           {| youtube.Duration := "PT1H2M3S" |}
           [(1, UnitH); (2, UnitM); (3, UnitS)]);
    [exact sampleAPI_succeeds|reflexivity|reflexivity|reflexivity|reflexivity|discriminate
    |repeat constructor; cbn [fst]; lia|vm_compute; reflexivity].
Defined.

(** * Further properties of main *)

Section StartupMore.

Variable lower : string -> string.
Variable api : youtube.API.

(** [main] once the file [.env] is loaded and the credential is there. *)
Lemma main_with_key w vars :
  os.dotenvFile w = inr vars ->
  os.Getenv (os.environ w ∪ vars) "YOUTUBE_API_KEY" <> "" ->
  main lower api w
  = if negb (os.globMatches w "templates/*") then
      (Panic, [DotenvLoad; Getenv "YOUTUBE_API_KEY"; LoadHTMLGlob "templates/*"])
    else
      (match os.listen w ":8080" with
       | Some _ => Exit 0
       | None =>
           Serving
             [("GET", "/", showHomePage);
              ("POST", "/search",
               handleSearch lower api (os.Getenv (os.environ w ∪ vars) "YOUTUBE_API_KEY"));
              ("GET", "/embed/:id", embedVideo)]
       end,
       [DotenvLoad; Getenv "YOUTUBE_API_KEY"; LoadHTMLGlob "templates/*";
        Route "GET" "/"; Route "POST" "/search"; Route "GET" "/embed/:id";
        Run ":8080"]).
Proof.
  intros H1 H2. unfold main, os.godotenv_Load. rewrite H1.
  destruct (String.eqb_spec (os.Getenv (os.environ w ∪ vars) "YOUTUBE_API_KEY") "")
    as [E|_]; [contradiction|].
  destruct (os.globMatches w "templates/*"); cbn -[os.Getenv]; [|reflexivity].
  destruct (os.listen w ":8080"); reflexivity.
Qed.

(** X17.  With the file [.env] loaded, a credential that is not empty, the
    templates in place and the port free, [main] reads the credential,
    loads the templates, registers three routes in this order (GET / for
    the home page, POST /search for the search handler made with the
    credential, GET /embed/:id for the embed handler) and serves on
    :8080. *)
Theorem main_startup w vars :
  os.dotenvFile w = inr vars ->
  os.Getenv (os.environ w ∪ vars) "YOUTUBE_API_KEY" <> "" ->
  os.globMatches w "templates/*" = true ->
  os.listen w ":8080" = None ->
  result (main lower api w)
  = Serving
      [("GET", "/", showHomePage);
       ("POST", "/search",
        handleSearch lower api (os.Getenv (os.environ w ∪ vars) "YOUTUBE_API_KEY"));
       ("GET", "/embed/:id", embedVideo)] /\
  events (main lower api w)
  = [DotenvLoad; Getenv "YOUTUBE_API_KEY"; LoadHTMLGlob "templates/*";
     Route "GET" "/"; Route "POST" "/search"; Route "GET" "/embed/:id"; Run ":8080"].
Proof.
  intros H1 H2 H3 H4. rewrite (main_with_key w vars H1 H2), H3, H4. split; reflexivity.
Qed.

(** X18.  A credential in the environment of the process wins over the
    one in the file [.env]: when the variable is set there to a value that
    is not empty, the search handler is made with that value, whatever the
    file holds. *)
Theorem main_environment_key_wins w vars key :
  os.dotenvFile w = inr vars ->
  os.environ w !! "YOUTUBE_API_KEY" = Some key ->
  key <> "" ->
  os.globMatches w "templates/*" = true ->
  os.listen w ":8080" = None ->
  result (main lower api w)
  = Serving
      [("GET", "/", showHomePage);
       ("POST", "/search", handleSearch lower api key);
       ("GET", "/embed/:id", embedVideo)].
Proof.
  intros H1 Hkey Hne H3 H4.
  assert (E : os.Getenv (os.environ w ∪ vars) "YOUTUBE_API_KEY" = key).
  { unfold os.Getenv. rewrite (lookup_union_Some_l _ _ _ _ Hkey). reflexivity. }
  rewrite (main_with_key w vars H1) by (rewrite E; exact Hne).
  rewrite H3, H4, E. reflexivity.
Qed.

(** X19.  A variable that is set to the empty string in the environment of
    the process hides the credential of the file [.env]: [main] exits with
    the fatal error "YouTube API key not found in environment" although
    the file has a value. *)
Theorem main_empty_environment_key w vars :
  os.dotenvFile w = inr vars ->
  os.environ w !! "YOUTUBE_API_KEY" = Some "" ->
  main lower api w
  = (Exit 1, [DotenvLoad; Getenv "YOUTUBE_API_KEY";
              LogFatal "YouTube API key not found in environment"]).
Proof.
  intros H1 Hkey. apply (main_credential_missing lower api w vars H1).
  unfold os.Getenv. rewrite (lookup_union_Some_l _ _ _ _ Hkey). reflexivity.
Qed.

(** X20.  When no file matches [templates/*], loading the templates
    panics: [main] stops there, before any route is registered and before
    [router.Run]. *)
Theorem main_no_templates w vars :
  os.dotenvFile w = inr vars ->
  os.Getenv (os.environ w ∪ vars) "YOUTUBE_API_KEY" <> "" ->
  os.globMatches w "templates/*" = false ->
  result (main lower api w) = Panic /\
  events (main lower api w)
  = [DotenvLoad; Getenv "YOUTUBE_API_KEY"; LoadHTMLGlob "templates/*"] /\
  existsb isRoute (events (main lower api w)) = false /\
  existsb isRun (events (main lower api w)) = false.
Proof.
  intros H1 H2 H3. rewrite (main_with_key w vars H1 H2), H3. repeat split.
Qed.


(** X22.  [main] never contacts the remote API and renders nothing: the
    credential is only checked for being empty, and an invalid one shows up
    at the first search.  It writes at most one fatal log entry, and when it
    does the process exits with status 1. *)
Theorem main_checks_no_credential w :
  existsb isApiCall (events (main lower api w)) = false /\
  existsb isRender (events (main lower api w)) = false /\
  (existsb isLogFatal (events (main lower api w)) = true <->
   result (main lower api w) = Exit 1) /\
  (length (List.filter isLogFatal (events (main lower api w))) <= 1)%nat.
Proof.
  unfold main, os.godotenv_Load.
  destruct (os.dotenvFile w) as [err|vars];
    [repeat split; cbn; lia|].
  destruct (String.eqb _ ""); [repeat split; cbn; lia|].
  destruct (os.globMatches w "templates/*");
    [|repeat split; cbn; try lia; discriminate].
  destruct (os.listen w ":8080"); repeat split; cbn; try lia; discriminate.
Qed.

End StartupMore.

(** * Properties of InitDB *)

Section Storage.

Variable sql : database.SQL.

(** X23.  When the database cannot be opened, [InitDB] returns the error
    of [sql.Open], leaves the package variable [db] nil and runs no
    statement. *)
Theorem InitDB_open_failure dbPath err :
  database.Open sql "sqlite" dbPath = inl err ->
  result (database.InitDB sql dbPath) = (None, Some err) /\
  events (database.InitDB sql dbPath) = [SqlOpen "sqlite" dbPath].
Proof.
  intros H. unfold database.InitDB. rewrite H. split; reflexivity.
Qed.

(** X24.  When the statement fails, [InitDB] returns its error, and the
    package variable [db] keeps the handle that was opened: the database is
    not closed. *)
Theorem InitDB_exec_failure dbPath db err :
  database.Open sql "sqlite" dbPath = inr db ->
  database.ExecContext sql db database.createComments = Some err ->
  result (database.InitDB sql dbPath) = (Some db, Some err) /\
  events (database.InitDB sql dbPath)
  = [SqlOpen "sqlite" dbPath; SqlExec database.createComments].
Proof.
  intros H1 H2. unfold database.InitDB. rewrite H1. cbn. rewrite H2. split; reflexivity.
Qed.

(** X25.  [InitDB] returns nil exactly when the database was opened and the
    statement went through, and [db] is then the opened handle.  Whatever
    happens, it opens the path it was given with the driver sqlite, once,
    and the only statement it ever runs is the CREATE TABLE IF NOT EXISTS
    for the table comments. *)
Theorem InitDB_succeeds_iff dbPath :
  (snd (result (database.InitDB sql dbPath)) = None <->
   exists db,
     database.Open sql "sqlite" dbPath = inr db /\
     database.ExecContext sql db database.createComments = None /\
     fst (result (database.InitDB sql dbPath)) = Some db) /\
  head (events (database.InitDB sql dbPath)) = Some (SqlOpen "sqlite" dbPath) /\
  (forall driver path,
      In (SqlOpen driver path) (tail (events (database.InitDB sql dbPath))) -> False) /\
  (forall query,
      In (SqlExec query) (events (database.InitDB sql dbPath)) ->
      query = database.createComments).
Proof.
  unfold database.InitDB.
  destruct (database.Open sql "sqlite" dbPath) as [err|db] eqn:H1.
  - cbn. split; [split; [discriminate|intros (db & Hdb & _); discriminate Hdb]|].
    split; [reflexivity|]. split; [intros ? ? []|].
    intros query [Hq|[]]. discriminate Hq.
  - cbn. destruct (database.ExecContext sql db database.createComments) as [err|] eqn:H2.
    + cbn. split.
      * split; [discriminate|].
        intros (db' & Hdb & Hex & _). injection Hdb as <-. congruence.
      * split; [reflexivity|]. split; [intros ? ? [Hq|[]]; discriminate Hq|].
        intros query [Hq|[Hq|[]]]; [discriminate Hq|injection Hq as <-; reflexivity].
    + cbn. split.
      * split; [|reflexivity]. intros _. exists db. repeat split. exact H2.
      * split; [reflexivity|]. split; [intros ? ? [Hq|[]]; discriminate Hq|].
        intros query [Hq|[Hq|[]]]; [discriminate Hq|injection Hq as <-; reflexivity].
Qed.

End Storage.

(** ** Instances *)

Lemma main_startup_witness :
  events (main asciiLower sampleAPI readyOS)
  = [DotenvLoad; Getenv "YOUTUBE_API_KEY"; LoadHTMLGlob "templates/*";
     Route "GET" "/"; Route "POST" "/search"; Route "GET" "/embed/:id"; Run ":8080"].
Proof.
  apply (main_startup asciiLower sampleAPI readyOS {[ "YOUTUBE_API_KEY" := "secret" ]});
    [reflexivity|vm_compute; discriminate|reflexivity|reflexivity].
Defined.

Lemma main_environment_key_wins_witness :
  os.dotenvFile bothKeysOS = inr {[ "YOUTUBE_API_KEY" := "from-file" ]} /\
  forall lower api,
    result (main lower api bothKeysOS)
    = Serving [("GET", "/", showHomePage);
               ("POST", "/search", handleSearch lower api "from-env");
               ("GET", "/embed/:id", embedVideo)].
Proof.
  split; [reflexivity|]. intros lower api.
  apply (main_environment_key_wins lower api bothKeysOS
           {[ "YOUTUBE_API_KEY" := "from-file" ]} "from-env");
    [reflexivity|reflexivity|discriminate|reflexivity|reflexivity].
Defined.

Lemma main_empty_environment_key_witness :
  os.dotenvFile emptyKeyOS = inr {[ "YOUTUBE_API_KEY" := "from-file" ]} /\
  forall lower api, result (main lower api emptyKeyOS) = Exit 1.
Proof.
  split; [reflexivity|]. intros lower api.
  rewrite (main_empty_environment_key lower api emptyKeyOS
             {[ "YOUTUBE_API_KEY" := "from-file" ]} eq_refl eq_refl).
  reflexivity.
Defined.

Lemma main_no_templates_witness :
  result (main asciiLower sampleAPI noTemplatesOS) = Panic /\
  existsb isRun (events (main asciiLower sampleAPI noTemplatesOS)) = false.
Proof.
  destruct (main_no_templates asciiLower sampleAPI noTemplatesOS
              {[ "YOUTUBE_API_KEY" := "secret" ]} eq_refl) as (H1 & _ & _ & H2);
    [vm_compute; discriminate|reflexivity|].
  split; [exact H1|exact H2].
Defined.


Lemma InitDB_open_failure_witness :
  result (database.InitDB brokenSQL "comments.db")
  = (None, Some "unable to open database file") /\
  events (database.InitDB brokenSQL "comments.db") = [SqlOpen "sqlite" "comments.db"].
Proof.
  exact (InitDB_open_failure brokenSQL "comments.db" "unable to open database file" eq_refl).
Defined.

Lemma InitDB_exec_failure_witness :
  result (database.InitDB readOnlySQL "comments.db")
  = (Some {| database.driverName := "sqlite"; database.dataSourceName := "comments.db" |},
     Some "attempt to write a readonly database").
Proof.
  exact (proj1 (InitDB_exec_failure readOnlySQL "comments.db"
                  {| database.driverName := "sqlite";
                     database.dataSourceName := "comments.db" |}
                  "attempt to write a readonly database" eq_refl eq_refl)).
Defined.

(** With a storage layer that works, [InitDB] returns nil. *)
Example InitDB_working :
  database.InitDB workingSQL "comments.db"
  = ((Some {| database.driverName := "sqlite"; database.dataSourceName := "comments.db" |},
      None),
     [SqlOpen "sqlite" "comments.db"; SqlExec database.createComments]).
Proof. reflexivity. Qed.
